(** * Phoenix worker layer: scheduling substrate

    A shallow embedding of the task-scheduling code of the Phoenix worker
    layer:

    - [worker/PhoenixBaseWorker.js]: [claimTask], [executeTask],
      [handleTaskFailure];
    - [worker/PhoenixWorkers.js]: [PlannerWorker.processTask];
    - [orchestrator/simpleLoop.js]: the three passes of [orchestratorLoop];
    - [orchestrator/orchestrator.js]: the two passes of [startOrchestrator].

    The MongoDB collections [tasks] and [workflows] are finite maps from the
    document [_id] to the remaining fields of the document.  A store call
    ([findOneAndUpdate], [updateOne], [insertOne], [find]) is one function on
    these maps: the store executes each call atomically, so an interleaving of
    several processes is a sequence of such calls.  Writes to the [logs] and
    [workers] collections are left out: no read of the modelled code consults
    them. *)

From stdpp Require Import gmap strings list fin_maps pretty sorting.
From Stdlib Require Import ZArith Lia.

Local Open Scope Z_scope.

(** ** Data model *)

(** [TaskStatus] of PhoenixBaseWorker.js. *)
Inductive TaskStatus := BLOCKED | PENDING | IN_PROGRESS | COMPLETED | FAILED.

#[global] Instance TaskStatus_eq_dec : EqDecision TaskStatus.
Proof. solve_decision. Defined.

(** Status strings of a workflow document. *)
Inductive WorkflowStatus := WfPENDING | WfRUNNING | WfCOMPLETED | WfFAILED.

#[global] Instance WorkflowStatus_eq_dec : EqDecision WorkflowStatus.
Proof. solve_decision. Defined.

#[local] Set Warnings "-register-all".

(** JSON values, for artifacts and input contexts.  An object is the list of
    its properties in insertion order. *)
Inductive json :=
| JNull
| JBool (b : bool)
| JNum (n : Z)
| JStr (s : string)
| JArr (items : list json)
| JObj (props : list (string * json)).

(** JavaScript truthiness, as tested by [if (d.output_artifact)]. *)
Definition truthy (v : json) : bool :=
  match v with
  | JNull => false
  | JBool b => b
  | JNum n => negb (n =? 0)
  | JStr s => negb (String.eqb s EmptyString)
  | JArr _ | JObj _ => true
  end.

(** Property read [o[k]] and property write [o[k] = v] on an object. *)
Fixpoint obj_get (k : string) (o : list (string * json)) : option json :=
  match o with
  | [] => None
  | (k', v) :: rest => if String.eqb k k' then Some v else obj_get k rest
  end.

Fixpoint obj_set (k : string) (v : json) (o : list (string * json))
  : list (string * json) :=
  match o with
  | [] => [(k, v)]
  | (k', v') :: rest =>
      if String.eqb k k' then (k, v) :: rest else (k', v') :: obj_set k v rest
  end.

(** A task document without its [_id], which is the key of the collection.
    A field that the code reads through [x || default] is an [option]:
    [None] stands for an absent or [null] field. *)
Record Task := mkTask {
  workflow_id : option string;
  type : string;
  description : option string;
  status : TaskStatus;
  dependencies : option (list string);
  retry_count : option Z;
  max_retries : option Z;
  worker_lock : option string;
  locked_at : option Z;
  input_context : list (string * json);
  output_artifact : json;
  last_error : option string;
  created_at : Z;
  completed_at : option Z;
  failed_at : option Z;
  updated_at : option Z
}.

Record Workflow := mkWorkflow {
  goal : string;
  wf_status : WorkflowStatus;
  wf_created_at : Z
}.

(** The constructor argument of [PhoenixBaseWorker]. *)
Record Worker := mkWorker {
  workerId : string;
  name : string;
  taskTypes : list string
}.

Abbreviation TaskDocs := (gmap string Task).
Abbreviation WorkflowDocs := (gmap string Workflow).

(** ** Update operators

    One setter per field that some [$set] names. *)

Definition set_status (s : TaskStatus) (t : Task) : Task :=
  mkTask (workflow_id t) (type t) (description t) s (dependencies t)
         (retry_count t) (max_retries t) (worker_lock t) (locked_at t)
         (input_context t) (output_artifact t) (last_error t) (created_at t)
         (completed_at t) (failed_at t) (updated_at t).

Definition set_retry_count (r : option Z) (t : Task) : Task :=
  mkTask (workflow_id t) (type t) (description t) (status t) (dependencies t)
         r (max_retries t) (worker_lock t) (locked_at t)
         (input_context t) (output_artifact t) (last_error t) (created_at t)
         (completed_at t) (failed_at t) (updated_at t).

Definition set_worker_lock (w : option string) (t : Task) : Task :=
  mkTask (workflow_id t) (type t) (description t) (status t) (dependencies t)
         (retry_count t) (max_retries t) w (locked_at t)
         (input_context t) (output_artifact t) (last_error t) (created_at t)
         (completed_at t) (failed_at t) (updated_at t).

Definition set_locked_at (l : option Z) (t : Task) : Task :=
  mkTask (workflow_id t) (type t) (description t) (status t) (dependencies t)
         (retry_count t) (max_retries t) (worker_lock t) l
         (input_context t) (output_artifact t) (last_error t) (created_at t)
         (completed_at t) (failed_at t) (updated_at t).

Definition set_input_context (c : list (string * json)) (t : Task) : Task :=
  mkTask (workflow_id t) (type t) (description t) (status t) (dependencies t)
         (retry_count t) (max_retries t) (worker_lock t) (locked_at t)
         c (output_artifact t) (last_error t) (created_at t)
         (completed_at t) (failed_at t) (updated_at t).

Definition set_output_artifact (a : json) (t : Task) : Task :=
  mkTask (workflow_id t) (type t) (description t) (status t) (dependencies t)
         (retry_count t) (max_retries t) (worker_lock t) (locked_at t)
         (input_context t) a (last_error t) (created_at t)
         (completed_at t) (failed_at t) (updated_at t).

Definition set_last_error (e : option string) (t : Task) : Task :=
  mkTask (workflow_id t) (type t) (description t) (status t) (dependencies t)
         (retry_count t) (max_retries t) (worker_lock t) (locked_at t)
         (input_context t) (output_artifact t) e (created_at t)
         (completed_at t) (failed_at t) (updated_at t).

Definition set_completed_at (c : option Z) (t : Task) : Task :=
  mkTask (workflow_id t) (type t) (description t) (status t) (dependencies t)
         (retry_count t) (max_retries t) (worker_lock t) (locked_at t)
         (input_context t) (output_artifact t) (last_error t) (created_at t)
         c (failed_at t) (updated_at t).

Definition set_failed_at (f : option Z) (t : Task) : Task :=
  mkTask (workflow_id t) (type t) (description t) (status t) (dependencies t)
         (retry_count t) (max_retries t) (worker_lock t) (locked_at t)
         (input_context t) (output_artifact t) (last_error t) (created_at t)
         (completed_at t) f (updated_at t).

Definition set_updated_at (u : option Z) (t : Task) : Task :=
  mkTask (workflow_id t) (type t) (description t) (status t) (dependencies t)
         (retry_count t) (max_retries t) (worker_lock t) (locked_at t)
         (input_context t) (output_artifact t) (last_error t) (created_at t)
         (completed_at t) (failed_at t) u.

Definition set_wf_status (s : WorkflowStatus) (w : Workflow) : Workflow :=
  mkWorkflow (goal w) s (wf_created_at w).

(** [updateOne({ _id: id }, { $set: ... })]: the update applies to the
    document with that [_id] if there is one, and to nothing otherwise. *)
Definition updateOne {A} (id : string) (upd : A → A) (m : gmap string A)
  : gmap string A :=
  alter upd id m.

(** [find(filter).toArray()]: the matching documents with their ids. *)
Definition find {A} (flt : string → A → bool) (m : gmap string A)
  : list (string * A) :=
  filter (λ kv, flt kv.1 kv.2 = true) (map_to_list m).

(** [x || d] on a numeric field: [0], [null] and an absent field are falsy. *)
Definition js_or (x : option Z) (d : Z) : Z :=
  match x with
  | Some n => if n =? 0 then d else n
  | None => d
  end.

(** ** worker/PhoenixBaseWorker.js *)

Module PhoenixBaseWorker.

(** The filter of [claimTask]:
    [{ status: PENDING, type: { $in: this.taskTypes } }]. *)
Definition claim_filter (w : Worker) (t : Task) : bool :=
  bool_decide (status t = PENDING) && bool_decide (type t ∈ taskTypes w).

(** The [$set] of [claimTask]. *)
Definition claim_update (w : Worker) (now : Z) (t : Task) : Task :=
  set_locked_at (Some now)
    (set_worker_lock (Some (workerId w)) (set_status IN_PROGRESS t)).

(** [sort: { created_at: 1 }]: the first document of least [created_at]. *)
Definition earlier (best : option (string * Task)) (kv : string * Task)
  : option (string * Task) :=
  match best with
  | None => Some kv
  | Some b => if created_at kv.2 <? created_at b.2 then Some kv else Some b
  end.

Definition first_by_created_at (l : list (string * Task))
  : option (string * Task) :=
  foldl earlier None l.

(** [claimTask]: one [findOneAndUpdate] with [returnDocument: 'after'].
    The result is the new collection and the post-image, or [None] for
    [null]. *)
Definition claimTask (w : Worker) (now : Z) (m : TaskDocs)
  : TaskDocs * option (string * Task) :=
  match first_by_created_at (find (λ _ t, claim_filter w t) m) with
  | None => (m, None)
  | Some (id, t) =>
      let t' := claim_update w now t in
      (<[id := t']> m, Some (id, t'))
  end.

(** The [$set] of the success branch of [executeTask]. *)
Definition complete_update (result : json) (now : Z) (t : Task) : Task :=
  set_locked_at None
    (set_worker_lock None
       (set_completed_at (Some now)
          (set_output_artifact result (set_status COMPLETED t)))).

(** [handleTaskFailure(task, error)]; [task] is the post-image that
    [claimTask] returned and [msg] is [error.message]. *)
Definition newRetryCount (task : Task) : Z := js_or (retry_count task) 0 + 1.
Definition maxRetries (task : Task) : Z := js_or (max_retries task) 3.

Definition retry_update (task : Task) (msg : string) (t : Task) : Task :=
  set_last_error (Some msg)
    (set_retry_count (Some (newRetryCount task))
       (set_locked_at None (set_worker_lock None (set_status PENDING t)))).

Definition fail_update (task : Task) (msg : string) (now : Z) (t : Task)
  : Task :=
  set_failed_at (Some now)
    (set_last_error (Some msg)
       (set_retry_count (Some (newRetryCount task))
          (set_locked_at None (set_worker_lock None (set_status FAILED t))))).

Definition handleTaskFailure (id : string) (task : Task) (msg : string)
    (now : Z) (m : TaskDocs) : TaskDocs :=
  if newRetryCount task <=? maxRetries task
  then updateOne id (retry_update task msg) m
  else updateOne id (fail_update task msg now) m.

(** [executeTask(task)], given what [processTask] did: it returned an
    artifact ([inr]) or raised an error with a message ([inl]). *)
Definition executeTask (id : string) (task : Task) (outcome : string + json)
    (now : Z) (m : TaskDocs) : TaskDocs :=
  match outcome with
  | inr result => updateOne id (complete_update result now) m
  | inl msg => handleTaskFailure id task msg now m
  end.

(** What the [processTask] of a worker class does at a given time with the
    claimed task and the collection: the collection it leaves, and the
    artifact returned ([inr]) or the message of the error raised ([inl]). *)
Definition Handler : Type :=
  Z → string → Task → TaskDocs → TaskDocs * (string + json).

(** [processTask] of the base class. *)
Definition processTask : Handler :=
  λ _ _ _ m, (m, inl "processTask must be implemented by subclass").

(** The body of the [while (this.isRunning)] loop of [startPolling], from
    the claim on: [now] is the time of the claim and of the handler,
    [finished] the time of the write that ends [executeTask]. *)
Definition startPolling_iteration (w : Worker) (handler : Handler)
    (now finished : Z) (m : TaskDocs) : TaskDocs :=
  match claimTask w now m with
  | (m', None) => m'
  | (m', Some (id, task)) =>
      let r := handler now id task m' in
      executeTask id task r.2 finished r.1
  end.

(** [startPolling] through the iterations that happen at [times]. *)
Definition startPolling (w : Worker) (handler : Handler)
    (times : list (Z * Z)) (m : TaskDocs) : TaskDocs :=
  foldl (λ m tt, startPolling_iteration w handler tt.1 tt.2 m) m times.

End PhoenixBaseWorker.

(** ** orchestrator/simpleLoop.js *)

Module SimpleLoop.

Definition LOCK_TIMEOUT_MS : Z := 5 * 60 * 1000.

(** *** Step 1: dependency resolution *)

(** [find({ _id: { $in: task.dependencies } })]. *)
Definition find_deps (ds : list string) (m : TaskDocs) : list (string * Task) :=
  find (λ id _, bool_decide (id ∈ ds)) m.

Definition allDepsCompleted (deps : list (string * Task)) : bool :=
  bool_decide (Forall (λ d, status d.2 = COMPLETED) deps).

Definition anyDepFailed (deps : list (string * Task)) : bool :=
  bool_decide (Exists (λ d, status d.2 = FAILED) deps).

(** The body of [deps.forEach], and the object that the loop fills. *)
Definition collect (acc : list (string * json)) (d : string * Task)
  : list (string * json) :=
  if truthy (output_artifact d.2)
  then obj_set d.1 (output_artifact d.2) acc
  else acc.

Definition depOutputs (deps : list (string * Task)) : list (string * json) :=
  foldl collect [] deps.

(** [$set: { status: 'PENDING', 'input_context.dependency_outputs': o }]. *)
Definition unblock_update (o : list (string * json)) (t : Task) : Task :=
  set_input_context (obj_set "dependency_outputs" (JObj o) (input_context t))
    (set_status PENDING t).

Definition dep_failed_update (t : Task) : Task :=
  set_last_error (Some "Dependency failed") (set_status FAILED t).

(** The body of [for (const task of blockedTasks)]; [kv] is the document as
    the scan returned it, [m] the collection when the body runs. *)
Definition resolve_one (m : TaskDocs) (kv : string * Task) : TaskDocs :=
  match dependencies kv.2 with
  | None | Some [] => updateOne kv.1 (set_status PENDING) m
  | Some ds =>
      let deps := find_deps ds m in
      if allDepsCompleted deps
      then updateOne kv.1 (unblock_update (depOutputs deps)) m
      else if anyDepFailed deps
           then updateOne kv.1 dep_failed_update m
           else m
  end.

(** The document that the body leaves under [_id] when the task it runs on
    is [t]. *)
Definition resolved (m : TaskDocs) (t : Task) : Task :=
  match dependencies t with
  | None | Some [] => set_status PENDING t
  | Some ds =>
      let deps := find_deps ds m in
      if allDepsCompleted deps then unblock_update (depOutputs deps) t
      else if anyDepFailed deps then dep_failed_update t
      else t
  end.

(** A collection [mi] met in the course of the pass over [m]: a document
    is as in [m], or it was BLOCKED in [m] and the pass has made it PENDING
    or FAILED. *)
Definition midway (m mi : TaskDocs) : Prop :=
  ∀ j, mi !! j = m !! j ∨
       ∃ t t', m !! j = Some t ∧ status t = BLOCKED ∧ mi !! j = Some t' ∧
               (status t' = PENDING ∨ status t' = FAILED).

Definition dependencyResolution (m : TaskDocs) : TaskDocs :=
  foldl resolve_one m (find (λ _ t, bool_decide (status t = BLOCKED)) m).

(** *** Step 2: lock timeout recovery *)

Definition is_stuck (stuckThreshold : Z) (t : Task) : bool :=
  bool_decide (status t = IN_PROGRESS) &&
  match locked_at t with
  | Some l => l <? stuckThreshold
  | None => false
  end.

Definition newRetryCount (task : Task) : Z := js_or (retry_count task) 0 + 1.
Definition maxRetries (task : Task) : Z := js_or (max_retries task) 3.

Definition recover_update (task : Task) (t : Task) : Task :=
  set_retry_count (Some (newRetryCount task))
    (set_locked_at None (set_worker_lock None (set_status PENDING t))).

Definition timeout_fail_update (t : Task) : Task :=
  set_last_error (Some "Lock timeout after max retries")
    (set_locked_at None (set_worker_lock None (set_status FAILED t))).

(** The body of [for (const task of stuckTasks)]. *)
Definition recover_one (m : TaskDocs) (kv : string * Task) : TaskDocs :=
  if newRetryCount kv.2 <=? maxRetries kv.2
  then updateOne kv.1 (recover_update kv.2) m
  else updateOne kv.1 timeout_fail_update m.

Definition recovered (t : Task) : Task :=
  if newRetryCount t <=? maxRetries t
  then recover_update t t
  else timeout_fail_update t.

Definition lockTimeoutRecovery (now : Z) (m : TaskDocs) : TaskDocs :=
  foldl recover_one m (find (λ _ t, is_stuck (now - LOCK_TIMEOUT_MS) t) m).

(** *** Step 3: workflow status *)

Definition is_open (w : Workflow) : bool :=
  bool_decide (wf_status w = WfPENDING) || bool_decide (wf_status w = WfRUNNING).

Definition tasks_of (wid : string) (m : TaskDocs) : list (string * Task) :=
  find (λ _ t, bool_decide (workflow_id t = Some wid)) m.

Definition allCompleted (ts : list (string * Task)) : bool :=
  bool_decide (Forall (λ t, status t.2 = COMPLETED) ts).

Definition anyFailed (ts : list (string * Task)) : bool :=
  bool_decide (Exists (λ t, status t.2 = FAILED) ts).

Definition anyInProgress (ts : list (string * Task)) : bool :=
  bool_decide (Exists (λ t, status t.2 = IN_PROGRESS ∨ status t.2 = PENDING) ts).

(** [let newStatus = wf.status; if ... else if ... else if ...]. *)
Definition newStatus (old : WorkflowStatus) (ts : list (string * Task))
  : WorkflowStatus :=
  if allCompleted ts then WfCOMPLETED
  else if anyFailed ts && negb (anyInProgress ts) then WfFAILED
  else if anyInProgress ts then WfRUNNING
  else old.

(** The body of [for (const wf of workflows)]. *)
Definition update_one_workflow (m : TaskDocs) (ws : WorkflowDocs)
    (kv : string * Workflow) : WorkflowDocs :=
  let ts := tasks_of kv.1 m in
  if bool_decide (length ts = 0%nat) then ws
  else
    let s := newStatus (wf_status kv.2) ts in
    if bool_decide (s ≠ wf_status kv.2)
    then updateOne kv.1 (set_wf_status s) ws
    else ws.

(** The workflow document that the body leaves under [_id]. *)
Definition aggregated (m : TaskDocs) (wid : string) (w : Workflow) : Workflow :=
  let ts := tasks_of wid m in
  if bool_decide (length ts = 0%nat) then w
  else set_wf_status (newStatus (wf_status w) ts) w.

Definition workflowStatusUpdate (m : TaskDocs) (ws : WorkflowDocs)
  : WorkflowDocs :=
  foldl (update_one_workflow m) ws (find (λ _ w, is_open w) ws).

(** One iteration of the [while (true)] loop. *)
Definition orchestratorLoop (now : Z) (db : TaskDocs * WorkflowDocs)
  : TaskDocs * WorkflowDocs :=
  let m1 := dependencyResolution db.1 in
  let m2 := lockTimeoutRecovery now m1 in
  (m2, workflowStatusUpdate m2 db.2).

End SimpleLoop.

(** ** orchestrator/orchestrator.js *)

Module Orchestrator.

(** Mission 1.  [$in] requires an array: on a document without
    [dependencies] the query fails and the loop is left through the [catch]
    that encloses it.  The result is the collection and whether the pass ran
    to its end. *)
Definition allParentsDone (parents : list (string * Task)) : bool :=
  bool_decide (Forall (λ p, status p.2 = COMPLETED) parents).

Definition unblock_update (now : Z) (t : Task) : Task :=
  set_updated_at (Some now) (set_status PENDING t).

Fixpoint unblock (now : Z) (blockedTasks : list (string * Task)) (m : TaskDocs)
  : TaskDocs * bool :=
  match blockedTasks with
  | [] => (m, true)
  | (id, task) :: rest =>
      match dependencies task with
      | None => (m, false)
      | Some ds =>
          let parents := find (λ i _, bool_decide (i ∈ ds)) m in
          if allParentsDone parents
          then unblock now rest (updateOne id (unblock_update now) m)
          else unblock now rest m
      end
  end.

(** The same loop as a fold: the body on a document that has
    [dependencies], and the documents that the loop reaches. *)
Definition unblock_one (now : Z) (m : TaskDocs) (kv : string * Task)
  : TaskDocs :=
  match dependencies kv.2 with
  | None => m
  | Some ds =>
      if allParentsDone (find (λ i _, bool_decide (i ∈ ds)) m)
      then updateOne kv.1 (unblock_update now) m
      else m
  end.

Definition unblocked (now : Z) (m : TaskDocs) (t : Task) : Task :=
  match dependencies t with
  | None => t
  | Some ds =>
      if allParentsDone (find (λ i _, bool_decide (i ∈ ds)) m)
      then unblock_update now t
      else t
  end.

Fixpoint reached (blockedTasks : list (string * Task)) : list (string * Task) :=
  match blockedTasks with
  | [] => []
  | kv :: rest =>
      match dependencies kv.2 with
      | None => []
      | Some _ => kv :: reached rest
      end
  end.

Definition unblockTraffic (now : Z) (m : TaskDocs) : TaskDocs * bool :=
  unblock now (find (λ _ t, bool_decide (status t = BLOCKED)) m) m.

(** Mission 2.  [zombie.retry_count < (zombie.max_retries || 3)] is false
    when [retry_count] is absent. *)
Definition may_retry (zombie : Task) : bool :=
  match retry_count zombie with
  | Some r => r <? js_or (max_retries zombie) 3
  | None => false
  end.

(** [$set: { status, worker_lock, locked_at }, $inc: { retry_count: 1 }]. *)
Definition resurrect_update (t : Task) : Task :=
  set_retry_count (Some (default 0 (retry_count t) + 1))
    (set_locked_at None (set_worker_lock None (set_status PENDING t))).

Definition rescue_one (m : TaskDocs) (kv : string * Task) : TaskDocs :=
  if may_retry kv.2
  then updateOne kv.1 resurrect_update m
  else updateOne kv.1 (set_status FAILED) m.

Definition rescued (t : Task) : Task :=
  if may_retry t then resurrect_update t else set_status FAILED t.

Definition is_zombie (fiveMinutesAgo : Z) (t : Task) : bool :=
  bool_decide (status t = IN_PROGRESS) &&
  match locked_at t with
  | Some l => l <? fiveMinutesAgo
  | None => false
  end.

Definition rescueZombies (now : Z) (m : TaskDocs) : TaskDocs :=
  foldl rescue_one m (find (λ _ t, is_zombie (now - 5 * 60 * 1000) t) m).

(** One iteration of the [while (true)] loop; [false] when the loop is
    left. *)
Definition startOrchestrator (now : Z) (m : TaskDocs) : TaskDocs * bool :=
  let r := unblockTraffic now m in
  if r.2 then (rescueZombies now r.1, true) else (r.1, false).

End Orchestrator.

(** ** worker/PhoenixWorkers.js: PlannerWorker *)

Module PlannerWorker.

(** An element of [plan.tasks], with the fields that [processTask] reads. *)
Record PlannedTask := mkPlannedTask {
  p_id : string;
  p_type : string;
  p_description : option string;
  p_input_context : option (list (string * json));
  p_dependencies : option (list string)
}.

(** The value of [plan].  [plan_tasks] is [None] when [plan.tasks] is absent
    or is not an array. *)
Record Plan := mkPlan {
  plan_tasks : option (list PlannedTask);
  parse_error : bool
}.

(** What [callLLM] did: it raised, or it returned the text of the reply. *)
Inductive llm_result :=
| LlmError (msg : string)
| LlmText (response : string).

(** The library calls of the parsing block.  [JSON_parse] is [None] where
    [JSON.parse] throws; [strip_code_fences] is the
    [replace(...).trim()] of the first attempt; [match_tasks_object] is
    [response.match(...)] with the pattern of the second attempt. *)
Record JsonRuntime := mkJsonRuntime {
  JSON_parse : string → option Plan;
  strip_code_fences : string → string;
  match_tasks_object : string → option string
}.

(** [{ tasks: [], parse_error: true }]. *)
Definition empty_plan : Plan := mkPlan (Some []) true.

(** The [try { ... } catch (e) { ... }] block that assigns [plan]. *)
Definition parsePlan (rt : JsonRuntime) (response : string) : Plan :=
  match JSON_parse rt (strip_code_fences rt response) with
  | Some plan => plan
  | None =>
      match match_tasks_object rt response with
      | Some jsonMatch =>
          match JSON_parse rt jsonMatch with
          | Some plan => plan
          | None => empty_plan
          end
      | None => empty_plan
      end
  end.

(** The template [`${task.workflow_id}_${x}`]. *)
Definition prefixed (wf x : string) : string := wf +:+ "_" +:+ x.

(** The argument of [insertOne]. *)
Definition child_doc (wf : string) (now : Z) (p : PlannedTask) : Task :=
  let deps := map (prefixed wf) (default [] (p_dependencies p)) in
  mkTask (Some wf) (p_type p) (p_description p)
         (if bool_decide (0 < length deps)%nat then BLOCKED else PENDING)
         (Some deps) (Some 0) (Some 3) None None
         (default [] (p_input_context p)) JNull None now None None None.

Definition duplicate_key : string := "E11000 duplicate key error".

(** [for (const plannedTask of plan.tasks) { await insertOne(...) }];
    [insertOne] raises on an [_id] that is already in the collection, which
    ends the loop.  The second component is the message of the error, if
    one was raised. *)
Fixpoint insert_children (wf : string) (now : Z) (ps : list PlannedTask)
    (m : TaskDocs) : TaskDocs * option string :=
  match ps with
  | [] => (m, None)
  | p :: rest =>
      let id := prefixed wf (p_id p) in
      match m !! id with
      | Some _ => (m, Some duplicate_key)
      | None => insert_children wf now rest (<[id := child_doc wf now p]> m)
      end
  end.

(** The truthiness test on [task.workflow_id]. *)
Definition truthy_string (s : option string) : option string :=
  match s with
  | Some x => if String.eqb x EmptyString then None else Some x
  | None => None
  end.

Definition opt_json {A} (f : A → json) (x : option A) : json :=
  match x with Some a => f a | None => JNull end.

Definition planned_json (p : PlannedTask) : json :=
  JObj [("id", JStr (p_id p)); ("type", JStr (p_type p));
        ("description", opt_json JStr (p_description p));
        ("input_context", opt_json JObj (p_input_context p));
        ("dependencies",
         opt_json (λ ds, JArr (map JStr ds)) (p_dependencies p))].

Definition plan_json (plan : Plan) : json :=
  JObj [("tasks", opt_json (λ ts, JArr (map planned_json ts)) (plan_tasks plan));
        ("parse_error", JBool (parse_error plan))].

(** The returned artifact; [planned_at] is the time as a number. *)
Definition plan_result (task : Task) (plan : Plan) (now : Z) : json :=
  JObj [("type", JStr "plan_result");
        ("goal", default JNull (obj_get "goal" (input_context task)));
        ("plan", plan_json plan);
        ("tasks_created",
         JNum (Z.of_nat (length (default [] (plan_tasks plan)))));
        ("planned_at", JNum now)].

(** The part of [processTask] that follows the parsing block: the insertion
    loop and the [return].  The result is the collection after the call, and
    the artifact returned ([inr]) or the message of the error raised
    ([inl]). *)
Definition createTasks (now : Z) (task : Task) (plan : Plan) (m : TaskDocs)
  : TaskDocs * (string + json) :=
  match truthy_string (workflow_id task), plan_tasks plan with
  | Some wf, Some ps =>
      match insert_children wf now ps m with
      | (m', Some msg) => (m', inl msg)
      | (m', None) => (m', inr (plan_result task plan now))
      end
  | _, _ => (m, inr (plan_result task plan now))
  end.

(** [processTask(task)]. *)
Definition processTask (rt : JsonRuntime) (now : Z) (task : Task)
    (llm : llm_result) (m : TaskDocs) : TaskDocs * (string + json) :=
  match llm with
  | LlmError msg => (m, inl msg)
  | LlmText response => createTasks now task (parsePlan rt response) m
  end.

(** A planner worker's turn on a claimed PLAN task: [executeTask] around
    [processTask]. *)
Definition run (rt : JsonRuntime) (now : Z) (id : string) (task : Task)
    (llm : llm_result) (m : TaskDocs) : TaskDocs :=
  let r := processTask rt now task llm m in
  PhoenixBaseWorker.executeTask id task r.2 now r.1.

(** [processTask] of the planner as the handler of a polling loop, for a
    given behaviour of the language model. *)
Definition handler (rt : JsonRuntime) (llm : Task → llm_result)
  : PhoenixBaseWorker.Handler :=
  λ now _ task m, processTask rt now task (llm task) m.

(** Both attempts of the parsing block fail on the reply. *)
Definition unparseable (rt : JsonRuntime) (response : string) : Prop :=
  JSON_parse rt (strip_code_fences rt response) = None ∧
  ∀ jsonMatch, match_tasks_object rt response = Some jsonMatch →
               JSON_parse rt jsonMatch = None.

(** A runtime whose parser rejects every text and whose pattern matches
    none: it agrees with the library on a reply that holds no brace. *)
Definition rejecting_runtime : JsonRuntime :=
  mkJsonRuntime (λ _, None) (λ s, s) (λ _, None).

End PlannerWorker.

(** ** worker/PhoenixWorkers.js: the worker classes *)

Module PhoenixWorkers.

(** [TaskType] of PhoenixBaseWorker.js. *)
Definition TaskType : list string :=
  ["SEARCH"; "SUMMARIZE"; "PROVISION_INFRA"; "CODE_GENERATE"; "ANALYZE";
   "VALIDATE"; "SYNTHESIZE"; "PLAN"].

(** The constructors. *)
Definition SearcherWorker (workerId : string) : Worker :=
  mkWorker workerId "SearcherWorker" ["SEARCH"].
Definition SummarizerWorker (workerId : string) : Worker :=
  mkWorker workerId "SummarizerWorker" ["SUMMARIZE"; "SYNTHESIZE"].
Definition InfraWorker (workerId : string) : Worker :=
  mkWorker workerId "InfraWorker" ["PROVISION_INFRA"].
Definition CodeGenWorker (workerId : string) : Worker :=
  mkWorker workerId "CodeGenWorker" ["CODE_GENERATE"].
Definition AnalyzerWorker (workerId : string) : Worker :=
  mkWorker workerId "AnalyzerWorker" ["ANALYZE"].
Definition ValidatorWorker (workerId : string) : Worker :=
  mkWorker workerId "ValidatorWorker" ["VALIDATE"].
Definition PlannerWorker (workerId : string) : Worker :=
  mkWorker workerId "PlannerWorker" ["PLAN"].

End PhoenixWorkers.

(** ** worker/PhoenixWorkerManager.js *)

Module PhoenixWorkerManager.

(** [spawnWorker(type)] at the time [now], up to the construction of the
    worker: the worker, or the message of the error thrown. *)
Definition spawnWorker (type : string) (now : Z) : string + Worker :=
  let workerId := type +:+ "_" +:+ pretty now in
  if String.eqb type "searcher" then inr (PhoenixWorkers.SearcherWorker workerId)
  else if String.eqb type "summarizer"
  then inr (PhoenixWorkers.SummarizerWorker workerId)
  else if String.eqb type "infra" then inr (PhoenixWorkers.InfraWorker workerId)
  else if String.eqb type "codegen" then inr (PhoenixWorkers.CodeGenWorker workerId)
  else if String.eqb type "analyzer"
  then inr (PhoenixWorkers.AnalyzerWorker workerId)
  else if String.eqb type "validator"
  then inr (PhoenixWorkers.ValidatorWorker workerId)
  else if String.eqb type "planner" then inr (PhoenixWorkers.PlannerWorker workerId)
  else inl ("Unknown worker type: " +:+ type +:+
            ". Valid: searcher, summarizer, infra, codegen, analyzer, validator, planner").

Definition workerTypes : list string :=
  ["searcher"; "summarizer"; "infra"; "codegen"; "analyzer"; "validator";
   "planner"].

(** The workers that [start] spawns, in order; the [i]-th is spawned at the
    time [clock i], and a type whose spawn throws is skipped. *)
Definition start (clock : nat → Z) : list Worker :=
  omap (λ r : string + Worker, match r with inr w => Some w | inl _ => None end)
       (imap (λ i type, spawnWorker type (clock i)) workerTypes).

(** [GET /capabilities]: the [Set] of the task types of the workers, in
    the order of first insertion. *)
Definition allTypes (workers : list Worker) : list string :=
  foldl (λ acc t, if bool_decide (t ∈ acc) then acc else acc ++ [t])
        [] (workers ≫= taskTypes).

(** The body of a [POST /tasks] request, with the fields the route reads. *)
Record TaskBody := mkTaskBody {
  body_id : option string;
  body_workflow_id : option string;
  body_type : string;
  body_description : option string;
  body_dependencies : option (list string);
  body_max_retries : option Z;
  body_input_context : option (list (string * json))
}.

(** [x || d] on a string: the empty string is falsy. *)
Definition string_or (x : option string) (d : string) : string :=
  match x with
  | Some v => if String.eqb v EmptyString then d else v
  | None => d
  end.

(** The document that [POST /tasks] builds, and its [_id]. *)
Definition posted_id (body : TaskBody) (now : Z) : string :=
  string_or (body_id body) ("task_" +:+ pretty now).

Definition posted_task (body : TaskBody) (now : Z) : Task :=
  mkTask (body_workflow_id body) (body_type body)
         (Some (string_or (body_description body) EmptyString))
         PENDING (Some (default [] (body_dependencies body)))
         (Some 0) (Some (js_or (body_max_retries body) 3)) None None
         (default [] (body_input_context body)) JNull None now
         None None None.

(** [POST /tasks] once a worker is connected: [insertOne], which raises on
    an [_id] that is taken. *)
Definition postTask (body : TaskBody) (now : Z) (m : TaskDocs)
  : TaskDocs * (string + string * Task) :=
  let id := posted_id body now in
  match m !! id with
  | Some _ => (m, inl PlannerWorker.duplicate_key)
  | None =>
      let task := posted_task body now in
      (<[id := task]> m, inr (id, task))
  end.

(** [GET /tasks]: the filter from the query parameters that are present,
    and the sort on [created_at]. *)
Definition matches (wf : option string) (st : option TaskStatus)
    (t : Task) : bool :=
  match PlannerWorker.truthy_string wf with
  | Some wid => bool_decide (workflow_id t = Some wid)
  | None => true
  end &&
  match st with
  | Some s => bool_decide (status t = s)
  | None => true
  end.

Definition created_before (a b : string * Task) : Prop :=
  created_at a.2 ≤ created_at b.2.

#[global] Instance created_before_dec a b : Decision (created_before a b).
Proof. unfold created_before. apply _. Defined.

Definition getTasks (wf : option string) (st : option TaskStatus)
    (m : TaskDocs) : list (string * Task) :=
  merge_sort created_before (find (λ _ t, matches wf st t) m).

End PhoenixWorkerManager.

(** ** The processes together

    Workers and the orchestrator share nothing but the collection.  A state
    of the system is the collection and the tasks that some worker has
    claimed and whose handler has not returned yet, each with the post-image
    the claim returned.  A step is one store call of a worker or one pass of
    an orchestrator. *)

Module System.

Record Sys := mkSys {
  tasks : TaskDocs;
  running : list (string * Task)
}.

Inductive label :=
| Claimed (w : Worker) (id : string)
| Idle (w : Worker)
| Finished (id : string) (outcome : string + json)
| Killed (id : string)
| Inserted (id : string)
| Resolved
| Recovered
| Unblocked
| Rescued.

Inductive step : Sys → label → Sys → Prop :=
| step_claim s w now m' id t :
    (** [claimTask] returned a task: [executeTask] starts its handler. *)
    PhoenixBaseWorker.claimTask w now (tasks s) = (m', Some (id, t)) →
    step s (Claimed w id) (mkSys m' ((id, t) :: running s))
| step_idle s w now m' :
    PhoenixBaseWorker.claimTask w now (tasks s) = (m', None) →
    step s (Idle w) (mkSys m' (running s))
| step_finish s l1 l2 id t outcome now :
    (** The handler returned or raised: [executeTask] writes the outcome. *)
    running s = l1 ++ (id, t) :: l2 →
    step s (Finished id outcome)
         (mkSys (PhoenixBaseWorker.executeTask id t outcome now (tasks s))
                (l1 ++ l2))
| step_kill s l1 l2 id t :
    (** The worker process died before its write. *)
    running s = l1 ++ (id, t) :: l2 →
    step s (Killed id) (mkSys (tasks s) (l1 ++ l2))
| step_insert s id t :
    (** [insertOne] of a new task, as the planner and the workflow scripts
        do: BLOCKED or PENDING, under an [_id] that is free. *)
    tasks s !! id = None →
    status t = BLOCKED ∨ status t = PENDING →
    step s (Inserted id) (mkSys (<[id := t]> (tasks s)) (running s))
| step_resolve s :
    step s Resolved (mkSys (SimpleLoop.dependencyResolution (tasks s)) (running s))
| step_recover s now :
    step s Recovered (mkSys (SimpleLoop.lockTimeoutRecovery now (tasks s)) (running s))
| step_unblock s now :
    step s Unblocked (mkSys (Orchestrator.unblockTraffic now (tasks s)).1 (running s))
| step_rescue s now :
    step s Rescued (mkSys (Orchestrator.rescueZombies now (tasks s)) (running s)).

(** What a step may do to a document that is in the collection before and
    after it: [t] before, [t'] after, under the [_id] [k]. *)
Definition changed (s : Sys) (l : label) (k : string) (t t' : Task) : Prop :=
  t' = t ∨
  (∃ w now, l = Claimed w k ∧ status t = PENDING ∧ type t ∈ taskTypes w ∧
            t' = PhoenixBaseWorker.claim_update w now t) ∨
  (∃ o c, l = Finished k o ∧ (k, c) ∈ running s ∧
          input_context t' = input_context t ∧
          (status t' = COMPLETED ∨ status t' = PENDING ∨ status t' = FAILED)) ∨
  (l = Resolved ∧ status t = BLOCKED ∧
   (status t' = PENDING ∨ status t' = FAILED)) ∨
  ((l = Recovered ∨ l = Rescued) ∧ status t = IN_PROGRESS ∧
   input_context t' = input_context t ∧
   (status t' = PENDING ∨ status t' = FAILED)) ∨
  (l = Unblocked ∧ status t = BLOCKED ∧ status t' = PENDING ∧
   input_context t' = input_context t).

(** No worker is in a handler of a task that is BLOCKED or absent. *)
Definition running_sound (s : Sys) : Prop :=
  ∀ id c, (id, c) ∈ running s →
          ∃ t, tasks s !! id = Some t ∧ status t ≠ BLOCKED.

(** Task [k] has failed and no worker is in its handler. *)
Definition failed_for_good (k : string) (s : Sys) : Prop :=
  (∃ t, tasks s !! k = Some t ∧ status t = FAILED) ∧ k ∉ (running s).*1.

(** A run of the system with the labels of its steps. *)
Inductive exec : Sys → list label → Sys → Prop :=
| exec_nil s : exec s [] s
| exec_cons s l s1 tr s2 : step s l s1 → exec s1 tr s2 → exec s (l :: tr) s2.

(** The handler of task [id] is invoked somewhere in the run. *)
Definition invoked (id : string) (tr : list label) : Prop :=
  ∃ w, Claimed w id ∈ tr.

(** Claims that race for the collection execute one after the other, in
    some order: the results of a sequence of [claimTask] calls. *)
Fixpoint claims (cs : list (Worker * Z)) (m : TaskDocs)
  : TaskDocs * list (option (string * Task)) :=
  match cs with
  | [] => (m, [])
  | (w, now) :: rest =>
      let r := PhoenixBaseWorker.claimTask w now m in
      let rs := claims rest r.1 in
      (rs.1, r.2 :: rs.2)
  end.

Definition winners (rs : list (option (string * Task))) : list string :=
  omap (λ r : option (string * Task), fst <$> r) rs.

End System.

(** ** The claims as the specification words them

    Each definition below follows the words of the specification, not the
    code; the properties compare the code with them. *)

Module Stated.

(** Lease reclamation of a task [t] with numeric [retry_count] and
    [max_retries], leaving [t']: the policy of a handler failure, with
    "lock timeout" recorded in both outcomes. *)
Definition lease_reclaimed (t t' : Task) : Prop :=
  ∀ r0 mx, retry_count t = Some r0 → max_retries t = Some mx →
    (r0 + 1 ≤ mx →
       status t' = PENDING ∧ retry_count t' = Some (r0 + 1) ∧
       worker_lock t' = None ∧ locked_at t' = None ∧
       last_error t' = Some "lock timeout") ∧
    (mx < r0 + 1 →
       status t' = FAILED ∧ worker_lock t' = None ∧ locked_at t' = None ∧
       last_error t' = Some "lock timeout").

(** A handler failure on the claimed task [task], leaving [t']:
    [r = retry_count + 1] against [m = max_retries]. *)
Definition handler_failed (task : Task) (msg : string) (now : Z) (t' : Task)
  : Prop :=
  ∀ r0 mx, retry_count task = Some r0 → max_retries task = Some mx →
    (r0 + 1 ≤ mx →
       status t' = PENDING ∧ worker_lock t' = None ∧ locked_at t' = None ∧
       retry_count t' = Some (r0 + 1) ∧ last_error t' = Some msg) ∧
    (mx < r0 + 1 →
       status t' = FAILED ∧ worker_lock t' = None ∧ locked_at t' = None ∧
       retry_count t' = Some (r0 + 1) ∧ last_error t' = Some msg ∧
       failed_at t' = Some now).

(** Failure propagation, leaving [t']. *)
Definition dependency_failed (t' : Task) : Prop :=
  status t' = FAILED ∧ last_error t' = Some "dependency failed".

(** Artifact flow into a task with dependencies [ds] that the pass over
    the collection [m] has moved to PENDING as [t']: every dependency is
    COMPLETED, and [dependency_outputs] maps it to its artifact. *)
Definition artifact_flow (m : TaskDocs) (ds : list string) (t' : Task) : Prop :=
  ∀ d, d ∈ ds →
    ∃ td o, m !! d = Some td ∧ status td = COMPLETED ∧
            obj_get "dependency_outputs" (input_context t') = Some (JObj o) ∧
            obj_get d o = Some (output_artifact td).

(** The topological pass that the specification asks for, on the edges
    between tasks of the plan: a task is removed once all its dependencies
    inside the plan are removed; the plan is acyclic when every task is
    removed. *)
Definition ready (ids done : list string) (p : PlannerWorker.PlannedTask) : bool :=
  bool_decide (Forall (λ d, d ∈ done ∨ d ∉ ids)
                      (default [] (PlannerWorker.p_dependencies p))).

Fixpoint topo_pass (fuel : nat) (ids done : list string)
    (rest : list PlannerWorker.PlannedTask) : bool :=
  match rest with
  | [] => true
  | _ :: _ =>
      match fuel with
      | O => false
      | S fuel' =>
          let now_ready := filter (λ p, ready ids done p = true) rest in
          let blocked := filter (λ p, ready ids done p ≠ true) rest in
          match now_ready with
          | [] => false
          | _ :: _ =>
              topo_pass fuel' ids (done ++ map PlannerWorker.p_id now_ready) blocked
          end
      end
  end.

Definition plan_acyclic (ps : list PlannerWorker.PlannedTask) : bool :=
  topo_pass (length ps) (map PlannerWorker.p_id ps) [] ps.

(** The planner on a plan with a cycle: no document is inserted and the
    handler raises. *)
Definition rejects_cycles (now : Z) (task : Task) (plan : PlannerWorker.Plan)
    (m : TaskDocs) : Prop :=
  ∀ ps, PlannerWorker.plan_tasks plan = Some ps →
        plan_acyclic ps = false →
        ∃ msg, PlannerWorker.createTasks now task plan m = (m, inl msg).

(** The planner on a reply that cannot be parsed: the handler raises. *)
Definition raises_on_unparseable (rt : PlannerWorker.JsonRuntime) (now : Z)
    (task : Task) (response : string) (m : TaskDocs) : Prop :=
  PlannerWorker.unparseable rt response →
  ∃ msg, (PlannerWorker.processTask rt now task
            (PlannerWorker.LlmText response) m).2 = inl msg.

(** The tasks of workflow [wid] in the collection [m]. *)
Definition every_task (P : Task → Prop) (m : TaskDocs) (wid : string) : Prop :=
  map_Forall (λ _ t, workflow_id t = Some wid → P t) m.

Definition some_task (P : Task → Prop) (m : TaskDocs) (wid : string) : Prop :=
  map_Exists (λ _ t, workflow_id t = Some wid ∧ P t) m.

Definition active (t : Task) : Prop :=
  status t = PENDING ∨ status t = IN_PROGRESS.

(** The status that the aggregation gives to an open workflow whose status
    was [old]. *)
Definition aggregate (old : WorkflowStatus) (m : TaskDocs) (wid : string)
  : WorkflowStatus :=
  if bool_decide (every_task (λ t, status t = COMPLETED) m wid)
  then WfCOMPLETED
  else if bool_decide (some_task (λ t, status t = FAILED) m wid ∧
                       ¬ some_task active m wid)
       then WfFAILED
       else if bool_decide (some_task active m wid) then WfRUNNING
            else old.

End Stated.

(** ** Shapes of handlers, documents and collections *)

Module Shape.

(** A handler that writes no document that is in the collection: it
    inserts, or does nothing. *)
Definition inserts_only (h : PhoenixBaseWorker.Handler) : Prop :=
  ∀ now id task (m : TaskDocs) k,
    is_Some (m !! k) → (h now id task m).1 !! k = m !! k.

(** A handler that raises [msg] on every task and writes nothing. *)
Definition always_raises (h : PhoenixBaseWorker.Handler) (msg : string) : Prop :=
  ∀ now id task (m : TaskDocs), h now id task m = (m, inl msg).

(** The lock fields agree with the status: set on a task that is
    IN_PROGRESS, [null] on any other. *)
Definition lock_consistent (t : Task) : Prop :=
  match status t with
  | IN_PROGRESS => is_Some (worker_lock t) ∧ is_Some (locked_at t)
  | _ => worker_lock t = None ∧ locked_at t = None
  end.

(** The tasks [ids] are BLOCKED and wait for one another only: each has a
    dependency, and all its dependencies are among [ids]. *)
Definition wait_for_each_other (ids : list string) (m : TaskDocs) : Prop :=
  ∀ k, k ∈ ids →
    ∃ t d ds, m !! k = Some t ∧ status t = BLOCKED ∧
              dependencies t = Some (d :: ds) ∧ ∀ x, x ∈ d :: ds → x ∈ ids.

(** [b] lists [a] among its dependencies and is BLOCKED or FAILED. *)
Definition waits_on (m : TaskDocs) (a b : string) : Prop :=
  ∃ t ds, m !! b = Some t ∧ (status t = BLOCKED ∨ status t = FAILED) ∧
          dependencies t = Some ds ∧ a ∈ ds.

Definition failed (m : TaskDocs) (k : string) : Prop :=
  ∃ t, m !! k = Some t ∧ status t = FAILED.

(** A path of tasks, each waiting on the one before, whose first task has
    failed. *)
Definition failing_chain (m : TaskDocs) (path : list string) : Prop :=
  (∀ a, path !! 0%nat = Some a → failed m a) ∧
  ∀ i a b, path !! i = Some a → path !! S i = Some b → waits_on m a b.

End Shape.

(** ** Concrete collections *)

Module Examples.

Definition task (st : TaskStatus) (deps : list string) (created : Z) : Task :=
  mkTask (Some "wf") "SEARCH" None st (Some deps) (Some 0) (Some 3)
         None None [] JNull None created None None None.

Definition searcher : Worker := mkWorker "worker_1" "SearcherWorker" ["SEARCH"].

(** Two tasks that wait for a worker. *)
Definition two_pending : TaskDocs :=
  <["A" := task PENDING [] 1]> (<["B" := task PENDING [] 2]> ∅).

(** Two tasks of a dead worker, locked at time 0: "A" has all its retries
    left, "Z" has used them. *)
Definition stuck (retries : Z) : Task :=
  mkTask (Some "wf") "SEARCH" None IN_PROGRESS (Some []) (Some retries)
         (Some 3) (Some "dead_worker_xyz") (Some 0) [] JNull None 0
         None None None.

Definition stuck_tasks : TaskDocs :=
  <["A" := stuck 0]> (<["Z" := stuck 3]> ∅).

Definition six_minutes : Z := 6 * 60 * 1000.

(** A claimed task that is configured with [max_retries: 0]. *)
Definition no_retries : Task :=
  mkTask (Some "wf") "SEARCH" None IN_PROGRESS (Some []) (Some 0) (Some 0)
         (Some "worker_1") (Some 5) [] JNull None 0 None None None.

(** A chain "A" <- "B" <- "C" whose head has failed for good. *)
Definition failed_chain : TaskDocs :=
  <["A" := task FAILED [] 1]>
    (<["B" := task BLOCKED ["A"] 2]> (<["C" := task BLOCKED ["B"] 3]> ∅)).

(** A task that waits for a document that does not exist. *)
Definition ghost_dependency : TaskDocs :=
  {["T" := task BLOCKED ["ghost"] 1]}.

(** A task that waits for a completed task whose handler returned [null],
    and a task that waits for one whose handler returned an object. *)
Definition done_with (artifact : json) : Task :=
  mkTask (Some "wf") "SEARCH" None COMPLETED (Some []) (Some 0) (Some 3)
         None None [] artifact None 1 (Some 2) None None.

Definition null_artifact : TaskDocs :=
  <["D" := done_with JNull]> (<["T" := task BLOCKED ["D"] 3]> ∅).

Definition ok_artifact : TaskDocs :=
  <["D" := done_with (JObj [("ok", JStr "D")])]>
    (<["T" := task BLOCKED ["D"] 3]> ∅).

(** A claimed PLAN task, alone in the collection, and a plan of two tasks
    that wait for each other. *)
Definition plan_task : Task :=
  mkTask (Some "wf") "PLAN" None IN_PROGRESS (Some []) (Some 0) (Some 3)
         (Some "planner_1") (Some 5) [("goal", JStr "Deploy a REST API")]
         JNull None 0 None None None.

Definition only_plan_task : TaskDocs := {["P" := plan_task]}.

Definition cyclic_tasks : list PlannerWorker.PlannedTask :=
  [PlannerWorker.mkPlannedTask "a" "SEARCH" None None (Some ["b"]);
   PlannerWorker.mkPlannedTask "b" "SUMMARIZE" None None (Some ["a"])].

Definition cyclic_plan : PlannerWorker.Plan :=
  PlannerWorker.mkPlan (Some cyclic_tasks) false.

Definition chain_tasks : list PlannerWorker.PlannedTask :=
  [PlannerWorker.mkPlannedTask "a" "SEARCH" None None (Some []);
   PlannerWorker.mkPlannedTask "b" "SUMMARIZE" None None (Some ["a"])].

Definition chatty_reply : string := "I cannot help with that.".

(** A BLOCKED task without a [dependencies] field. *)
Definition no_dependencies : Task :=
  mkTask (Some "wf") "SEARCH" None BLOCKED None (Some 0) (Some 3)
         None None [] JNull None 0 None None None.

(** A plan that uses the id "a" twice. *)
Definition repeating_tasks : list PlannerWorker.PlannedTask :=
  [PlannerWorker.mkPlannedTask "a" "SEARCH" None None (Some []);
   PlannerWorker.mkPlannedTask "a" "SUMMARIZE" None None (Some []);
   PlannerWorker.mkPlannedTask "c" "VALIDATE" None None (Some ["a"])].

(** A request that posts a task with a dependency and [max_retries: 0]. *)
Definition posted_body : PhoenixWorkerManager.TaskBody :=
  PhoenixWorkerManager.mkTaskBody (Some "T9") (Some "wf") "SEARCH" None
    (Some ["A"]) (Some 0) None.

(** A workflow that has no task yet, in an empty collection of tasks. *)
Definition new_workflow : Workflow := mkWorkflow "Deploy a REST API" WfPENDING 0.

Definition one_workflow : WorkflowDocs := {["wf" := new_workflow]}.

End Examples.

(** * Properties *)

(** ** The store *)

Section store.
Context {A : Type}.
Implicit Types (m : gmap string A) (l : list (string * A)).

Lemma elem_of_find flt m k v :
  (k, v) ∈ find flt m ↔ m !! k = Some v ∧ flt k v = true.
Proof.
  unfold find. rewrite list_elem_of_filter, elem_of_map_to_list. simpl. tauto.
Qed.

Lemma NoDup_filter_keys (P : string * A → Prop) `{∀ x, Decision (P x)} l :
  NoDup l.*1 → NoDup (filter P l).*1.
Proof.
  induction l as [|[k v] l IH]; simpl; [constructor|].
  rewrite NoDup_cons. intros [Hk Hl]. rewrite filter_cons.
  destruct (decide (P (k, v))); simpl; [|by auto].
  rewrite NoDup_cons. split; [|by auto].
  intros Hin. apply Hk. apply list_elem_of_fmap in Hin as [[k' v'] [-> Hin]].
  apply list_elem_of_filter in Hin as [_ Hin].
  apply list_elem_of_fmap. by exists (k', v').
Qed.

Lemma NoDup_find flt m : NoDup (find flt m).*1.
Proof. apply NoDup_filter_keys, NoDup_fst_map_to_list. Qed.

Lemma find_keys flt m k : k ∈ (find flt m).*1 → ∃ v, m !! k = Some v ∧ flt k v = true.
Proof.
  intros Hin. apply list_elem_of_fmap in Hin as [[k' v] [-> Hin]].
  exists v. by apply elem_of_find.
Qed.

Lemma updateOne_lookup id (upd : A → A) m :
  updateOne id upd m !! id = upd <$> m !! id.
Proof. unfold updateOne. by rewrite lookup_alter_eq. Qed.

Lemma updateOne_lookup_ne id (upd : A → A) m k :
  k ≠ id → updateOne id upd m !! k = m !! k.
Proof. intros. unfold updateOne. by rewrite lookup_alter_ne. Qed.

(** A pass scans the collection and then runs a body on each document of
    the scan.  When a body writes no document but the one it runs on, the
    document it runs on is still as the scan returned it. *)
Lemma snapshot_fold (step : gmap string A → string * A → gmap string A)
    (I : gmap string A → Prop) l m0 :
  (∀ m kv k, k ≠ kv.1 → step m kv !! k = m !! k) →
  NoDup l.*1 →
  (∀ k v, (k, v) ∈ l → m0 !! k = Some v) →
  I m0 →
  (∀ m k v, I m → (k, v) ∈ l → m !! k = Some v → I (step m (k, v))) →
  I (foldl step m0 l) ∧
  ∀ k, (k ∉ l.*1 → foldl step m0 l !! k = m0 !! k) ∧
       (∀ v, (k, v) ∈ l →
             ∃ mi, I mi ∧ mi !! k = Some v ∧
                   (∀ j, j ∉ l.*1 → mi !! j = m0 !! j) ∧
                   foldl step m0 l !! k = step mi (k, v) !! k).
Proof.
  intros Hframe. revert m0.
  induction l as [|[k0 v0] l IH]; intros m0 Hnd Hsnap HI Hstep; simpl.
  { split; [done|]. intros k. split; [done|]. intros v Hin. inversion Hin. }
  apply NoDup_cons in Hnd as [Hk0 Hnd].
  destruct (IH (step m0 (k0, v0))) as [HI' Hlook]; [done| | | |].
  - intros k v Hin. rewrite Hframe.
    + apply Hsnap. by right.
    + simpl. intros ->. apply Hk0, list_elem_of_fmap. by exists (k0, v).
  - apply Hstep; [done|by left|]. apply Hsnap. by left.
  - intros m k v Hm Hin. apply Hstep; [done|by right].
  - split; [done|]. intros k. destruct (Hlook k) as [Hout Hin]. split.
    + intros Hk. rewrite not_elem_of_cons in Hk. destruct Hk as [Hne Hk].
      rewrite Hout by done. by apply Hframe.
    + intros v Hkv. apply elem_of_cons in Hkv as [Heq|Hkv].
      * injection Heq as -> ->. exists m0. split; [done|].
        split; [apply Hsnap; by left|]. split; [done|].
        rewrite Hout by done. done.
      * destruct (Hin v Hkv) as (mi & Hmi & Hmik & Hmij & Heq).
        exists mi. split; [done|]. split; [done|]. split; [|done].
        intros j Hj. rewrite not_elem_of_cons in Hj. destruct Hj as [Hne Hj].
        rewrite Hmij by done. by apply Hframe.
Qed.

End store.

Section independent.
Context {A : Type}.

(** A pass whose body rewrites the scanned document from the scan alone
    rewrites every document that the scan matched, and no other. *)
Lemma independent_pass (step : gmap string A → string * A → gmap string A)
    (f : string → A → A) flt (m : gmap string A) k :
  (∀ m kv k, k ≠ kv.1 → step m kv !! k = m !! k) →
  (∀ m k v, m !! k = Some v → step m (k, v) !! k = Some (f k v)) →
  foldl step m (find flt m) !! k
  = (λ v, if flt k v then f k v else v) <$> m !! k.
Proof.
  intros Hframe Hown.
  destruct (snapshot_fold step (λ _, True) (find flt m) m) as [_ Hlook];
    [done|apply NoDup_find| |done|done|].
  { intros k' v' Hin. by apply elem_of_find in Hin as [? _]. }
  destruct (Hlook k) as [Hout Hin].
  destruct (m !! k) as [v|] eqn:Hk; simpl.
  - destruct (flt k v) eqn:Hflt.
    + destruct (Hin v) as (mi & _ & Hmi & _ & ->); [by apply elem_of_find|].
      by apply Hown.
    + rewrite Hout; [done|]. intros Hkin.
      apply find_keys in Hkin as (v' & Hv' & Hflt'). congruence.
  - rewrite Hout; [done|]. intros Hkin.
    apply find_keys in Hkin as (v' & Hv' & _). congruence.
Qed.

End independent.

(** ** What each pass of the orchestrators does to one document *)

Section passes.
Import SimpleLoop.

Lemma resolve_one_frame m kv k : k ≠ kv.1 → resolve_one m kv !! k = m !! k.
Proof.
  intros Hne. unfold resolve_one.
  destruct (dependencies kv.2) as [[|d ds]|];
    repeat case_match; try done; by apply updateOne_lookup_ne.
Qed.

Lemma recover_one_frame m kv k : k ≠ kv.1 → recover_one m kv !! k = m !! k.
Proof.
  intros Hne. unfold recover_one. case_match; by apply updateOne_lookup_ne.
Qed.

Lemma resolve_one_lookup m k t :
  m !! k = Some t → resolve_one m (k, t) !! k = Some (resolved m t).
Proof.
  intros Hk. unfold resolve_one, resolved. simpl.
  destruct (dependencies t) as [[|d ds]|];
    repeat case_match; rewrite ?updateOne_lookup, ?Hk; done.
Qed.

End passes.

Section pass_lookups.
Import SimpleLoop.

Lemma recover_one_lookup m k t :
  m !! k = Some t → recover_one m (k, t) !! k = Some (recovered t).
Proof.
  intros Hk. unfold recover_one, recovered. simpl.
  case_match; by rewrite updateOne_lookup, Hk.
Qed.

(** Step 2 rewrites the stuck tasks and no other. *)
Lemma lockTimeoutRecovery_lookup now m k :
  lockTimeoutRecovery now m !! k
  = (λ t, if is_stuck (now - LOCK_TIMEOUT_MS) t then recovered t else t)
      <$> m !! k.
Proof.
  unfold lockTimeoutRecovery.
  apply (independent_pass recover_one (λ _, recovered)
           (λ _ t, is_stuck (now - LOCK_TIMEOUT_MS) t)).
  - apply recover_one_frame.
  - apply recover_one_lookup.
Qed.

Lemma rescue_one_frame m kv k :
  k ≠ kv.1 → Orchestrator.rescue_one m kv !! k = m !! k.
Proof.
  intros Hne. unfold Orchestrator.rescue_one.
  case_match; by apply updateOne_lookup_ne.
Qed.

Lemma rescue_one_lookup m k t :
  m !! k = Some t →
  Orchestrator.rescue_one m (k, t) !! k = Some (Orchestrator.rescued t).
Proof.
  intros Hk. unfold Orchestrator.rescue_one, Orchestrator.rescued. simpl.
  case_match; by rewrite updateOne_lookup, Hk.
Qed.

Lemma rescueZombies_lookup now m k :
  Orchestrator.rescueZombies now m !! k
  = (λ t, if Orchestrator.is_zombie (now - 5 * 60 * 1000) t
          then Orchestrator.rescued t else t) <$> m !! k.
Proof.
  unfold Orchestrator.rescueZombies.
  apply (independent_pass Orchestrator.rescue_one (λ _, Orchestrator.rescued)
           (λ _ t, Orchestrator.is_zombie (now - 5 * 60 * 1000) t)).
  - apply rescue_one_frame.
  - apply rescue_one_lookup.
Qed.

Lemma update_one_workflow_frame tm ws kv k :
  k ≠ kv.1 → update_one_workflow tm ws kv !! k = ws !! k.
Proof.
  intros Hne. unfold update_one_workflow.
  repeat case_match; try done. by apply updateOne_lookup_ne.
Qed.

Lemma set_wf_status_id w : set_wf_status (wf_status w) w = w.
Proof. by destruct w. Qed.

Lemma update_one_workflow_lookup tm ws k w :
  ws !! k = Some w →
  update_one_workflow tm ws (k, w) !! k = Some (aggregated tm k w).
Proof.
  intros Hk. unfold update_one_workflow, aggregated. simpl.
  case_bool_decide; [done|].
  case_bool_decide as Hs.
  - by rewrite updateOne_lookup, Hk.
  - by rewrite Hs, set_wf_status_id.
Qed.

(** Step 3 rewrites the open workflows and no other. *)
Lemma workflowStatusUpdate_lookup tm ws k :
  workflowStatusUpdate tm ws !! k
  = (λ w, if is_open w then aggregated tm k w else w) <$> ws !! k.
Proof.
  unfold workflowStatusUpdate.
  apply (independent_pass (update_one_workflow tm) (aggregated tm)
           (λ _ w, is_open w)).
  - apply update_one_workflow_frame.
  - apply update_one_workflow_lookup.
Qed.

End pass_lookups.

Section resolution.
Import SimpleLoop.

Lemma resolved_status m t :
  resolved m t = t ∨
  status (resolved m t) = PENDING ∨ status (resolved m t) = FAILED.
Proof.
  unfold resolved. destruct (dependencies t) as [[|d ds]|]; simpl; auto.
  repeat case_match; simpl; auto.
Qed.

Lemma midway_refl m : midway m m.
Proof. intros j. by left. Qed.

Lemma midway_None m mi j : midway m mi → m !! j = None → mi !! j = None.
Proof.
  intros Hmid Hj. destruct (Hmid j) as [->|(t & t' & Hm & _)]; congruence.
Qed.

Lemma midway_not_blocked m mi j t :
  midway m mi → m !! j = Some t → status t ≠ BLOCKED → mi !! j = Some t.
Proof.
  intros Hmid Hj Hst. destruct (Hmid j) as [->|(t0 & t' & Hm & Hb & _)];
    [done|congruence].
Qed.

Lemma midway_completed m mi j t' :
  midway m mi → mi !! j = Some t' → status t' = COMPLETED → m !! j = Some t'.
Proof.
  intros Hmid Hj Hst. destruct (Hmid j) as [<-|(t0 & t1 & _ & _ & Hmi & Hs)];
    [done|]. rewrite Hj in Hmi. injection Hmi as <-. destruct Hs; congruence.
Qed.

Lemma midway_step m mi k t t' :
  midway m mi → m !! k = Some t → status t = BLOCKED →
  t' = t ∨ status t' = PENDING ∨ status t' = FAILED →
  ∀ mi' : TaskDocs, mi' !! k = Some t' → (∀ j, j ≠ k → mi' !! j = mi !! j) →
  midway m mi'.
Proof.
  intros Hmid Hk Hb Ht' mi' Hk' Hother j.
  destruct (decide (j = k)) as [->|Hne].
  - destruct Ht' as [->|Hs]; [left; congruence|].
    right. by exists t, t'.
  - rewrite Hother by done. apply Hmid.
Qed.

(** Step 1 leaves alone the tasks that are not BLOCKED, and runs its body
    once on every BLOCKED task, on the document as it was before the pass. *)
Lemma dependencyResolution_lookup m k :
  (m !! k = None → dependencyResolution m !! k = None) ∧
  (∀ t, m !! k = Some t → status t ≠ BLOCKED →
        dependencyResolution m !! k = Some t) ∧
  (∀ t, m !! k = Some t → status t = BLOCKED →
        ∃ mi, midway m mi ∧ mi !! k = Some t ∧
              dependencyResolution m !! k = Some (resolved mi t)).
Proof.
  unfold dependencyResolution.
  set (l := find (λ _ t, bool_decide (status t = BLOCKED)) m).
  destruct (snapshot_fold resolve_one (midway m) l m) as [_ Hlook].
  - apply resolve_one_frame.
  - apply NoDup_find.
  - intros k' v' Hin. by apply elem_of_find in Hin as [? _].
  - apply midway_refl.
  - intros mi k' v' Hmid Hin Hcur.
    apply elem_of_find in Hin as [Hm Hb]. apply bool_decide_eq_true in Hb.
    eapply (midway_step m mi k' v' (resolved mi v')); eauto.
    + apply resolved_status.
    + by apply resolve_one_lookup.
    + intros j Hne. by apply resolve_one_frame.
  - destruct (Hlook k) as [Hout Hin]. split; [|split].
    + intros Hk. rewrite Hout; [done|]. intros Hkin.
      apply find_keys in Hkin as (v & Hv & _). congruence.
    + intros t Hk Hst. rewrite Hout; [done|]. intros Hkin.
      apply find_keys in Hkin as (v & Hv & Hb).
      apply bool_decide_eq_true in Hb. congruence.
    + intros t Hk Hst.
      destruct (Hin t) as (mi & Hmid & Hmi & _ & Heq).
      { apply elem_of_find. split; [done|]. by apply bool_decide_eq_true. }
      exists mi. split; [done|]. split; [done|].
      rewrite Heq. by apply resolve_one_lookup.
Qed.

End resolution.

Section unblocking.
Import Orchestrator.

Lemma unblock_one_frame now m kv k :
  k ≠ kv.1 → unblock_one now m kv !! k = m !! k.
Proof.
  intros Hne. unfold unblock_one.
  repeat case_match; try done. by apply updateOne_lookup_ne.
Qed.

Lemma unblock_one_lookup now m k t :
  m !! k = Some t → unblock_one now m (k, t) !! k = Some (unblocked now m t).
Proof.
  intros Hk. unfold unblock_one, unblocked. simpl.
  repeat case_match; try done. by rewrite updateOne_lookup, Hk.
Qed.

Lemma unblocked_status now m t :
  unblocked now m t = t ∨ status (unblocked now m t) = PENDING.
Proof. unfold unblocked. repeat case_match; simpl; auto. Qed.

(** The loop of mission 1 is the fold of its body over the documents it
    reaches. *)
Lemma unblock_fold now l m :
  (unblock now l m).1 = foldl (unblock_one now) m (reached l).
Proof.
  revert m. induction l as [|[id task] l IH]; intros m; simpl; [done|].
  destruct (dependencies task) as [ds|] eqn:Hd; simpl; [|done].
  unfold unblock_one at 2. simpl. rewrite Hd.
  case_match; apply IH.
Qed.

Lemma unblock_completes now l m :
  (unblock now l m).2 = true → reached l = l.
Proof.
  revert m. induction l as [|[id task] l IH]; intros m; simpl; [done|].
  destruct (dependencies task) as [ds|]; simpl; [|done].
  case_match; intros Hok; f_equal; eauto.
Qed.

Lemma reached_sublist l : reached l `sublist_of` l.
Proof.
  induction l as [|kv l IH]; simpl; [done|].
  destruct (dependencies kv.2).
  - by apply sublist_skip.
  - apply sublist_nil_l.
Qed.

Lemma unblockTraffic_lookup now m k :
  (m !! k = None → (unblockTraffic now m).1 !! k = None) ∧
  (∀ t, m !! k = Some t → status t ≠ BLOCKED →
        (unblockTraffic now m).1 !! k = Some t) ∧
  (∀ t, m !! k = Some t → status t = BLOCKED →
        ((unblockTraffic now m).2 = false ∧
         (unblockTraffic now m).1 !! k = Some t) ∨
        ∃ mi, SimpleLoop.midway m mi ∧ mi !! k = Some t ∧
              (unblockTraffic now m).1 !! k = Some (unblocked now mi t)).
Proof.
  unfold unblockTraffic. rewrite unblock_fold.
  set (all := find (λ _ t, bool_decide (status t = BLOCKED)) m).
  set (l := reached all).
  assert (Hsub : l `sublist_of` all) by apply reached_sublist.
  assert (Hall : ∀ k v, (k, v) ∈ l → m !! k = Some v ∧ status v = BLOCKED).
  { intros k' v' Hin. eapply elem_of_sublist in Hin; [|done].
    apply elem_of_find in Hin as [? Hb]. by apply bool_decide_eq_true in Hb. }
  destruct (snapshot_fold (unblock_one now) (SimpleLoop.midway m) l m)
    as [_ Hlook].
  - apply unblock_one_frame.
  - apply (sublist_NoDup _ all.*1); [apply NoDup_find|by apply fmap_sublist].
  - intros k' v' Hin. by apply Hall.
  - apply midway_refl.
  - intros mi k' v' Hmid Hin Hcur. destruct (Hall _ _ Hin) as [Hm Hb].
    eapply (midway_step m mi k' v' (unblocked now mi v')); eauto.
    + destruct (unblocked_status now mi v') as [->|?]; auto.
    + by apply unblock_one_lookup.
    + intros j Hne. by apply unblock_one_frame.
  - destruct (Hlook k) as [Hout Hin]. split; [|split].
    + intros Hk. rewrite Hout; [done|]. intros Hkin.
      apply list_elem_of_fmap in Hkin as [[k' v] [-> Hkin]].
      apply Hall in Hkin as [? _]. simpl in *. congruence.
    + intros t Hk Hst. rewrite Hout; [done|]. intros Hkin.
      apply list_elem_of_fmap in Hkin as [[k' v] [-> Hkin]].
      apply Hall in Hkin as [? ?]. simpl in *. congruence.
    + intros t Hk Hst.
      destruct (decide (k ∈ l.*1)) as [Hkl|Hkl].
      * right. apply list_elem_of_fmap in Hkl as [[k' v] [-> Hkl]].
        destruct (Hall _ _ Hkl) as [Hv _]. simpl in *.
        rewrite Hk in Hv. injection Hv as <-.
        destruct (Hin t Hkl) as (mi & Hmid & Hmi & _ & Heq).
        exists mi. split; [done|]. split; [done|].
        rewrite Heq. by apply unblock_one_lookup.
      * left. split; [|by rewrite Hout].
        destruct (unblock now all m).2 eqn:Hok; [|done].
        apply unblock_completes in Hok. exfalso. apply Hkl.
        unfold l. rewrite Hok. apply list_elem_of_fmap. exists (k, t).
        split; [done|]. apply elem_of_find.
        split; [done|]. by apply bool_decide_eq_true.
Qed.

End unblocking.

(** ** The worker *)

Section worker.
Import PhoenixBaseWorker.

Lemma foldl_earlier_elem l b kv :
  foldl earlier b l = Some kv → b = Some kv ∨ kv ∈ l.
Proof.
  revert b. induction l as [|x l IH]; intros b; simpl; [by left|].
  intros Hf. apply IH in Hf as [Hf|Hf]; [|right; by right].
  unfold earlier in Hf. destruct b as [b0|].
  - case_match; injection Hf as <-; [right; by left|by left].
  - injection Hf as <-. right. by left.
Qed.

Lemma foldl_earlier_None l b : foldl earlier b l = None → b = None ∧ l = [].
Proof.
  revert b. induction l as [|x l IH]; intros b; simpl; [done|].
  intros Hf. apply IH in Hf as [Hf _].
  unfold earlier in Hf. destruct b; [case_match|]; done.
Qed.

Lemma foldl_earlier_least l b kv :
  foldl earlier b l = Some kv →
  (∀ x, b = Some x → created_at kv.2 ≤ created_at x.2) ∧
  (∀ x, x ∈ l → created_at kv.2 ≤ created_at x.2).
Proof.
  revert b. induction l as [|x l IH]; intros b; simpl.
  { intros ->. split; [|by intros ? ?%elem_of_nil].
    intros x [= ->]. lia. }
  intros Hf. apply IH in Hf as [Hb Hl]. split.
  - intros y ->. unfold earlier in Hb.
    destruct (created_at x.2 <? created_at y.2) eqn:Hlt.
    + apply Z.ltb_lt in Hlt. specialize (Hb x eq_refl). lia.
    + by apply Hb.
  - intros y Hy. apply elem_of_cons in Hy as [->|Hy]; [|by apply Hl].
    unfold earlier in Hb. destruct b as [b0|]; [|by apply Hb].
    destruct (created_at x.2 <? created_at b0.2) eqn:Hlt.
    + by apply Hb.
    + apply Z.ltb_ge in Hlt. specialize (Hb b0 eq_refl). lia.
Qed.

(** A claim that returns a task: the document matched the filter, the
    post-image is the document with the three fields set, and no matching
    document was created earlier. *)
Lemma claimTask_hit w now m m' id t' :
  claimTask w now m = (m', Some (id, t')) →
  ∃ t, m !! id = Some t ∧ claim_filter w t = true ∧
       t' = claim_update w now t ∧ m' = <[id := t']> m ∧
       ∀ k x, m !! k = Some x → claim_filter w x = true →
              created_at t ≤ created_at x.
Proof.
  unfold claimTask, first_by_created_at.
  destruct (foldl earlier None _) as [[id0 t0]|] eqn:Hf; [|done].
  intros [= <- <- <-].
  pose proof (foldl_earlier_elem _ _ _ Hf) as [?|Hin]; [done|].
  apply elem_of_find in Hin as [Hm Hflt].
  exists t0. repeat split; try done.
  intros k x Hk Hx. apply foldl_earlier_least in Hf as [_ Hl].
  apply (Hl (k, x)). by apply elem_of_find.
Qed.

(** A claim that returns [null]: no document matches, nothing is written. *)
Lemma claimTask_miss w now m m' :
  claimTask w now m = (m', None) →
  m' = m ∧ ∀ k x, m !! k = Some x → claim_filter w x = false.
Proof.
  unfold claimTask, first_by_created_at.
  destruct (foldl earlier None _) as [[id0 t0]|] eqn:Hf; [done|].
  intros [= <-]. split; [done|]. intros k x Hk.
  apply foldl_earlier_None in Hf as [_ Hnil].
  destruct (claim_filter w x) eqn:Hx; [|done].
  assert (Hin : (k, x) ∈ find (λ _ t, claim_filter w t) m)
    by by apply elem_of_find.
  rewrite Hnil in Hin. by apply elem_of_nil in Hin.
Qed.

Lemma claim_filter_spec w t :
  claim_filter w t = true ↔ status t = PENDING ∧ type t ∈ taskTypes w.
Proof.
  unfold claim_filter.
  rewrite andb_true_iff, !bool_decide_eq_true. done.
Qed.

(** The document that [executeTask] leaves for the task. *)
Lemma executeTask_lookup id task outcome now m :
  executeTask id task outcome now m !! id
  = match outcome with
    | inr result => complete_update result now
    | inl msg =>
        if newRetryCount task <=? maxRetries task
        then retry_update task msg
        else fail_update task msg now
    end <$> m !! id.
Proof.
  unfold executeTask, handleTaskFailure.
  destruct outcome; [case_match|]; by rewrite updateOne_lookup.
Qed.

Lemma executeTask_lookup_ne id task outcome now m k :
  k ≠ id → executeTask id task outcome now m !! k = m !! k.
Proof.
  intros Hne. unfold executeTask, handleTaskFailure.
  destruct outcome; [case_match|]; by rewrite updateOne_lookup_ne.
Qed.

Lemma claimTask_None_iff w now (m : TaskDocs) :
  (claimTask w now m).2 = None ↔
  ∀ k x, m !! k = Some x → claim_filter w x = false.
Proof.
  destruct (claimTask w now m) as [m' [[id t']|]] eqn:Hc; simpl.
  - split; [done|]. intros Hnone.
    apply claimTask_hit in Hc as (t & Hm & Hflt & _).
    rewrite (Hnone id t Hm) in Hflt. done.
  - split; [|done]. intros _. by apply claimTask_miss in Hc as [_ ?].
Qed.

Lemma claim_filter_false w t :
  claim_filter w t = false ↔ ¬ (status t = PENDING ∧ type t ∈ taskTypes w).
Proof.
  rewrite <- claim_filter_spec. by destruct (claim_filter w t).
Qed.

(** The claim of a worker for which exactly one task is eligible returns
    that task. *)
Lemma claimTask_only_eligible w now (m : TaskDocs) T t :
  m !! T = Some t → claim_filter w t = true →
  (∀ k x, m !! k = Some x → k ≠ T → claim_filter w x = false) →
  claimTask w now m
  = (<[T := claim_update w now t]> m, Some (T, claim_update w now t)).
Proof.
  intros HT Hflt Honly.
  destruct (claimTask w now m) as [m' [[id t']|]] eqn:Hc.
  - apply claimTask_hit in Hc as (t0 & Hm & Hflt0 & -> & -> & _).
    destruct (decide (id = T)) as [->|Hne].
    + rewrite HT in Hm. by injection Hm as <-.
    + rewrite (Honly id t0 Hm Hne) in Hflt0. done.
  - apply claimTask_miss in Hc as [_ Hnone].
    rewrite (Hnone T t HT) in Hflt. done.
Qed.

End worker.

(** ** The steps of the system *)

Section system.
Import System.

Lemma is_stuck_spec thr t :
  SimpleLoop.is_stuck thr t = true ↔
  status t = IN_PROGRESS ∧ ∃ l, locked_at t = Some l ∧ l < thr.
Proof.
  unfold SimpleLoop.is_stuck.
  rewrite andb_true_iff, bool_decide_eq_true.
  destruct (locked_at t) as [l|].
  - rewrite Z.ltb_lt. split.
    + intros [? ?]. eauto.
    + intros [? (l' & [= <-] & ?)]. done.
  - split; [by intros [_ ?]|]. by intros [_ (l' & ? & _)].
Qed.

Lemma is_zombie_spec thr t :
  Orchestrator.is_zombie thr t = true ↔
  status t = IN_PROGRESS ∧ ∃ l, locked_at t = Some l ∧ l < thr.
Proof. apply is_stuck_spec. Qed.

(** A step changes one document in one of the ways of [changed], or inserts
    one; it deletes none. *)
Lemma step_changed s l s' k :
  step s l s' →
  match tasks s !! k, tasks s' !! k with
  | Some t, Some t' => changed s l k t t'
  | None, Some t' => l = Inserted k ∧ (status t' = BLOCKED ∨ status t' = PENDING)
  | Some _, None => False
  | None, None => True
  end.
Proof.
  destruct 1 as [s w now m' id t Hc|s w now m' Hc|s l1 l2 id t outcome now Hr
                |s l1 l2 id t Hr|s id t Hfree Hst|s|s now|s now|s now]; simpl.
  - apply claimTask_hit in Hc
      as (t0 & Hm & Hflt & -> & -> & _).
    apply claim_filter_spec in Hflt as [Hp Hty].
    destruct (decide (k = id)) as [->|Hne].
    + rewrite Hm, lookup_insert_eq. right; left. by exists w, now.
    + rewrite lookup_insert_ne by done.
      destruct (tasks s !! k); [by left|done].
  - apply claimTask_miss in Hc as [-> _].
    destruct (tasks s !! k); [by left|done].
  - destruct (decide (k = id)) as [->|Hne].
    + rewrite executeTask_lookup.
      destruct (tasks s !! id) as [t0|]; simpl; [|done].
      right; right; left. exists outcome, t. split; [done|].
      split; [rewrite Hr; apply elem_of_app; right; by left|].
      destruct outcome; [case_match|]; simpl; auto.
    + rewrite executeTask_lookup_ne by done.
      destruct (tasks s !! k); [by left|done].
  - destruct (tasks s !! k); [by left|done].
  - destruct (decide (k = id)) as [->|Hne].
    + by rewrite Hfree, lookup_insert_eq.
    + rewrite lookup_insert_ne by done.
      destruct (tasks s !! k); [by left|done].
  - destruct (dependencyResolution_lookup (tasks s) k) as (Hn & Hnb & Hb).
    destruct (tasks s !! k) as [t|] eqn:Hk; [|by rewrite Hn].
    destruct (decide (status t = BLOCKED)) as [Hst|Hst].
    + destruct (Hb t eq_refl Hst) as (mi & _ & _ & ->).
      destruct (resolved_status mi t) as [->|Hs]; [by left|].
      do 3 right; left. done.
    + rewrite (Hnb t eq_refl Hst). by left.
  - rewrite lockTimeoutRecovery_lookup.
    destruct (tasks s !! k) as [t|]; simpl; [|done].
    destruct (SimpleLoop.is_stuck _ t) eqn:Hstuck; [|by left].
    apply is_stuck_spec in Hstuck as [Hst _].
    do 4 right; left. split; [by left|]. split; [done|].
    unfold SimpleLoop.recovered. case_match; simpl; auto.
  - destruct (unblockTraffic_lookup now (tasks s) k) as (Hn & Hnb & Hb).
    destruct (tasks s !! k) as [t|] eqn:Hk; [|by rewrite Hn].
    destruct (decide (status t = BLOCKED)) as [Hst|Hst].
    + destruct (Hb t eq_refl Hst) as [[_ ->]|(mi & _ & _ & ->)]; [by left|].
      unfold Orchestrator.unblocked. repeat case_match; try by left.
      do 5 right. done.
    + rewrite (Hnb t eq_refl Hst). by left.
  - rewrite rescueZombies_lookup.
    destruct (tasks s !! k) as [t|]; simpl; [|done].
    destruct (Orchestrator.is_zombie _ t) eqn:Hz; [|by left].
    apply is_zombie_spec in Hz as [Hst _].
    do 4 right; left. split; [by right|]. split; [done|].
    unfold Orchestrator.rescued. case_match; simpl; auto.
Qed.

(** A task enters the handlers through a claim and in no other way. *)
Lemma step_running s l s' id c :
  step s l s' → (id, c) ∈ running s' →
  (id, c) ∈ running s ∨ ∃ w, l = Claimed w id.
Proof.
  destruct 1; simpl; intros Hin; auto.
  - apply elem_of_cons in Hin as [[= -> ->]|Hin]; eauto.
  - left. rewrite H. apply elem_of_app in Hin as [Hin|Hin];
      apply elem_of_app; [by left|right; by right].
  - left. rewrite H. apply elem_of_app in Hin as [Hin|Hin];
      apply elem_of_app; [by left|right; by right].
Qed.

(** A document that is not BLOCKED does not become BLOCKED, nor vanish. *)
Lemma step_not_blocked s l s' k t :
  step s l s' → tasks s !! k = Some t → status t ≠ BLOCKED →
  ∃ t', tasks s' !! k = Some t' ∧ status t' ≠ BLOCKED.
Proof.
  intros Hstep Hk Hst. pose proof (step_changed s l s' k Hstep) as Hch.
  rewrite Hk in Hch. destruct (tasks s' !! k) as [t'|]; [|done].
  exists t'. split; [done|]. intros Hb'.
  destruct Hch as [->|[(w & now & _ & _ & _ & ->)|[(o & c & _ & _ & _ & Hs)
                  |[(_ & Hb & _)|[(_ & _ & _ & Hs)|(_ & Hb & _)]]]]].
  - done.
  - done.
  - rewrite Hb' in Hs. by destruct Hs as [?|[?|?]].
  - done.
  - rewrite Hb' in Hs. by destruct Hs.
  - done.
Qed.

Lemma exec_not_blocked s tr s' k t :
  exec s tr s' → tasks s !! k = Some t → status t ≠ BLOCKED →
  ∃ t', tasks s' !! k = Some t' ∧ status t' ≠ BLOCKED.
Proof.
  intros Hex. revert t. induction Hex as [s|s l s1 tr s2 Hstep Hex IH];
    intros t Hk Hst; [eauto|].
  destruct (step_not_blocked _ _ _ _ _ Hstep Hk Hst) as (t1 & Hk1 & Hst1).
  eauto.
Qed.

Lemma step_claimed_inv s w id s' :
  step s (Claimed w id) s' →
  ∃ now t, PhoenixBaseWorker.claimTask w now (tasks s) = (tasks s', Some (id, t)) ∧
           running s' = (id, t) :: running s.
Proof. inversion 1; subst. eauto. Qed.

Lemma step_running_sound s l s' :
  step s l s' → running_sound s → running_sound s'.
Proof.
  intros Hstep Hinv id c Hin.
  destruct (step_running _ _ _ _ _ Hstep Hin) as [Hold|[w ->]].
  - destruct (Hinv id c Hold) as (t & Hk & Hst).
    eapply step_not_blocked; eauto.
  - apply step_claimed_inv in Hstep as (now & t & Hc & _).
    apply claimTask_hit in Hc as (t0 & Hm & Hflt & -> & -> & _).
    rewrite lookup_insert_eq. eexists. split; [done|]. done.
Qed.

Lemma exec_running_sound s tr s' :
  exec s tr s' → running_sound s → running_sound s'.
Proof.
  induction 1; [done|]. intros Hinv. eauto using step_running_sound.
Qed.

(** A task that is IN_PROGRESS is not returned by a claim, and stays
    IN_PROGRESS through the claims of others. *)
Lemma claims_skip_in_progress cs m id t :
  m !! id = Some t → status t = IN_PROGRESS → id ∉ winners (claims cs m).2.
Proof.
  revert m t. induction cs as [|[w now] cs IH]; intros m t Hid Hst; simpl.
  { unfold winners. simpl. apply not_elem_of_nil. }
  destruct (PhoenixBaseWorker.claimTask w now m) as [m' [[id' t']|]] eqn:Hc;
    unfold winners; simpl; fold (winners (claims cs m').2).
  - apply claimTask_hit in Hc as (t0 & Hm & Hflt & -> & -> & _).
    apply claim_filter_spec in Hflt as [Hp _].
    assert (id ≠ id') by (intros ->; congruence).
    apply not_elem_of_cons. split; [done|].
    apply (IH _ t); [|done]. by rewrite lookup_insert_ne.
  - apply claimTask_miss in Hc as [-> _]. by apply (IH _ t).
Qed.

Lemma claims_winners_NoDup cs m : NoDup (winners (claims cs m).2).
Proof.
  revert m. induction cs as [|[w now] cs IH]; intros m; simpl.
  { unfold winners. simpl. constructor. }
  destruct (PhoenixBaseWorker.claimTask w now m) as [m' [[id' t']|]] eqn:Hc;
    unfold winners; simpl; fold (winners (claims cs m').2); [|apply IH].
  apply NoDup_cons. split; [|apply IH].
  apply claimTask_hit in Hc as (t0 & Hm & Hflt & -> & -> & _).
  apply (claims_skip_in_progress cs _ id' (PhoenixBaseWorker.claim_update w now t0));
    [by rewrite lookup_insert_eq|done].
Qed.

End system.

(** A race for a collection in which no task is PENDING: every claim
    returns [null] and nothing is written. *)
Lemma claims_nothing_pending cs (m : TaskDocs) :
  (∀ k x, m !! k = Some x → status x ≠ PENDING) →
  System.claims cs m = (m, replicate (length cs) None).
Proof.
  intros Hnone. induction cs as [|[w now] cs IH]; simpl; [done|].
  destruct (PhoenixBaseWorker.claimTask w now m) as [m' [[id t']|]] eqn:Hc.
  - apply claimTask_hit in Hc as (t & Hm & Hflt & _).
    apply claim_filter_spec in Hflt as [Hp _]. by destruct (Hnone id t Hm).
  - apply claimTask_miss in Hc as [-> _]. simpl. by rewrite IH.
Qed.

(** A race for one task: the first claim wins it, the others get [null]. *)
Lemma claims_one_task w now cs (m : TaskDocs) T t :
  m !! T = Some t → status t = PENDING → type t ∈ taskTypes w →
  (∀ k x, m !! k = Some x → k ≠ T → status x ≠ PENDING) →
  System.claims ((w, now) :: cs) m
  = (<[T := PhoenixBaseWorker.claim_update w now t]> m,
     Some (T, PhoenixBaseWorker.claim_update w now t)
     :: replicate (length cs) None).
Proof.
  intros HT Hp Hty Honly. simpl.
  rewrite (claimTask_only_eligible w now m T t HT).
  - simpl. rewrite claims_nothing_pending; [done|].
    intros k x Hk. destruct (decide (k = T)) as [->|Hne].
    + rewrite lookup_insert_eq in Hk. by injection Hk as <-.
    + rewrite lookup_insert_ne in Hk by done. eauto.
  - apply claim_filter_spec. by split.
  - intros k x Hk Hne. apply claim_filter_false. intros [Hx _].
    by destruct (Honly k x Hk Hne).
Qed.

(** * The claims *)

(** C1.  A claim is one atomic find-one-and-update.  It returns a task only
    if the document was PENDING with a type among the worker's task types;
    the post-image is that document with [status = IN_PROGRESS],
    [worker_lock] the worker's id and [locked_at] the time of the claim, and
    it is what the collection then holds.  A claim returns a task whenever
    a document is PENDING with a type among the worker's task types.  Of
    claims that race for the collection, executed in any order, no two
    return the same task; when they race for the one task that is PENDING,
    the first of them wins it and every other returns [null].  No step of
    any process but a claim of a PENDING task makes a task IN_PROGRESS. *)
Theorem C1_claim_is_atomic_and_exclusive :
  (∀ w now m m' id t',
      PhoenixBaseWorker.claimTask w now m = (m', Some (id, t')) →
      ∃ t, m !! id = Some t ∧ status t = PENDING ∧ type t ∈ taskTypes w ∧
           t' = PhoenixBaseWorker.claim_update w now t ∧
           status t' = IN_PROGRESS ∧ worker_lock t' = Some (workerId w) ∧
           locked_at t' = Some now ∧
           m' !! id = Some t' ∧ ∀ k, k ≠ id → m' !! k = m !! k) ∧
  (∀ w now m k x,
      m !! k = Some x → status x = PENDING → type x ∈ taskTypes w →
      ∃ id t', (PhoenixBaseWorker.claimTask w now m).2 = Some (id, t') ∧
               (PhoenixBaseWorker.claimTask w now m).1 !! id = Some t' ∧
               status t' = IN_PROGRESS ∧
               worker_lock t' = Some (workerId w) ∧
               locked_at t' = Some now) ∧
  (∀ cs m, NoDup (System.winners (System.claims cs m).2)) ∧
  (∀ w now cs m T t,
      m !! T = Some t → status t = PENDING → type t ∈ taskTypes w →
      (∀ k x, m !! k = Some x → k ≠ T → status x ≠ PENDING) →
      (System.claims ((w, now) :: cs) m).2
      = Some (T, PhoenixBaseWorker.claim_update w now t)
        :: replicate (length cs) None) ∧
  (∀ s l s' id t',
      System.step s l s' →
      System.tasks s' !! id = Some t' → status t' = IN_PROGRESS →
      (∃ t, System.tasks s !! id = Some t ∧ status t = IN_PROGRESS) ∨
      (∃ w t, l = System.Claimed w id ∧
              System.tasks s !! id = Some t ∧ status t = PENDING)).
Proof.
  split; [|split; [|split; [|split]]].
  - intros w now m m' id t' Hc.
    apply claimTask_hit in Hc as (t & Hm & Hflt & -> & -> & _).
    apply claim_filter_spec in Hflt as [Hp Hty].
    exists t. repeat split; try done.
    + apply lookup_insert_eq.
    + intros k Hne. by apply lookup_insert_ne.
  - intros w now m k x Hk Hp Hty.
    destruct (PhoenixBaseWorker.claimTask w now m) as [m' [[id t']|]] eqn:Hc.
    + apply claimTask_hit in Hc as (t & Hm & Hflt & -> & -> & _).
      exists id, (PhoenixBaseWorker.claim_update w now t). simpl.
      split; [reflexivity|]. split; [apply lookup_insert_eq|].
      repeat split; reflexivity.
    + apply claimTask_miss in Hc as [_ Hnone].
      assert (Hflt : PhoenixBaseWorker.claim_filter w x = true)
        by (apply claim_filter_spec; by split).
      rewrite (Hnone k x Hk) in Hflt. discriminate.
  - apply claims_winners_NoDup.
  - intros w now cs m T t HT Hp Hty Honly.
    by rewrite (claims_one_task w now cs m T t HT Hp Hty Honly).
  - intros s l s' id t' Hstep Hid Hst.
    pose proof (step_changed s l s' id Hstep) as Hch. rewrite Hid in Hch.
    destruct (System.tasks s !! id) as [t|].
    + destruct Hch as [->|[(w & now & -> & Hp & _ & ->)
                      |[(o & c & _ & _ & _ & Hs)|[(_ & _ & Hs)
                      |[(_ & _ & _ & Hs)|(_ & _ & Hs & _)]]]]].
      * left. eauto.
      * right. eauto.
      * rewrite Hst in Hs. by destruct Hs as [?|[?|?]].
      * rewrite Hst in Hs. by destruct Hs.
      * rewrite Hst in Hs. by destruct Hs.
      * congruence.
    + destruct Hch as [_ Hs]. rewrite Hst in Hs. by destruct Hs.
Qed.

Lemma C1_witness :
  (∃ t, Examples.two_pending !! "A" = Some t ∧ status t = PENDING ∧
        type t ∈ taskTypes Examples.searcher) ∧
  (∃ id t', (PhoenixBaseWorker.claimTask Examples.searcher 5
               Examples.two_pending).2 = Some (id, t') ∧
            status t' = IN_PROGRESS).
Proof.
  destruct C1_claim_is_atomic_and_exclusive as (Hclaim & Hlive & _).
  split.
  - destruct (Hclaim Examples.searcher 5 Examples.two_pending
                (PhoenixBaseWorker.claimTask Examples.searcher 5
                   Examples.two_pending).1
                "A"
                (PhoenixBaseWorker.claim_update Examples.searcher 5
                   (Examples.task PENDING [] 1)))
      as (t & Ht & Hp & Hty & _).
    + vm_compute. reflexivity.
    + exists t. auto.
  - destruct (Hlive Examples.searcher 5 Examples.two_pending "B"
                (Examples.task PENDING [] 2))
      as (id & t' & Hret & _ & Hst & _).
    + reflexivity.
    + reflexivity.
    + vm_compute. apply list_elem_of_singleton. reflexivity.
    + exists id, t'. auto.
Defined.

(** ** Retries *)

Lemma js_or_zero x : js_or x 0 = default 0 x.
Proof. destruct x as [n|]; simpl; [|done]. destruct (Z.eqb_spec n 0); lia. Qed.

Lemma js_or_falsy x d : x = None ∨ x = Some 0 → js_or x d = d.
Proof. by intros [->| ->]. Qed.

Lemma js_or_number n d : n ≠ 0 → js_or (Some n) d = n.
Proof. intros Hn. simpl. by destruct (Z.eqb_spec n 0). Qed.

(** C2, as the code has it.  In a tick of [orchestratorLoop], a task that is
    IN_PROGRESS with [locked_at] before [now] minus five minutes is
    reclaimed under the limit [max_retries || 3]: with retries left it is
    PENDING again with [retry_count] one higher and the lock cleared; with
    none left it is FAILED with the lock cleared and [last_error] the text
    "Lock timeout after max retries". *)
Theorem C2_lease_reclamation now m ws id t l :
  m !! id = Some t → status t = IN_PROGRESS →
  locked_at t = Some l → l < now - 5 * 60 * 1000 →
  ∃ t', (SimpleLoop.orchestratorLoop now (m, ws)).1 !! id = Some t' ∧
        let r := js_or (retry_count t) 0 + 1 in
        let mx := js_or (max_retries t) 3 in
        (r ≤ mx →
           status t' = PENDING ∧ retry_count t' = Some r ∧
           worker_lock t' = None ∧ locked_at t' = None) ∧
        (mx < r →
           status t' = FAILED ∧ worker_lock t' = None ∧ locked_at t' = None ∧
           last_error t' = Some "Lock timeout after max retries").
Proof.
  intros Hid Hst Hl Hlt. unfold SimpleLoop.orchestratorLoop. simpl.
  rewrite lockTimeoutRecovery_lookup.
  destruct (dependencyResolution_lookup m id) as (_ & Hnb & _).
  rewrite (Hnb t Hid) by congruence. simpl.
  assert (Hstuck : SimpleLoop.is_stuck (now - SimpleLoop.LOCK_TIMEOUT_MS) t = true).
  { apply is_stuck_spec. split; [done|]. exists l. split; [done|].
    unfold SimpleLoop.LOCK_TIMEOUT_MS. lia. }
  rewrite Hstuck. eexists. split; [done|].
  unfold SimpleLoop.recovered, SimpleLoop.newRetryCount, SimpleLoop.maxRetries.
  split; intros Hr.
  - apply Z.leb_le in Hr. rewrite Hr. done.
  - apply Z.leb_gt in Hr. rewrite Hr. done.
Qed.

Lemma C2_witness :
  ∃ t', (SimpleLoop.orchestratorLoop Examples.six_minutes
           (Examples.stuck_tasks, ∅)).1 !! "A" = Some t' ∧
        status t' = PENDING ∧ retry_count t' = Some 1.
Proof.
  destruct (C2_lease_reclamation Examples.six_minutes Examples.stuck_tasks ∅
              "A" (Examples.stuck 0) 0) as (t' & Ht' & Hretry & _).
  - reflexivity.
  - reflexivity.
  - reflexivity.
  - vm_compute. reflexivity.
  - exists t'. split; [done|].
    destruct Hretry as (? & ? & _); [vm_compute; discriminate|]. done.
Defined.

(** The code against C2 as stated: after the pass "A", which had retries
    left, has no [last_error] at all, and "Z", which had none, has a
    [last_error] that is not "lock timeout". *)
Lemma C2_counterexample :
  ∃ a z, SimpleLoop.lockTimeoutRecovery Examples.six_minutes
           Examples.stuck_tasks !! "A" = Some a ∧
         SimpleLoop.lockTimeoutRecovery Examples.six_minutes
           Examples.stuck_tasks !! "Z" = Some z ∧
         last_error a = None ∧
         last_error z = Some "Lock timeout after max retries" ∧
         ¬ Stated.lease_reclaimed (Examples.stuck 0) a ∧
         ¬ Stated.lease_reclaimed (Examples.stuck 3) z.
Proof.
  eexists _, _. split; [vm_compute; reflexivity|].
  split; [vm_compute; reflexivity|].
  split; [reflexivity|]. split; [reflexivity|]. split.
  - intros H. destruct (H 0 3 eq_refl eq_refl) as [Hr _].
    destruct Hr as (_ & _ & _ & _ & He); [lia|]. discriminate He.
  - intros H. destruct (H 3 3 eq_refl eq_refl) as [_ Hf].
    destruct Hf as (_ & _ & _ & He); [lia|]. discriminate He.
Qed.

(** The second orchestrator script differs on a task without retries left:
    it writes the status and nothing else, so the lock stays. *)
Lemma rescueZombies_keeps_lock now m id t :
  m !! id = Some t → Orchestrator.is_zombie (now - 5 * 60 * 1000) t = true →
  Orchestrator.may_retry t = false →
  Orchestrator.rescueZombies now m !! id = Some (set_status FAILED t).
Proof.
  intros Hid Hz Hr. rewrite rescueZombies_lookup, Hid. simpl.
  rewrite Hz. unfold Orchestrator.rescued. by rewrite Hr.
Qed.

(** The document that a handler failure leaves. *)
Lemma executeTask_failure id task msg now m t :
  m !! id = Some t →
  let r := default 0 (retry_count task) + 1 in
  let mx := js_or (max_retries task) 3 in
  ∃ t', PhoenixBaseWorker.executeTask id task (inl msg) now m !! id = Some t' ∧
        (r ≤ mx →
           status t' = PENDING ∧ worker_lock t' = None ∧ locked_at t' = None ∧
           retry_count t' = Some r ∧ last_error t' = Some msg ∧
           ∀ w, type t ∈ taskTypes w →
                PhoenixBaseWorker.claim_filter w t' = true) ∧
        (mx < r →
           status t' = FAILED ∧ worker_lock t' = None ∧ locked_at t' = None ∧
           retry_count t' = Some r ∧ last_error t' = Some msg ∧
           failed_at t' = Some now).
Proof.
  intros Hid r mx. subst r mx. rewrite executeTask_lookup, Hid. simpl.
  unfold PhoenixBaseWorker.newRetryCount, PhoenixBaseWorker.maxRetries.
  rewrite js_or_zero. eexists. split; [done|]. split; intros Hr.
  - apply Z.leb_le in Hr. rewrite Hr. simpl.
    unfold PhoenixBaseWorker.newRetryCount. rewrite js_or_zero.
    repeat split; try done.
    intros w Hty. by apply claim_filter_spec.
  - apply Z.leb_gt in Hr. rewrite Hr. simpl.
    unfold PhoenixBaseWorker.newRetryCount. by rewrite js_or_zero.
Qed.


(** C3, as the code has it.  When the handler of the claimed task [task]
    raises an error with message [msg], [r] is [retry_count + 1] (an absent
    count is 0) and the limit is [max_retries || 3]: [max_retries] when that
    is a number other than 0, and 3 otherwise.  If [r] is within the limit
    the task is PENDING, unlocked, with [retry_count = r] and
    [last_error = msg], and a worker of its type can claim it again;
    otherwise it is FAILED, unlocked, with [retry_count = r],
    [last_error = msg] and [failed_at = now]. *)
Theorem C3_handler_failure id task msg now m t :
  m !! id = Some t →
  let r := default 0 (retry_count task) + 1 in
  let mx := js_or (max_retries task) 3 in
  ∃ t', PhoenixBaseWorker.executeTask id task (inl msg) now m !! id = Some t' ∧
        (r ≤ mx →
           status t' = PENDING ∧ worker_lock t' = None ∧ locked_at t' = None ∧
           retry_count t' = Some r ∧ last_error t' = Some msg ∧
           ∀ w, type t ∈ taskTypes w →
                PhoenixBaseWorker.claim_filter w t' = true) ∧
        (mx < r →
           status t' = FAILED ∧ worker_lock t' = None ∧ locked_at t' = None ∧
           retry_count t' = Some r ∧ last_error t' = Some msg ∧
           failed_at t' = Some now).
Proof. apply executeTask_failure. Qed.

Lemma C3_witness :
  ∃ t', PhoenixBaseWorker.executeTask "Z" (Examples.stuck 3) (inl "boom") 7
          Examples.stuck_tasks !! "Z" = Some t' ∧
        status t' = FAILED ∧ retry_count t' = Some 4 ∧
        last_error t' = Some "boom" ∧ failed_at t' = Some 7.
Proof.
  destruct (C3_handler_failure "Z" (Examples.stuck 3) "boom" 7
              Examples.stuck_tasks (Examples.stuck 3)) as (t' & Ht' & _ & Hf).
  - reflexivity.
  - exists t'. split; [done|].
    destruct Hf as (? & _ & _ & ? & ? & ?); [vm_compute; reflexivity|]. done.
Defined.

(** The code against C3 as stated: with [max_retries = 0] the first failure
    gives [r = 1 > 0], yet the task is PENDING again. *)
Lemma C3_counterexample :
  ∃ t', PhoenixBaseWorker.handleTaskFailure "T" Examples.no_retries "boom" 9
          {["T" := Examples.no_retries]} !! "T" = Some t' ∧
        status t' = PENDING ∧
        ¬ Stated.handler_failed Examples.no_retries "boom" 9 t'.
Proof.
  eexists. split; [vm_compute; reflexivity|]. split; [reflexivity|].
  intros H. destruct (H 0 0 eq_refl eq_refl) as [_ Hf].
  destruct Hf as (Hs & _); [lia|]. discriminate Hs.
Qed.

(** C10.  A task whose [max_retries] is 0, null or absent has the limit 3,
    in the worker's failure handler and in the lock timeout recovery of
    simpleLoop.js alike: on its first failure it is PENDING again with
    [retry_count = 1]. *)
Theorem C10_falsy_max_retries_is_three task :
  max_retries task = None ∨ max_retries task = Some 0 →
  PhoenixBaseWorker.maxRetries task = 3 ∧
  SimpleLoop.maxRetries task = 3 ∧
  (retry_count task = None ∨ retry_count task = Some 0 →
   (∀ id msg now m t, m !! id = Some t →
      ∃ t', PhoenixBaseWorker.handleTaskFailure id task msg now m !! id = Some t' ∧
            status t' = PENDING ∧ retry_count t' = Some 1) ∧
   (∀ id m t, m !! id = Some t →
      ∃ t', SimpleLoop.recover_one m (id, task) !! id = Some t' ∧
            status t' = PENDING ∧ retry_count t' = Some 1)).
Proof.
  intros Hmax.
  assert (Hw : PhoenixBaseWorker.maxRetries task = 3) by by apply js_or_falsy.
  assert (Hs : SimpleLoop.maxRetries task = 3) by by apply js_or_falsy.
  split; [done|]. split; [done|]. intros Hcount.
  assert (Hr : js_or (retry_count task) 0 = 0) by by apply js_or_falsy.
  split.
  - intros id msg now m t Hid.
    unfold PhoenixBaseWorker.handleTaskFailure.
    unfold PhoenixBaseWorker.newRetryCount at 1. rewrite Hw, Hr. simpl.
    rewrite updateOne_lookup, Hid. simpl. eexists. split; [done|]. simpl.
    unfold PhoenixBaseWorker.newRetryCount. by rewrite Hr.
  - intros id m t Hid. unfold SimpleLoop.recover_one. simpl.
    unfold SimpleLoop.newRetryCount at 1. rewrite Hs, Hr. simpl.
    rewrite updateOne_lookup, Hid. simpl. eexists. split; [done|]. simpl.
    unfold SimpleLoop.newRetryCount. by rewrite Hr.
Qed.

Lemma C10_witness :
  PhoenixBaseWorker.maxRetries Examples.no_retries = 3 ∧
  ∃ t', PhoenixBaseWorker.handleTaskFailure "T" Examples.no_retries "boom" 9
          {["T" := Examples.no_retries]} !! "T" = Some t' ∧
        status t' = PENDING ∧ retry_count t' = Some 1.
Proof.
  destruct (C10_falsy_max_retries_is_three Examples.no_retries)
    as (Hw & _ & Hfirst); [right; reflexivity|].
  split; [done|].
  destruct Hfirst as [Hfail _]; [right; reflexivity|].
  apply (Hfail "T" "boom" 9 {["T" := Examples.no_retries]} Examples.no_retries).
  reflexivity.
Defined.

(** ** Dependencies *)

Section dependencies.
Import SimpleLoop System.

Lemma elem_of_find_deps ds (m : TaskDocs) d td :
  (d, td) ∈ find_deps ds m ↔ m !! d = Some td ∧ d ∈ ds.
Proof.
  unfold find_deps. rewrite elem_of_find, bool_decide_eq_true. done.
Qed.

(** [deps.every(d => d.status === 'COMPLETED')] ranges over the documents
    that the query found. *)
Lemma allDepsCompleted_spec ds (m : TaskDocs) :
  allDepsCompleted (find_deps ds m) = true ↔
  ∀ d td, d ∈ ds → m !! d = Some td → status td = COMPLETED.
Proof.
  unfold allDepsCompleted. rewrite bool_decide_eq_true, Forall_forall. split.
  - intros H d td Hd Hm. apply (H (d, td)). by apply elem_of_find_deps.
  - intros H [d td] Hin. apply elem_of_find_deps in Hin as [Hm Hd]. eauto.
Qed.

Lemma anyDepFailed_spec ds (m : TaskDocs) :
  anyDepFailed (find_deps ds m) = true ↔
  ∃ d td, d ∈ ds ∧ m !! d = Some td ∧ status td = FAILED.
Proof.
  unfold anyDepFailed. rewrite bool_decide_eq_true, Exists_exists. split.
  - intros ([d td] & Hin & Hst). apply elem_of_find_deps in Hin as [Hm Hd].
    eauto.
  - intros (d & td & Hd & Hm & Hst). exists (d, td).
    split; [by apply elem_of_find_deps|done].
Qed.

(** The body of step 1 on a task one of whose dependencies has failed. *)
Lemma resolved_dep_failed m t ds D d :
  dependencies t = Some ds → D ∈ ds → m !! D = Some d → status d = FAILED →
  resolved m t = dep_failed_update t.
Proof.
  intros Hds HD Hm Hst. unfold resolved. rewrite Hds.
  destruct ds as [|d0 ds']; [by apply elem_of_nil in HD|].
  destruct (allDepsCompleted _) eqn:Hall.
  - rewrite allDepsCompleted_spec in Hall.
    specialize (Hall D d HD Hm). congruence.
  - destruct (anyDepFailed _) eqn:Hany; [done|].
    assert (anyDepFailed (find_deps (d0 :: ds') m) = true) as Hyes
      by (apply anyDepFailed_spec; eauto).
    congruence.
Qed.

(** A task that is BLOCKED was BLOCKED or absent all along: none of the
    steps so far was a claim of it. *)
Lemma exec_blocked_not_invoked s0 tr s T t :
  exec s0 tr s → tasks s !! T = Some t → status t = BLOCKED →
  ¬ invoked T tr.
Proof.
  induction 1 as [s|s0 l s1 tr s Hstep Hex IH]; intros HT Hb [w Hin].
  { by apply elem_of_nil in Hin. }
  apply elem_of_cons in Hin as [<-|Hin]; [|apply IH; [done|done|by exists w]].
  apply step_claimed_inv in Hstep as (now & c & Hc & _).
  apply claimTask_hit in Hc as (t0 & _ & _ & -> & Hm' & _).
  destruct (exec_not_blocked _ _ _ T (PhoenixBaseWorker.claim_update w now t0) Hex)
    as (t' & Ht' & Hnb); [by rewrite Hm', lookup_insert_eq|done|].
  congruence.
Qed.

(** A task that has failed with no worker in its handler stays so, and the
    step is not a claim of it. *)
Lemma step_failed_for_good s l s' T :
  step s l s' → failed_for_good T s →
  failed_for_good T s' ∧ ∀ w, l ≠ Claimed w T.
Proof.
  intros Hstep [(t & HT & Hf) Hrun].
  assert (Hnot : ∀ w, l ≠ Claimed w T).
  { intros w ->. apply step_claimed_inv in Hstep as (now & c & Hc & _).
    apply claimTask_hit in Hc as (t0 & Hm & Hflt & _).
    apply claim_filter_spec in Hflt as [Hp _]. congruence. }
  split; [|done]. split.
  - pose proof (step_changed s l s' T Hstep) as Hch. rewrite HT in Hch.
    destruct (tasks s' !! T) as [t'|]; [|done]. exists t'. split; [done|].
    destruct Hch as [->|[(w & now & _ & Hp & _)|[(o & c & _ & Hin & _)
                    |[(_ & Hb & _)|[(_ & Hb & _)|(_ & Hb & _)]]]]];
      try congruence.
    exfalso. apply Hrun. apply list_elem_of_fmap. by exists (T, c).
  - intros Hin. apply list_elem_of_fmap in Hin as [[k c] [-> Hin]].
    destruct (step_running _ _ _ _ _ Hstep Hin) as [Hold|[w ->]].
    + apply Hrun. apply list_elem_of_fmap. by exists (k, c).
    + by apply (Hnot w).
Qed.

Lemma exec_failed_for_good s tr s' T :
  exec s tr s' → failed_for_good T s → ¬ invoked T tr.
Proof.
  induction 1 as [s|s l s1 tr s2 Hstep Hex IH]; intros Hf [w Hin].
  { by apply elem_of_nil in Hin. }
  destruct (step_failed_for_good _ _ _ _ Hstep Hf) as [Hf1 Hnot].
  apply elem_of_cons in Hin as [Heq|Hin]; [by apply (Hnot w)|].
  apply IH; [done|by exists w].
Qed.

End dependencies.

(** C4, as the code has it.  When a BLOCKED task has a dependency that is
    FAILED, the dependency resolution of simpleLoop.js makes the task FAILED
    with [last_error] the text "Dependency failed", and in no run of the
    system that leads to this pass from a state without running handlers,
    nor in any continuation of it, is the handler of the task invoked. *)
Theorem C4_dependency_failure s0 tr1 s tr2 s2 T t ds D d :
  System.running s0 = [] → System.exec s0 tr1 s →
  System.tasks s !! T = Some t → status t = BLOCKED →
  dependencies t = Some ds → D ∈ ds →
  System.tasks s !! D = Some d → status d = FAILED →
  System.exec
    (System.mkSys (SimpleLoop.dependencyResolution (System.tasks s))
                  (System.running s)) tr2 s2 →
  (∃ t', SimpleLoop.dependencyResolution (System.tasks s) !! T = Some t' ∧
         status t' = FAILED ∧ last_error t' = Some "Dependency failed") ∧
  ¬ System.invoked T (tr1 ++ System.Resolved :: tr2).
Proof.
  intros Hinit Hex1 HT Hb Hds HD HDm Hf Hex2.
  destruct (dependencyResolution_lookup (System.tasks s) T) as (_ & _ & Hlook).
  destruct (Hlook t HT Hb) as (mi & Hmid & Hmi & Hres).
  assert (HDmi : mi !! D = Some d).
  { eapply midway_not_blocked; [done|done|congruence]. }
  rewrite (resolved_dep_failed mi t ds D d) in Hres by done.
  split; [eexists; split; [exact Hres|]; split; reflexivity|].
  intros [w Hin]. apply elem_of_app in Hin as [Hin|Hin].
  { apply (exec_blocked_not_invoked _ _ _ _ _ Hex1 HT Hb). by exists w. }
  apply elem_of_cons in Hin as [?|Hin]; [done|].
  apply (exec_failed_for_good _ _ _ T Hex2); [|by exists w].
  split; simpl.
  - eexists. split; [exact Hres|]. reflexivity.
  - intros Hrun. apply list_elem_of_fmap in Hrun as [[k c] [-> Hrun]].
    assert (Hsound : System.running_sound s).
    { eapply exec_running_sound; [done|].
      intros id c' Hc'. rewrite Hinit in Hc'. by apply elem_of_nil in Hc'. }
    destruct (Hsound k c Hrun) as (t1 & Ht1 & Hnb). simpl in *. congruence.
Qed.

Lemma C4_witness :
  ∃ t', SimpleLoop.dependencyResolution Examples.failed_chain !! "B" = Some t' ∧
        status t' = FAILED ∧ last_error t' = Some "Dependency failed".
Proof.
  destruct (C4_dependency_failure
              (System.mkSys Examples.failed_chain []) []
              (System.mkSys Examples.failed_chain []) []
              (System.mkSys (SimpleLoop.dependencyResolution Examples.failed_chain) [])
              "B" (Examples.task BLOCKED ["A"] 2) ["A"]
              "A" (Examples.task FAILED [] 1)) as [Hres _].
  - reflexivity.
  - constructor.
  - reflexivity.
  - reflexivity.
  - reflexivity.
  - apply list_elem_of_singleton. reflexivity.
  - reflexivity.
  - reflexivity.
  - constructor.
  - exact Hres.
Defined.

(** The code against C4 as stated: "B" fails with a [last_error] that is
    not "dependency failed". *)
Lemma C4_counterexample :
  ∃ b, SimpleLoop.dependencyResolution Examples.failed_chain !! "B" = Some b ∧
       last_error b = Some "Dependency failed" ∧
       ¬ Stated.dependency_failed b.
Proof.
  eexists. split; [vm_compute; reflexivity|]. split; [reflexivity|].
  intros [_ He]. discriminate He.
Qed.

(** The second orchestrator script has no branch for a failed dependency:
    its pass leaves the task BLOCKED. *)
Lemma unblockTraffic_ignores_failure :
  ∃ b, (Orchestrator.unblockTraffic 0 Examples.failed_chain).1 !! "B" = Some b ∧
       status b = BLOCKED.
Proof. eexists. split; [vm_compute; reflexivity|]. reflexivity. Qed.

(** ** Artifacts *)

Section artifacts.
Import SimpleLoop.

Lemma obj_get_set k v o k' :
  obj_get k' (obj_set k v o) = if String.eqb k' k then Some v else obj_get k' o.
Proof.
  induction o as [|[k0 v0] o IH]; simpl.
  { by destruct (String.eqb k' k). }
  destruct (String.eqb_spec k k0) as [->|Hne]; simpl.
  - by destruct (String.eqb k' k0).
  - destruct (String.eqb_spec k' k0) as [->|Hne'].
    + destruct (String.eqb_spec k0 k) as [->|_]; [done|done].
    + apply IH.
Qed.

Lemma obj_get_set_eq k v o : obj_get k (obj_set k v o) = Some v.
Proof. by rewrite obj_get_set, String.eqb_refl. Qed.

Lemma collect_other acc deps d :
  d ∉ deps.*1 → obj_get d (foldl collect acc deps) = obj_get d acc.
Proof.
  revert acc. induction deps as [|[k td] deps IH]; intros acc Hd; simpl; [done|].
  rewrite fmap_cons, not_elem_of_cons in Hd. destruct Hd as [Hne Hd].
  rewrite IH by done. unfold collect. simpl.
  destruct (truthy (output_artifact td)); [|done].
  rewrite obj_get_set. by destruct (String.eqb_spec d k).
Qed.

Lemma collect_found acc deps d td :
  NoDup deps.*1 → (d, td) ∈ deps →
  obj_get d (foldl collect acc deps)
  = if truthy (output_artifact td) then Some (output_artifact td)
    else obj_get d acc.
Proof.
  revert acc. induction deps as [|[k tk] deps IH]; intros acc Hnd Hin.
  { by apply elem_of_nil in Hin. }
  rewrite fmap_cons, NoDup_cons in Hnd. destruct Hnd as [Hk Hnd]. simpl.
  apply elem_of_cons in Hin as [[= <- <-]|Hin].
  - rewrite collect_other by done. unfold collect. simpl.
    destruct (truthy (output_artifact td)); [|done]. apply obj_get_set_eq.
  - rewrite IH by done.
    destruct (truthy (output_artifact td)); [done|].
    unfold collect. simpl. destruct (truthy (output_artifact tk)); [|done].
    rewrite obj_get_set. destruct (String.eqb_spec d k) as [->|_]; [|done].
    exfalso. apply Hk. apply list_elem_of_fmap. by exists (k, td).
Qed.

(** The object built from the dependencies that the query found maps a
    dependency to its artifact when the artifact is truthy, and holds no
    other property. *)
Lemma depOutputs_lookup (ds : list string) (m : TaskDocs) d :
  obj_get d (depOutputs (find_deps ds m))
  = match m !! d with
    | Some td =>
        if bool_decide (d ∈ ds) && truthy (output_artifact td)
        then Some (output_artifact td)
        else None
    | None => None
    end.
Proof.
  unfold depOutputs.
  destruct (m !! d) as [td|] eqn:Hm.
  - destruct (decide (d ∈ ds)) as [Hd|Hd].
    + rewrite bool_decide_eq_true_2 by done. simpl.
      rewrite (collect_found _ _ d td); [by destruct (truthy _)| |].
      * apply NoDup_find.
      * by apply elem_of_find_deps.
    + rewrite bool_decide_eq_false_2 by done. simpl.
      rewrite collect_other; [done|]. intros Hin.
      apply find_keys in Hin as (v & _ & Hflt).
      by apply bool_decide_eq_true in Hflt.
  - rewrite collect_other; [done|]. intros Hin.
    apply find_keys in Hin as (v & Hv & _). congruence.
Qed.

Lemma allParentsDone_spec (ds : list string) (m : TaskDocs) :
  Orchestrator.allParentsDone (find (λ i _, bool_decide (i ∈ ds)) m) = true ↔
  ∀ d td, d ∈ ds → m !! d = Some td → status td = COMPLETED.
Proof. apply allDepsCompleted_spec. Qed.

(** Dependencies that are COMPLETED or absent before the pass are so when
    the body runs. *)
Lemma midway_all_done m mi (ds : list string) :
  midway m mi →
  (∀ d td, d ∈ ds → m !! d = Some td → status td = COMPLETED) →
  ∀ d td, d ∈ ds → mi !! d = Some td → status td = COMPLETED.
Proof.
  intros Hmid Hall d td Hd Hmi.
  destruct (Hmid d) as [Heq|(t0 & t1 & Hm & Hb & _)].
  - rewrite Heq in Hmi. eauto.
  - specialize (Hall d t0 Hd Hm). congruence.
Qed.

(** Dependencies that are all COMPLETED when the body runs were so before
    the pass, with the same documents. *)
Lemma midway_all_done_before m mi (ds : list string) :
  midway m mi →
  (∀ d td, d ∈ ds → mi !! d = Some td → status td = COMPLETED) →
  ∀ d, d ∈ ds → mi !! d = m !! d.
Proof.
  intros Hmid Hall d Hd.
  destruct (Hmid d) as [Heq|(t0 & t1 & Hm & Hb & Hmi & Hs)]; [done|].
  specialize (Hall d t1 Hd Hmi). destruct Hs; congruence.
Qed.

End artifacts.

(** The body of step 1 moves a task with dependencies to PENDING only
    through its first branch. *)
Lemma resolved_pending m t d0 ds :
  status t = BLOCKED → dependencies t = Some (d0 :: ds) →
  status (SimpleLoop.resolved m t) = PENDING →
  SimpleLoop.allDepsCompleted (SimpleLoop.find_deps (d0 :: ds) m) = true ∧
  SimpleLoop.resolved m t
  = SimpleLoop.unblock_update
      (SimpleLoop.depOutputs (SimpleLoop.find_deps (d0 :: ds) m)) t.
Proof.
  intros Hb Hds. unfold SimpleLoop.resolved. rewrite Hds.
  destruct (SimpleLoop.allDepsCompleted _); [done|].
  destruct (SimpleLoop.anyDepFailed _); simpl; congruence.
Qed.

(** C5, as the code has it.  When the dependency resolution of simpleLoop.js
    moves a BLOCKED task with a non-empty list of dependencies to PENDING,
    every dependency that is a document of the collection is COMPLETED, the
    documents of the dependencies are at that instant what they were before
    the pass, and the same update sets [input_context.dependency_outputs]
    to an object that maps every such dependency with a truthy
    [output_artifact] to that artifact and that has no property for an id
    that is not a dependency, that matches no document or whose artifact is
    falsy.  No other step of the system changes the [input_context] of a
    task. *)
Theorem C5_artifact_flow m T t ds t' :
  m !! T = Some t → status t = BLOCKED →
  dependencies t = Some ds → ds ≠ [] →
  SimpleLoop.dependencyResolution m !! T = Some t' → status t' = PENDING →
  (∀ d td, d ∈ ds → m !! d = Some td → status td = COMPLETED) ∧
  (∃ mi, SimpleLoop.midway m mi ∧ mi !! T = Some t ∧
         t' = SimpleLoop.resolved mi t ∧ ∀ d, d ∈ ds → mi !! d = m !! d) ∧
  (∃ o, input_context t'
        = obj_set "dependency_outputs" (JObj o) (input_context t) ∧
        obj_get "dependency_outputs" (input_context t') = Some (JObj o) ∧
        (∀ d td, d ∈ ds → m !! d = Some td →
                 truthy (output_artifact td) = true →
                 obj_get d o = Some (output_artifact td)) ∧
        (∀ d, d ∉ ds → obj_get d o = None) ∧
        (∀ d, m !! d = None → obj_get d o = None) ∧
        (∀ d td, m !! d = Some td → truthy (output_artifact td) = false →
                 obj_get d o = None)) ∧
  (∀ s l s' k t0 t1,
      System.step s l s' →
      System.tasks s !! k = Some t0 → System.tasks s' !! k = Some t1 →
      input_context t1 ≠ input_context t0 → l = System.Resolved).
Proof.
  intros HT Hb Hds Hne Hres Hp.
  destruct (dependencyResolution_lookup m T) as (_ & _ & Hlook).
  destruct (Hlook t HT Hb) as (mi & Hmid & Hmi & Hres').
  rewrite Hres in Hres'. injection Hres' as ->.
  destruct ds as [|d0 ds]; [done|].
  destruct (resolved_pending mi t d0 ds Hb Hds Hp) as [Hall Heq].
  rewrite allDepsCompleted_spec in Hall.
  pose proof (midway_all_done_before m mi _ Hmid Hall) as Hsame.
  split; [|split; [|split]].
  - intros d td Hd Hm. apply (Hall d td Hd). by rewrite Hsame.
  - exists mi. done.
  - exists (SimpleLoop.depOutputs (SimpleLoop.find_deps (d0 :: ds) mi)).
    rewrite Heq. simpl. split; [done|]. split; [apply obj_get_set_eq|].
    split; [|split; [|split]].
    + intros d td Hd Hm Htr. rewrite depOutputs_lookup, Hsame, Hm by done.
      by rewrite bool_decide_eq_true_2, Htr.
    + intros d Hd. rewrite depOutputs_lookup.
      destruct (mi !! d); [|done]. by rewrite bool_decide_eq_false_2.
    + intros d Hm. rewrite depOutputs_lookup.
      by rewrite (midway_None m mi d Hmid Hm).
    + intros d td Hm Hfalsy. rewrite depOutputs_lookup.
      destruct (decide (d ∈ d0 :: ds)) as [Hd|Hd].
      * rewrite Hsame, Hm, Hfalsy by done. by rewrite andb_false_r.
      * destruct (mi !! d); [|done]. by rewrite bool_decide_eq_false_2.
  - intros s l s' k t0 t1 Hstep Hk Hk' Hctx.
    pose proof (step_changed s l s' k Hstep) as Hch. rewrite Hk, Hk' in Hch.
    destruct Hch as [->|[(w & now & _ & _ & _ & ->)|[(o & c & _ & _ & Hc & _)
                    |[(Hl & _)|[(_ & _ & Hc & _)|(_ & _ & _ & Hc)]]]]];
      done.
Qed.

Lemma C5_witness :
  ∃ t' o, SimpleLoop.dependencyResolution Examples.ok_artifact !! "T" = Some t' ∧
          obj_get "dependency_outputs" (input_context t') = Some (JObj o) ∧
          obj_get "D" o = Some (JObj [("ok", JStr "D")]).
Proof.
  destruct (C5_artifact_flow Examples.ok_artifact "T"
              (Examples.task BLOCKED ["D"] 3) ["D"]
              (SimpleLoop.unblock_update [("D", JObj [("ok", JStr "D")])]
                 (Examples.task BLOCKED ["D"] 3)))
    as (_ & _ & (o & _ & Hget & Hflow & _) & _).
  - reflexivity.
  - reflexivity.
  - reflexivity.
  - discriminate.
  - vm_compute. reflexivity.
  - reflexivity.
  - eexists _, o. split; [vm_compute; reflexivity|]. split; [exact Hget|].
    apply (Hflow "D" (Examples.done_with (JObj [("ok", JStr "D")]))).
    + apply list_elem_of_singleton. reflexivity.
    + reflexivity.
    + reflexivity.
Defined.

(** The code against C5 as stated: a task whose only dependency matches no
    document is moved to PENDING, and so is a task whose dependency
    completed with a [null] artifact, for which [dependency_outputs] has no
    property. *)
Lemma C5_counterexample :
  (∃ t', SimpleLoop.dependencyResolution Examples.ghost_dependency !! "T"
         = Some t' ∧ status t' = PENDING ∧
         ¬ Stated.artifact_flow Examples.ghost_dependency ["ghost"] t') ∧
  (∃ t', SimpleLoop.dependencyResolution Examples.null_artifact !! "T"
         = Some t' ∧ status t' = PENDING ∧
         ¬ Stated.artifact_flow Examples.null_artifact ["D"] t').
Proof.
  split.
  - eexists. split; [vm_compute; reflexivity|]. split; [reflexivity|].
    intros H. destruct (H "ghost") as (td & o & Hm & _).
    + apply list_elem_of_singleton. reflexivity.
    + vm_compute in Hm. discriminate Hm.
  - eexists. split; [vm_compute; reflexivity|]. split; [reflexivity|].
    intros H. destruct (H "D") as (td & o & Hm & _ & Hctx & Hget).
    + apply list_elem_of_singleton. reflexivity.
    + vm_compute in Hctx. injection Hctx as <-.
      vm_compute in Hget. discriminate Hget.
Qed.

(** The loop of orchestrator.js runs to its end exactly when every task of
    the scan has a [dependencies] field. *)
Lemma unblock_flag now l (m : TaskDocs) :
  (Orchestrator.unblock now l m).2 = true ↔
  Forall (λ kv, dependencies kv.2 ≠ None) l.
Proof.
  revert m. induction l as [|[id task] l IH]; intros m; simpl.
  { split; [constructor|done]. }
  rewrite Forall_cons. simpl.
  destruct (dependencies task) as [ds|]; simpl.
  - case_match; rewrite IH; (split; [intros Hl; by split|by intros [_ ?]]).
  - split; [done|]. by intros [? _].
Qed.

Lemma unblockTraffic_flag now (m : TaskDocs) :
  (Orchestrator.unblockTraffic now m).2 = true ↔
  ∀ k x, m !! k = Some x → status x = BLOCKED → dependencies x ≠ None.
Proof.
  unfold Orchestrator.unblockTraffic. rewrite unblock_flag, Forall_forall.
  split.
  - intros H k t Hk Hb. apply (H (k, t)). apply elem_of_find.
    split; [done|]. by apply bool_decide_eq_true.
  - intros H [k t] Hin. apply elem_of_find in Hin as [Hk Hb].
    apply bool_decide_eq_true in Hb. simpl. eauto.
Qed.

(** C9.  For a BLOCKED task with the dependency ids [ds], "all dependencies
    COMPLETED" holds, in simpleLoop.js and in orchestrator.js, exactly when
    every id of [ds] that matches a document matches a COMPLETED one: an id
    that matches no document does not count.  In that case the pass of
    simpleLoop.js makes the task PENDING; the pass of orchestrator.js runs
    to its end exactly when every BLOCKED task of the collection has a
    [dependencies] field, and then it makes the task PENDING too.  So both
    do when no id of [ds] matches a document. *)
Theorem C9_missing_dependencies_are_satisfied now m T t ds :
  m !! T = Some t → status t = BLOCKED → dependencies t = Some ds →
  (SimpleLoop.allDepsCompleted (SimpleLoop.find_deps ds m) = true ↔
   ∀ d td, d ∈ ds → m !! d = Some td → status td = COMPLETED) ∧
  (Orchestrator.allParentsDone (find (λ i _, bool_decide (i ∈ ds)) m) = true ↔
   ∀ d td, d ∈ ds → m !! d = Some td → status td = COMPLETED) ∧
  ((Orchestrator.unblockTraffic now m).2 = true ↔
   ∀ k x, m !! k = Some x → status x = BLOCKED → dependencies x ≠ None) ∧
  ((∀ d td, d ∈ ds → m !! d = Some td → status td = COMPLETED) →
   (∃ t', SimpleLoop.dependencyResolution m !! T = Some t' ∧
          status t' = PENDING) ∧
   ((∀ k x, m !! k = Some x → status x = BLOCKED → dependencies x ≠ None) →
    ∃ t', (Orchestrator.unblockTraffic now m).1 !! T = Some t' ∧
          status t' = PENDING)) ∧
  ((∀ d, d ∈ ds → m !! d = None) →
   (∃ t', SimpleLoop.dependencyResolution m !! T = Some t' ∧
          status t' = PENDING) ∧
   ((∀ k x, m !! k = Some x → status x = BLOCKED → dependencies x ≠ None) →
    ∃ t', (Orchestrator.unblockTraffic now m).1 !! T = Some t' ∧
          status t' = PENDING)).
Proof.
  intros HT Hb Hds.
  assert (Hdone : (∀ d td, d ∈ ds → m !! d = Some td → status td = COMPLETED) →
    (∃ t', SimpleLoop.dependencyResolution m !! T = Some t' ∧
           status t' = PENDING) ∧
    ((∀ k x, m !! k = Some x → status x = BLOCKED → dependencies x ≠ None) →
     ∃ t', (Orchestrator.unblockTraffic now m).1 !! T = Some t' ∧
           status t' = PENDING)).
  { intros Hall. split.
    - destruct (dependencyResolution_lookup m T) as (_ & _ & Hlook).
      destruct (Hlook t HT Hb) as (mi & Hmid & Hmi & ->).
      eexists. split; [done|].
      unfold SimpleLoop.resolved. rewrite Hds.
      destruct ds as [|d0 ds]; [done|].
      pose proof (midway_all_done m mi _ Hmid Hall) as Hall'.
      apply allDepsCompleted_spec in Hall'. by rewrite Hall'.
    - intros Hdeps.
      pose proof (proj2 (unblockTraffic_flag now m) Hdeps) as Hok.
      destruct (unblockTraffic_lookup now m T) as (_ & _ & Hlook).
      destruct (Hlook t HT Hb) as [[Hthrew _]|(mi & Hmid & Hmi & ->)];
        [congruence|].
      eexists. split; [done|].
      unfold Orchestrator.unblocked. rewrite Hds.
      pose proof (midway_all_done m mi _ Hmid Hall) as Hall'.
      apply allParentsDone_spec in Hall'. by rewrite Hall'. }
  split; [apply allDepsCompleted_spec|].
  split; [apply allParentsDone_spec|].
  split; [apply unblockTraffic_flag|]. split; [done|].
  intros Hnone. apply Hdone. intros d td Hd Hm.
  rewrite (Hnone d Hd) in Hm. done.
Qed.

Lemma C9_witness :
  (∃ t', SimpleLoop.dependencyResolution Examples.ghost_dependency !! "T"
         = Some t' ∧ status t' = PENDING) ∧
  (∃ t', (Orchestrator.unblockTraffic 0 Examples.ghost_dependency).1 !! "T"
         = Some t' ∧ status t' = PENDING).
Proof.
  destruct (C9_missing_dependencies_are_satisfied 0 Examples.ghost_dependency
              "T" (Examples.task BLOCKED ["ghost"] 1) ["ghost"])
    as (_ & _ & _ & _ & Hnone).
  - reflexivity.
  - reflexivity.
  - reflexivity.
  - destruct Hnone as [Hres Horch].
    + intros d Hd. apply list_elem_of_singleton in Hd as ->. reflexivity.
    + split; [exact Hres|]. apply Horch.
      intros k x Hk _. unfold Examples.ghost_dependency in Hk.
      apply lookup_singleton_Some in Hk as [_ <-]. discriminate.
Defined.

(** ** The planner *)

Section planner.
Import PlannerWorker.

Lemma append_inj_r (a x y : string) : a +:+ x = a +:+ y → x = y.
Proof. induction a as [|c a IH]; simpl; [done|]. intros [= H]. auto. Qed.

Lemma prefixed_inj wf x y : prefixed wf x = prefixed wf y → x = y.
Proof.
  unfold prefixed. intros H. apply append_inj_r in H.
  by apply append_inj_r in H.
Qed.

(** The insertion loop on planned tasks whose ids are distinct and free:
    every one of them is inserted, nothing else is touched, nothing is
    raised. *)
Lemma insert_children_fresh wf now ps (m : TaskDocs) :
  NoDup (p_id <$> ps) →
  (∀ p, p ∈ ps → m !! prefixed wf (p_id p) = None) →
  ∃ m', insert_children wf now ps m = (m', None) ∧
        (∀ p, p ∈ ps → m' !! prefixed wf (p_id p) = Some (child_doc wf now p)) ∧
        (∀ k, (∀ p, p ∈ ps → k ≠ prefixed wf (p_id p)) → m' !! k = m !! k).
Proof.
  revert m. induction ps as [|p ps IH]; intros m Hnd Hfree; simpl.
  { exists m. split; [done|]. split; [|done]. intros p Hp.
    by apply elem_of_nil in Hp. }
  rewrite fmap_cons, NoDup_cons in Hnd. destruct Hnd as [Hp Hnd].
  rewrite (Hfree p) by by left.
  assert (Hother : ∀ q, q ∈ ps → prefixed wf (p_id q) ≠ prefixed wf (p_id p)).
  { intros q Hq Heq. apply prefixed_inj in Heq. apply Hp.
    rewrite <- Heq. apply list_elem_of_fmap. by exists q. }
  destruct (IH (<[prefixed wf (p_id p) := child_doc wf now p]> m))
    as (m' & Hins & Hin & Hout); [done| |].
  { intros q Hq. rewrite lookup_insert_ne by (apply not_eq_sym; auto).
    apply Hfree. by right. }
  exists m'. split; [done|]. split.
  - intros q Hq. apply elem_of_cons in Hq as [->|Hq]; [|by apply Hin].
    rewrite Hout by (intros q Hq; apply not_eq_sym; auto).
    apply lookup_insert_eq.
  - intros k Hk. rewrite Hout by (intros q Hq; apply Hk; by right).
    apply lookup_insert_ne. apply not_eq_sym, Hk. by left.
Qed.

Lemma child_doc_status wf now p :
  status (child_doc wf now p)
  = match default [] (p_dependencies p) with [] => PENDING | _ :: _ => BLOCKED end.
Proof.
  unfold child_doc. simpl. by destruct (default [] (p_dependencies p)).
Qed.

(** The parsing block on a reply that both attempts reject. *)
Lemma parsePlan_unparseable rt response :
  unparseable rt response → parsePlan rt response = empty_plan.
Proof.
  intros [Hfirst Hsecond]. unfold parsePlan. rewrite Hfirst.
  destruct (match_tasks_object rt response) as [j|]; [|done].
  by rewrite (Hsecond j).
Qed.

(** With the empty plan the handler inserts nothing and returns. *)
Lemma createTasks_empty_plan now task (m : TaskDocs) :
  createTasks now task empty_plan m = (m, inr (plan_result task empty_plan now)).
Proof.
  unfold createTasks. simpl. by destruct (truthy_string (workflow_id task)).
Qed.

End planner.

(** The topological pass accepts a chain and rejects a cycle of two. *)
Lemma plan_acyclic_examples :
  Stated.plan_acyclic Examples.chain_tasks = true ∧
  Stated.plan_acyclic Examples.cyclic_tasks = false.
Proof. split; vm_compute; reflexivity. Qed.

(** C6, as the code has it.  The planner handler makes no check of the
    dependency graph: for every plan, with or without a cycle, whose task
    ids are distinct and free under the workflow prefix, it inserts one
    document per planned task, BLOCKED when the task lists a dependency and
    PENDING otherwise, touches no other document, and returns its artifact
    without raising. *)
Theorem C6_planner_inserts_every_plan now task plan wf ps (m : TaskDocs) :
  PlannerWorker.truthy_string (workflow_id task) = Some wf →
  PlannerWorker.plan_tasks plan = Some ps →
  NoDup (PlannerWorker.p_id <$> ps) →
  (∀ p, p ∈ ps → m !! PlannerWorker.prefixed wf (PlannerWorker.p_id p) = None) →
  ∃ m', PlannerWorker.createTasks now task plan m
        = (m', inr (PlannerWorker.plan_result task plan now)) ∧
        (∀ p, p ∈ ps →
           ∃ doc, m' !! PlannerWorker.prefixed wf (PlannerWorker.p_id p) = Some doc ∧
                  doc = PlannerWorker.child_doc wf now p ∧
                  status doc
                  = match default [] (PlannerWorker.p_dependencies p) with
                    | [] => PENDING
                    | _ :: _ => BLOCKED
                    end) ∧
        (∀ k, (∀ p, p ∈ ps →
                 k ≠ PlannerWorker.prefixed wf (PlannerWorker.p_id p)) →
              m' !! k = m !! k).
Proof.
  intros Hwf Hps Hnd Hfree.
  destruct (insert_children_fresh wf now ps m Hnd Hfree)
    as (m' & Hins & Hin & Hout).
  exists m'. unfold PlannerWorker.createTasks. rewrite Hwf, Hps, Hins.
  split; [done|]. split; [|done].
  intros p Hp. eexists. split; [by apply Hin|]. split; [done|].
  apply child_doc_status.
Qed.

Lemma C6_witness :
  ∃ a b, (PlannerWorker.createTasks 10 Examples.plan_task Examples.cyclic_plan
            Examples.only_plan_task).1 !! "wf_a" = Some a ∧
         (PlannerWorker.createTasks 10 Examples.plan_task Examples.cyclic_plan
            Examples.only_plan_task).1 !! "wf_b" = Some b ∧
         status a = BLOCKED ∧ status b = BLOCKED ∧
         dependencies a = Some ["wf_b"] ∧ dependencies b = Some ["wf_a"].
Proof.
  destruct (C6_planner_inserts_every_plan 10 Examples.plan_task
              Examples.cyclic_plan "wf" Examples.cyclic_tasks
              Examples.only_plan_task) as (m' & Hrun & Hin & _).
  - reflexivity.
  - reflexivity.
  - vm_compute. apply NoDup_cons. split; [|apply NoDup_singleton].
    intros Hin. apply list_elem_of_singleton in Hin. discriminate Hin.
  - intros p Hp. unfold Examples.cyclic_tasks in Hp.
    apply elem_of_cons in Hp as [->|Hp]; [reflexivity|].
    apply list_elem_of_singleton in Hp as ->. reflexivity.
  - rewrite Hrun. simpl.
    destruct (Hin (PlannerWorker.mkPlannedTask "a" "SEARCH" None None (Some ["b"])))
      as (a & Ha & -> & _); [by left|].
    destruct (Hin (PlannerWorker.mkPlannedTask "b" "SUMMARIZE" None None (Some ["a"])))
      as (b & Hb & -> & _); [right; by left|].
    eexists _, _. split; [exact Ha|]. split; [exact Hb|].
    repeat split; reflexivity.
Defined.

(** The code against C6 as stated: the plan has a cycle, and the handler
    inserts both of its tasks and returns. *)
Lemma C6_counterexample :
  Stated.plan_acyclic Examples.cyclic_tasks = false ∧
  (∃ m' artifact a b,
      PlannerWorker.createTasks 10 Examples.plan_task Examples.cyclic_plan
        Examples.only_plan_task = (m', inr artifact) ∧
      m' !! "wf_a" = Some a ∧ m' !! "wf_b" = Some b) ∧
  ¬ Stated.rejects_cycles 10 Examples.plan_task Examples.cyclic_plan
      Examples.only_plan_task.
Proof.
  split; [vm_compute; reflexivity|]. split.
  - eexists _, _, _, _. split; [vm_compute; reflexivity|].
    split; vm_compute; reflexivity.
  - intros H. destruct (H Examples.cyclic_tasks) as [msg Hmsg].
    + reflexivity.
    + vm_compute. reflexivity.
    + vm_compute in Hmsg. discriminate Hmsg.
Qed.

(** C7, as the code has it.  When the reply of the language model cannot be
    parsed, the planner handler does not raise: it takes the empty plan,
    inserts no document and returns an artifact with [tasks_created = 0],
    so the PLAN task is COMPLETED with that artifact and its [retry_count]
    is not touched.  When the call of the language model itself raises, the
    handler raises the same error, and the PLAN task takes the failure path:
    PENDING again with [retry_count] incremented, or FAILED beyond the
    limit. *)
Theorem C7_planner_failures rt now id task (m : TaskDocs) t :
  m !! id = Some t →
  (∀ response,
      PlannerWorker.unparseable rt response →
      PlannerWorker.processTask rt now task (PlannerWorker.LlmText response) m
      = (m, inr (PlannerWorker.plan_result task PlannerWorker.empty_plan now)) ∧
      obj_get "tasks_created"
        (match PlannerWorker.plan_result task PlannerWorker.empty_plan now with
         | JObj props => props
         | _ => []
         end) = Some (JNum 0) ∧
      ∃ t', PlannerWorker.run rt now id task (PlannerWorker.LlmText response) m
              !! id = Some t' ∧
            status t' = COMPLETED ∧
            output_artifact t'
            = PlannerWorker.plan_result task PlannerWorker.empty_plan now ∧
            retry_count t' = retry_count t ∧ last_error t' = last_error t) ∧
  (∀ msg,
      PlannerWorker.processTask rt now task (PlannerWorker.LlmError msg) m
      = (m, inl msg) ∧
      ∃ t', PlannerWorker.run rt now id task (PlannerWorker.LlmError msg) m
              !! id = Some t' ∧
            last_error t' = Some msg ∧
            retry_count t' = Some (default 0 (retry_count task) + 1) ∧
            (default 0 (retry_count task) + 1 ≤ js_or (max_retries task) 3 →
             status t' = PENDING) ∧
            (js_or (max_retries task) 3 < default 0 (retry_count task) + 1 →
             status t' = FAILED)).
Proof.
  intros Hid. split.
  - intros response Hun.
    assert (Hp : PlannerWorker.processTask rt now task
                   (PlannerWorker.LlmText response) m
                 = (m, inr (PlannerWorker.plan_result task
                              PlannerWorker.empty_plan now))).
    { unfold PlannerWorker.processTask.
      rewrite parsePlan_unparseable by done. apply createTasks_empty_plan. }
    split; [done|]. split; [reflexivity|].
    unfold PlannerWorker.run. rewrite Hp. simpl.
    rewrite updateOne_lookup, Hid. simpl. eexists. split; [done|]. done.
  - intros msg. split; [done|].
    unfold PlannerWorker.run. simpl.
    destruct (executeTask_failure id task msg now m t Hid)
      as (t' & Ht' & Hretry & Hfail).
    simpl in Ht'. exists t'. split; [done|].
    destruct (Z.le_gt_cases (default 0 (retry_count task) + 1)
                (js_or (max_retries task) 3)) as [Hle|Hgt].
    + destruct (Hretry Hle) as (? & _ & _ & ? & ? & _).
      repeat split; try done. lia.
    + destruct (Hfail Hgt) as (? & _ & _ & ? & ? & _).
      repeat split; try done. lia.
Qed.

Lemma C7_witness :
  ∃ t', PlannerWorker.run PlannerWorker.rejecting_runtime 10 "P"
          Examples.plan_task (PlannerWorker.LlmText Examples.chatty_reply)
          Examples.only_plan_task !! "P" = Some t' ∧
        status t' = COMPLETED ∧ retry_count t' = Some 0.
Proof.
  destruct (C7_planner_failures PlannerWorker.rejecting_runtime 10 "P"
              Examples.plan_task Examples.only_plan_task Examples.plan_task)
    as [Hreply _].
  - reflexivity.
  - destruct (Hreply Examples.chatty_reply) as (_ & _ & t' & Ht' & Hs & _ & Hr & _).
    + split; [reflexivity|]. intros j Hj. discriminate Hj.
    + exists t'. split; [exact Ht'|]. split; [exact Hs|]. exact Hr.
Defined.

(** The code against C7 as stated: neither attempt parses the reply, and
    the handler returns; the PLAN task is COMPLETED, not retried. *)
Lemma C7_counterexample :
  PlannerWorker.unparseable PlannerWorker.rejecting_runtime Examples.chatty_reply ∧
  (∃ t', PlannerWorker.run PlannerWorker.rejecting_runtime 10 "P"
           Examples.plan_task (PlannerWorker.LlmText Examples.chatty_reply)
           Examples.only_plan_task !! "P" = Some t' ∧
         status t' = COMPLETED ∧ retry_count t' = Some 0) ∧
  ¬ Stated.raises_on_unparseable PlannerWorker.rejecting_runtime 10
      Examples.plan_task Examples.chatty_reply Examples.only_plan_task.
Proof.
  assert (Hun : PlannerWorker.unparseable PlannerWorker.rejecting_runtime
                  Examples.chatty_reply).
  { split; [reflexivity|]. intros j Hj. discriminate Hj. }
  split; [exact Hun|]. split.
  - eexists. split; [vm_compute; reflexivity|]. split; reflexivity.
  - intros H. destruct (H Hun) as [msg Hmsg].
    vm_compute in Hmsg. discriminate Hmsg.
Qed.

(** ** Workflows *)

Section workflows.
Import SimpleLoop.

Lemma elem_of_tasks_of wid (m : TaskDocs) k t :
  (k, t) ∈ tasks_of wid m ↔ m !! k = Some t ∧ workflow_id t = Some wid.
Proof. unfold tasks_of. by rewrite elem_of_find, bool_decide_eq_true. Qed.

Lemma tasks_of_Forall (P : Task → Prop) wid (m : TaskDocs) :
  Forall (λ kv, P kv.2) (tasks_of wid m) ↔ Stated.every_task P m wid.
Proof.
  unfold Stated.every_task. rewrite Forall_forall, map_Forall_lookup. split.
  - intros H k t Hm Hw. apply (H (k, t)). by apply elem_of_tasks_of.
  - intros H [k t] Hin. apply elem_of_tasks_of in Hin as [Hm Hw]. eauto.
Qed.

Lemma tasks_of_Exists (P : Task → Prop) wid (m : TaskDocs) :
  Exists (λ kv, P kv.2) (tasks_of wid m) ↔ Stated.some_task P m wid.
Proof.
  unfold Stated.some_task. rewrite Exists_exists, map_Exists_lookup. split.
  - intros ([k t] & Hin & HP). apply elem_of_tasks_of in Hin as [Hm Hw].
    exists k, t. eauto.
  - intros (k & t & Hm & Hw & HP). exists (k, t).
    split; [by apply elem_of_tasks_of|done].
Qed.

Lemma tasks_of_nil wid (m : TaskDocs) :
  length (tasks_of wid m) = 0%nat ↔ ¬ Stated.some_task (λ _, True) m wid.
Proof.
  rewrite <- tasks_of_Exists. rewrite length_zero_iff_nil. split.
  - intros ->. by intros ?%Exists_nil.
  - intros H. destruct (tasks_of wid m) as [|kv l]; [done|].
    exfalso. apply H. by left.
Qed.

(** The status that the code computes is the status of the decision list,
    read over the tasks of the workflow. *)
Lemma newStatus_aggregate old wid (m : TaskDocs) :
  newStatus old (tasks_of wid m) = Stated.aggregate old m wid.
Proof.
  unfold newStatus, Stated.aggregate, allCompleted, anyFailed, anyInProgress.
  rewrite (bool_decide_ext _ _ (tasks_of_Forall (λ t, status t = COMPLETED) wid m)).
  destruct (bool_decide (Stated.every_task _ m wid)); [done|].
  assert (Hact : Exists (λ t : string * Task,
                           status t.2 = IN_PROGRESS ∨ status t.2 = PENDING)
                        (tasks_of wid m)
                 ↔ Stated.some_task Stated.active m wid).
  { rewrite <- tasks_of_Exists. apply Exists_proper; [|done].
    intros kv. unfold Stated.active. tauto. }
  rewrite (bool_decide_ext _ _ Hact).
  rewrite (bool_decide_ext _ _ (tasks_of_Exists (λ t, status t = FAILED) wid m)).
  destruct (bool_decide (Stated.some_task Stated.active m wid)) eqn:Ha.
  - rewrite andb_false_r. rewrite bool_decide_eq_false_2; [done|].
    apply bool_decide_eq_true in Ha. tauto.
  - rewrite andb_true_r. apply bool_decide_eq_false in Ha.
    rewrite (bool_decide_ext
               (Stated.some_task (λ t, status t = FAILED) m wid)
               (Stated.some_task (λ t, status t = FAILED) m wid ∧
                ¬ Stated.some_task Stated.active m wid)) by tauto.
    done.
Qed.

Lemma newStatus_idem old ts : newStatus (newStatus old ts) ts = newStatus old ts.
Proof. unfold newStatus. repeat case_match; done. Qed.

Lemma aggregated_idem m wid w :
  aggregated m wid (aggregated m wid w) = aggregated m wid w.
Proof.
  unfold aggregated. case_bool_decide; [done|].
  simpl. by rewrite newStatus_idem.
Qed.

(** Running step 3 twice in a row is running it once. *)
Lemma workflowStatusUpdate_idem m ws :
  workflowStatusUpdate m (workflowStatusUpdate m ws) = workflowStatusUpdate m ws.
Proof.
  apply map_eq. intros k. rewrite !workflowStatusUpdate_lookup.
  destruct (ws !! k) as [w|]; simpl; [|done]. f_equal.
  destruct (is_open w) eqn:Hopen.
  - destruct (is_open (aggregated m k w)); [apply aggregated_idem|done].
  - by rewrite Hopen.
Qed.

Lemma is_open_spec w :
  is_open w = true ↔ wf_status w = WfPENDING ∨ wf_status w = WfRUNNING.
Proof.
  unfold is_open. by rewrite orb_true_iff, !bool_decide_eq_true.
Qed.

End workflows.

(** The cases of the decision list exclude one another on a workflow that
    has a task. *)
Lemma aggregate_cases old (m : TaskDocs) wid :
  Stated.some_task (λ _, True) m wid →
  old = WfPENDING ∨ old = WfRUNNING →
  (Stated.aggregate old m wid = WfCOMPLETED ↔
   Stated.every_task (λ t, status t = COMPLETED) m wid) ∧
  (Stated.aggregate old m wid = WfFAILED ↔
   Stated.some_task (λ t, status t = FAILED) m wid ∧
   ¬ Stated.some_task Stated.active m wid) ∧
  (Stated.some_task Stated.active m wid →
   Stated.aggregate old m wid = WfRUNNING) ∧
  (Stated.aggregate old m wid = WfRUNNING →
   Stated.some_task Stated.active m wid ∨ old = WfRUNNING) ∧
  (¬ Stated.every_task (λ t, status t = COMPLETED) m wid →
   ¬ Stated.some_task (λ t, status t = FAILED) m wid →
   ¬ Stated.some_task Stated.active m wid →
   Stated.aggregate old m wid = old).
Proof.
  intros Hsome Hold.
  assert (Hdone : Stated.every_task (λ t, status t = COMPLETED) m wid →
                  ¬ Stated.some_task (λ t, status t = FAILED) m wid ∧
                  ¬ Stated.some_task Stated.active m wid).
  { unfold Stated.every_task, Stated.some_task, Stated.active.
    rewrite map_Forall_lookup, !map_Exists_lookup.
    intros Hall. split.
    - intros (k & t & Hk & Hw & Hs). specialize (Hall k t Hk Hw). congruence.
    - intros (k & t & Hk & Hw & Hs). specialize (Hall k t Hk Hw).
      destruct Hs; congruence. }
  unfold Stated.aggregate.
  repeat case_bool_decide; repeat split; intros; try done;
    try tauto; try (destruct Hold; congruence).
Qed.

(** C8, as the code has it.  The workflow status update of simpleLoop.js
    leaves a workflow that is COMPLETED or FAILED alone, and so it leaves an
    open workflow that has no task.  To an open workflow with at least one
    task it gives the status of the decision list: COMPLETED if and only if
    every task is COMPLETED, FAILED if and only if some task is FAILED and
    none is PENDING or IN_PROGRESS, RUNNING when some task is PENDING or
    IN_PROGRESS, and the status it had when none of the three holds; it
    changes no other field.  Running the pass twice with no write in
    between gives the same collection as running it once. *)
Theorem C8_workflow_aggregation (m : TaskDocs) (ws : WorkflowDocs) wid w :
  ws !! wid = Some w →
  ∃ w', SimpleLoop.workflowStatusUpdate m ws !! wid = Some w' ∧
        goal w' = goal w ∧ wf_created_at w' = wf_created_at w ∧
        (wf_status w = WfCOMPLETED ∨ wf_status w = WfFAILED → w' = w) ∧
        (wf_status w = WfPENDING ∨ wf_status w = WfRUNNING →
         (¬ Stated.some_task (λ _, True) m wid → w' = w) ∧
         (Stated.some_task (λ _, True) m wid →
          wf_status w' = Stated.aggregate (wf_status w) m wid ∧
          (wf_status w' = WfCOMPLETED ↔
           Stated.every_task (λ t, status t = COMPLETED) m wid) ∧
          (wf_status w' = WfFAILED ↔
           Stated.some_task (λ t, status t = FAILED) m wid ∧
           ¬ Stated.some_task Stated.active m wid) ∧
          (Stated.some_task Stated.active m wid → wf_status w' = WfRUNNING) ∧
          (wf_status w' = WfRUNNING →
           Stated.some_task Stated.active m wid ∨ wf_status w = WfRUNNING) ∧
          (¬ Stated.every_task (λ t, status t = COMPLETED) m wid →
           ¬ Stated.some_task (λ t, status t = FAILED) m wid →
           ¬ Stated.some_task Stated.active m wid →
           wf_status w' = wf_status w))) ∧
        SimpleLoop.workflowStatusUpdate m (SimpleLoop.workflowStatusUpdate m ws)
        = SimpleLoop.workflowStatusUpdate m ws.
Proof.
  intros Hw. rewrite workflowStatusUpdate_lookup, Hw. simpl.
  eexists. split; [done|].
  destruct (SimpleLoop.is_open w) eqn:Hopen.
  - apply is_open_spec in Hopen.
    split; [by unfold SimpleLoop.aggregated; case_bool_decide|].
    split; [by unfold SimpleLoop.aggregated; case_bool_decide|].
    split; [intros [Hs|Hs]; destruct Hopen; congruence|].
    split; [|apply workflowStatusUpdate_idem].
    intros _. unfold SimpleLoop.aggregated. split.
    + intros Hnone. apply tasks_of_nil in Hnone.
      by rewrite bool_decide_eq_true_2.
    + intros Hsome. rewrite bool_decide_eq_false_2.
      * simpl. rewrite newStatus_aggregate. split; [done|].
        by apply aggregate_cases.
      * rewrite tasks_of_nil. intros Hn. by apply Hn.
  - split; [done|]. split; [done|]. split; [done|].
    split; [|apply workflowStatusUpdate_idem].
    intros Ho. apply is_open_spec in Ho. congruence.
Qed.

Lemma C8_witness :
  ∃ w', SimpleLoop.workflowStatusUpdate Examples.failed_chain
          Examples.one_workflow !! "wf" = Some w' ∧
        wf_status w' = WfFAILED.
Proof.
  destruct (C8_workflow_aggregation Examples.failed_chain
              Examples.one_workflow "wf" Examples.new_workflow)
    as (w' & Hw' & _ & _ & _ & Hopen & _).
  - reflexivity.
  - exists w'. split; [exact Hw'|].
    destruct Hopen as [_ Hsome]; [left; reflexivity|].
    destruct Hsome as [Hsome _].
    + apply map_Exists_lookup. exists "A", (Examples.task FAILED [] 1).
      split; [reflexivity|]. split; [reflexivity|exact I].
    + rewrite Hsome. vm_compute. reflexivity.
Defined.

(** The code against C8 as stated: every task of the workflow is COMPLETED,
    for it has none, and the pass leaves the workflow PENDING. *)
Lemma C8_counterexample :
  ∃ w', SimpleLoop.workflowStatusUpdate ∅ Examples.one_workflow !! "wf"
        = Some w' ∧
        Stated.every_task (λ t, status t = COMPLETED) ∅ "wf" ∧
        Stated.aggregate WfPENDING ∅ "wf" = WfCOMPLETED ∧
        wf_status w' = WfPENDING ∧
        ¬ (wf_status w' = WfCOMPLETED ↔
           Stated.every_task (λ t, status t = COMPLETED) ∅ "wf").
Proof.
  exists Examples.new_workflow. split; [vm_compute; reflexivity|].
  assert (Hall : Stated.every_task (λ t, status t = COMPLETED) ∅ "wf")
    by apply map_Forall_empty.
  split; [exact Hall|]. split.
  - unfold Stated.aggregate. by rewrite bool_decide_eq_true_2.
  - split; [reflexivity|]. intros [_ H]. specialize (H Hall). discriminate H.
Qed.

(** * Further properties of the code *)

(** ** The claim and the polling loop *)

Section polling.
Import PhoenixBaseWorker.

(** Polling changes nothing when no task is eligible. *)
Lemma startPolling_idle w handler times (m : TaskDocs) :
  (∀ k x, m !! k = Some x → claim_filter w x = false) →
  startPolling w handler times m = m.
Proof.
  intros Hnone. unfold startPolling.
  induction times as [|tt times IH]; simpl; [done|].
  unfold startPolling_iteration at 2.
  destruct (claimTask w tt.1 m) as [m' [[id t']|]] eqn:Hc.
  - apply claimTask_hit in Hc as (t0 & Hm & Hflt & _).
    rewrite (Hnone id t0 Hm) in Hflt. done.
  - apply claimTask_miss in Hc as [-> _]. apply IH.
Qed.

(** One iteration on the only eligible task with a handler that raises. *)
Lemma startPolling_iteration_raises w handler msg now finished
    (m : TaskDocs) T t :
  Shape.always_raises handler msg →
  m !! T = Some t → claim_filter w t = true →
  (∀ k x, m !! k = Some x → k ≠ T → claim_filter w x = false) →
  startPolling_iteration w handler now finished m
  = <[T := if default 0 (retry_count t) + 1 <=? js_or (max_retries t) 3
           then retry_update (claim_update w now t) msg (claim_update w now t)
           else fail_update (claim_update w now t) msg finished
                  (claim_update w now t)]> m.
Proof.
  intros Hraise HT Hflt Honly. unfold startPolling_iteration.
  rewrite (claimTask_only_eligible w now m T t) by done.
  rewrite Hraise. simpl. unfold handleTaskFailure.
  unfold newRetryCount at 1, maxRetries. simpl. rewrite js_or_zero.
  apply map_eq. intros k. destruct (decide (k = T)) as [->|Hne].
  - rewrite lookup_insert_eq.
    case_match; by rewrite updateOne_lookup, lookup_insert_eq.
  - rewrite lookup_insert_ne by done.
    case_match; by rewrite updateOne_lookup_ne, lookup_insert_ne.
Qed.

End polling.

(** X1.  [claimTask] returns [null] exactly when no task is PENDING with a
    type of the worker, and then it writes nothing; when it returns a task,
    no PENDING task of the worker's types was created before it. *)
Theorem claimTask_takes_the_oldest w now (m : TaskDocs) :
  ((PhoenixBaseWorker.claimTask w now m).2 = None ↔
   ∀ k x, m !! k = Some x → ¬ (status x = PENDING ∧ type x ∈ taskTypes w)) ∧
  ((PhoenixBaseWorker.claimTask w now m).2 = None →
   (PhoenixBaseWorker.claimTask w now m).1 = m) ∧
  (∀ id t', (PhoenixBaseWorker.claimTask w now m).2 = Some (id, t') →
            ∀ k x, m !! k = Some x → status x = PENDING →
                   type x ∈ taskTypes w → created_at t' ≤ created_at x).
Proof.
  split; [|split].
  - rewrite claimTask_None_iff. split; intros H k x Hk.
    + apply claim_filter_false. eauto.
    + apply claim_filter_false. eauto.
  - destruct (PhoenixBaseWorker.claimTask w now m) as [m' r] eqn:Hc. simpl.
    intros ->. by apply claimTask_miss in Hc as [? _].
  - destruct (PhoenixBaseWorker.claimTask w now m) as [m' r] eqn:Hc. simpl.
    intros id t' -> k x Hk Hp Hty.
    apply claimTask_hit in Hc as (t & _ & _ & -> & _ & Hleast).
    simpl. apply (Hleast k x Hk). by apply claim_filter_spec.
Qed.

Lemma claimTask_takes_the_oldest_witness :
  ∃ t', (PhoenixBaseWorker.claimTask Examples.searcher 5 Examples.two_pending).2
        = Some ("A", t') ∧
        created_at t' ≤ created_at (Examples.task PENDING [] 2).
Proof.
  destruct (claimTask_takes_the_oldest Examples.searcher 5 Examples.two_pending)
    as (_ & _ & Hleast).
  eexists. split; [vm_compute; reflexivity|].
  apply (Hleast "A" _ eq_refl "B" (Examples.task PENDING [] 2)).
  - reflexivity.
  - reflexivity.
  - apply list_elem_of_singleton. reflexivity.
Defined.

(** X2.  An iteration of the polling loop whose handler returns an artifact
    and leaves the claimed document alone ends with the task COMPLETED: it
    holds the artifact and the time of completion, the lock is cleared, and
    [retry_count], [last_error] and [input_context] are what they were
    before the claim. *)
Theorem startPolling_iteration_completes w handler now finished
    (m m1 m2 : TaskDocs) id task a :
  PhoenixBaseWorker.claimTask w now m = (m1, Some (id, task)) →
  handler now id task m1 = (m2, inr a) →
  m2 !! id = m1 !! id →
  ∃ t t', m !! id = Some t ∧
          PhoenixBaseWorker.startPolling_iteration w handler now finished m
            !! id = Some t' ∧
          status t' = COMPLETED ∧ output_artifact t' = a ∧
          completed_at t' = Some finished ∧
          worker_lock t' = None ∧ locked_at t' = None ∧
          retry_count t' = retry_count t ∧ last_error t' = last_error t ∧
          input_context t' = input_context t.
Proof.
  intros Hc Hh Hleft. unfold PhoenixBaseWorker.startPolling_iteration.
  rewrite Hc, Hh. simpl.
  apply claimTask_hit in Hc as (t & Hm & _ & -> & -> & _).
  rewrite updateOne_lookup, Hleft, lookup_insert_eq. simpl.
  exists t. eexists. split; [done|]. split; [done|]. repeat split.
Qed.

Lemma startPolling_iteration_completes_witness :
  ∃ t', PhoenixBaseWorker.startPolling_iteration Examples.searcher
          (λ _ _ _ m, (m, inr (JStr "ok"))) 5 6 Examples.two_pending !! "A"
        = Some t' ∧ status t' = COMPLETED ∧ output_artifact t' = JStr "ok".
Proof.
  destruct (startPolling_iteration_completes Examples.searcher
              (λ _ _ _ m, (m, inr (JStr "ok"))) 5 6 Examples.two_pending
              (PhoenixBaseWorker.claimTask Examples.searcher 5
                 Examples.two_pending).1
              (PhoenixBaseWorker.claimTask Examples.searcher 5
                 Examples.two_pending).1
              "A"
              (PhoenixBaseWorker.claim_update Examples.searcher 5
                 (Examples.task PENDING [] 1)) (JStr "ok"))
    as (t & t' & _ & Ht' & Hs & Ha & _).
  - vm_compute. reflexivity.
  - reflexivity.
  - reflexivity.
  - exists t'. split; [exact Ht'|]. split; [exact Hs|exact Ha].
Defined.

(** X3.  With a handler that writes no document that is in the collection,
    an iteration of the polling loop leaves every task as it was, except
    the one it claimed: that task was PENDING, and it is left with a status
    other than IN_PROGRESS and with the lock cleared.  The worker holds
    nothing between iterations. *)
Theorem startPolling_iteration_holds_nothing w handler now finished
    (m : TaskDocs) k t :
  Shape.inserts_only handler →
  m !! k = Some t →
  ∃ t', PhoenixBaseWorker.startPolling_iteration w handler now finished m !! k
        = Some t' ∧
        (t' = t ∨
         (status t = PENDING ∧ type t ∈ taskTypes w ∧
          status t' ≠ IN_PROGRESS ∧
          worker_lock t' = None ∧ locked_at t' = None)).
Proof.
  intros Hh Hk. unfold PhoenixBaseWorker.startPolling_iteration.
  destruct (PhoenixBaseWorker.claimTask w now m) as [m1 [[id task]|]] eqn:Hc.
  - apply claimTask_hit in Hc as (t0 & Hm & Hflt & -> & -> & _).
    apply claim_filter_spec in Hflt as [Hp Hty].
    destruct (decide (k = id)) as [->|Hne].
    + rewrite executeTask_lookup.
      rewrite Hh by (rewrite lookup_insert_eq; eauto).
      rewrite lookup_insert_eq. simpl. eexists. split; [done|]. right.
      rewrite Hk in Hm. injection Hm as <-.
      split; [done|]. split; [done|].
      destruct (handler _ _ _ _).2; [case_match|]; done.
    + rewrite executeTask_lookup_ne by done.
      rewrite Hh by (rewrite lookup_insert_ne by done; eauto).
      rewrite lookup_insert_ne by done. eauto.
  - apply claimTask_miss in Hc as [-> _]. eauto.
Qed.

Lemma startPolling_iteration_holds_nothing_witness :
  ∃ t', PhoenixBaseWorker.startPolling_iteration Examples.searcher
          PhoenixBaseWorker.processTask 5 6 Examples.two_pending !! "A"
        = Some t' ∧
        (t' = Examples.task PENDING [] 1 ∨ status t' ≠ IN_PROGRESS).
Proof.
  destruct (startPolling_iteration_holds_nothing Examples.searcher
              PhoenixBaseWorker.processTask 5 6 Examples.two_pending "A"
              (Examples.task PENDING [] 1)) as (t' & Ht' & Hcase).
  - intros now id task m k _. reflexivity.
  - reflexivity.
  - exists t'. split; [exact Ht'|].
    destruct Hcase as [->|(_ & _ & Hs & _)]; [by left|by right].
Defined.

(** ** Retries of a handler that always raises *)

Section exhaustion.
Import PhoenixBaseWorker.

Lemma startPolling_cons w handler now fin times (m : TaskDocs) :
  startPolling w handler ((now, fin) :: times) m
  = startPolling w handler times (startPolling_iteration w handler now fin m).
Proof. reflexivity. Qed.

(** The only eligible task in the course of the polls: PENDING with [r]
    failures behind it, of a type of the worker, and every other task out
    of the worker's reach. *)
Lemma startPolling_raises w handler msg mx times :
  Shape.always_raises handler msg →
  ∀ (m : TaskDocs) T t r,
    m !! T = Some t → status t = PENDING → type t ∈ taskTypes w →
    (∀ k x, m !! k = Some x → k ≠ T → claim_filter w x = false) →
    default 0 (retry_count t) = r → js_or (max_retries t) 3 = mx → r ≤ mx →
    ∃ t', startPolling w handler times m !! T = Some t' ∧
          (∀ k, k ≠ T → startPolling w handler times m !! k = m !! k) ∧
          (times ≠ [] →
           last_error t' = Some msg ∧
           worker_lock t' = None ∧ locked_at t' = None) ∧
          (r + Z.of_nat (length times) ≤ mx →
           status t' = PENDING ∧
           default 0 (retry_count t') = r + Z.of_nat (length times)) ∧
          (mx < r + Z.of_nat (length times) →
           status t' = FAILED ∧ retry_count t' = Some (mx + 1)).
Proof.
  intros Hraise. induction times as [|[now fin] times IH];
    intros m T t r HT Hp Hty Honly Hr Hmx Hle.
  { exists t. simpl. split; [done|]. split; [done|]. split; [done|].
    split; [|lia]. intros _. split; [done|lia]. }
  rewrite startPolling_cons.
  assert (Hflt : claim_filter w t = true) by by apply claim_filter_spec.
  rewrite (startPolling_iteration_raises w handler msg now fin m T t) by done.
  rewrite Hr, Hmx.
  destruct (Z.leb_spec (r + 1) mx) as [Hnext|Hlast].
  - set (t1 := retry_update (claim_update w now t) msg (claim_update w now t)).
    destruct (IH (<[T := t1]> m) T t1 (r + 1))
      as (t' & Ht' & Hother & Herr & Hpend & Hfail).
    + apply lookup_insert_eq.
    + done.
    + done.
    + intros k x Hk Hne. rewrite lookup_insert_ne in Hk by done. eauto.
    + unfold t1. simpl. unfold newRetryCount. simpl. rewrite js_or_zero. lia.
    + done.
    + done.
    + exists t'. split; [done|]. split.
      { intros k Hne. rewrite Hother by done. by rewrite lookup_insert_ne. }
      split; [|split].
      * intros _. destruct times as [|tt times'].
        -- simpl in Ht'. rewrite lookup_insert_eq in Ht'.
           by injection Ht' as <-.
        -- by apply Herr.
      * intros Hn. destruct Hpend as [? ?]; [simpl in *; lia|].
        split; [done|]. simpl length. lia.
      * intros Hn. apply Hfail. simpl in *. lia.
  - set (t1 := fail_update (claim_update w now t) msg fin (claim_update w now t)).
    exists t1. rewrite startPolling_idle.
    + split; [apply lookup_insert_eq|]. split.
      { intros k Hne. by rewrite lookup_insert_ne. }
      split; [done|]. split; [simpl length; lia|].
      intros _. split; [done|]. unfold t1. simpl.
      unfold newRetryCount. simpl. rewrite js_or_zero. f_equal. lia.
    + intros k x Hk. destruct (decide (k = T)) as [->|Hne].
      * rewrite lookup_insert_eq in Hk. injection Hk as <-. done.
      * rewrite lookup_insert_ne in Hk by done. eauto.
Qed.

End exhaustion.

(** X4.  A worker whose handler raises on every task polls a collection in
    which one task only is PENDING with a type of the worker, with
    [retry_count] [r] at most the limit [max_retries || 3].  After [n]
    iterations the task is PENDING with [retry_count = r + n] as long as
    [r + n] is within the limit; from the iteration that passes the limit
    on it is FAILED with [retry_count] one above the limit.  After the
    first iteration [last_error] is the message raised and the lock is
    cleared.  No other task is touched. *)
Theorem startPolling_exhausts_retries w handler msg times (m : TaskDocs) T t :
  Shape.always_raises handler msg →
  m !! T = Some t → status t = PENDING → type t ∈ taskTypes w →
  (∀ k x, m !! k = Some x → k ≠ T →
          ¬ (status x = PENDING ∧ type x ∈ taskTypes w)) →
  default 0 (retry_count t) ≤ js_or (max_retries t) 3 →
  ∃ t', PhoenixBaseWorker.startPolling w handler times m !! T = Some t' ∧
        (∀ k, k ≠ T →
              PhoenixBaseWorker.startPolling w handler times m !! k = m !! k) ∧
        (times ≠ [] →
         last_error t' = Some msg ∧
         worker_lock t' = None ∧ locked_at t' = None) ∧
        (default 0 (retry_count t) + Z.of_nat (length times)
         ≤ js_or (max_retries t) 3 →
         status t' = PENDING ∧
         default 0 (retry_count t')
         = default 0 (retry_count t) + Z.of_nat (length times)) ∧
        (js_or (max_retries t) 3
         < default 0 (retry_count t) + Z.of_nat (length times) →
         status t' = FAILED ∧
         retry_count t' = Some (js_or (max_retries t) 3 + 1)).
Proof.
  intros Hraise HT Hp Hty Honly Hle.
  apply (startPolling_raises w handler msg (js_or (max_retries t) 3) times
           Hraise m T t (default 0 (retry_count t))); try done.
  intros k x Hk Hne. apply claim_filter_false. eauto.
Qed.

(** The base class on the task "A" alone, polled four times: three retries
    and the final failure. *)
Lemma startPolling_exhausts_retries_witness :
  ∃ t', PhoenixBaseWorker.startPolling Examples.searcher
          PhoenixBaseWorker.processTask [(1, 2); (3, 4); (5, 6); (7, 8)]
          {["A" := Examples.task PENDING [] 1]} !! "A" = Some t' ∧
        status t' = FAILED ∧ retry_count t' = Some 4 ∧
        last_error t' = Some "processTask must be implemented by subclass".
Proof.
  destruct (startPolling_exhausts_retries Examples.searcher
              PhoenixBaseWorker.processTask
              "processTask must be implemented by subclass"
              [(1, 2); (3, 4); (5, 6); (7, 8)]
              {["A" := Examples.task PENDING [] 1]} "A"
              (Examples.task PENDING [] 1))
    as (t' & Ht' & _ & Herr & _ & Hfail).
  - intros now id task m. reflexivity.
  - reflexivity.
  - reflexivity.
  - apply list_elem_of_singleton. reflexivity.
  - intros k x Hk Hne. rewrite lookup_singleton_ne in Hk by done. done.
  - vm_compute. discriminate.
  - exists t'. split; [exact Ht'|].
    destruct Hfail as [Hs Hr]; [vm_compute; reflexivity|].
    destruct Herr as (He & _); [discriminate|].
    split; [exact Hs|]. split; [exact Hr|exact He].
Defined.

(** ** The lock fields *)

Section locks.
Import Shape.

Lemma lock_consistent_unlocked t :
  status t ≠ IN_PROGRESS → worker_lock t = None → locked_at t = None →
  lock_consistent t.
Proof. unfold lock_consistent. by destruct (status t). Qed.

Lemma lock_consistent_not_in_progress t :
  lock_consistent t → status t ≠ IN_PROGRESS →
  worker_lock t = None ∧ locked_at t = None.
Proof. unfold lock_consistent. by destruct (status t). Qed.

Lemma lock_consistent_resolved m t :
  lock_consistent t → status t = BLOCKED →
  lock_consistent (SimpleLoop.resolved m t).
Proof.
  intros Hlc Hb.
  destruct (lock_consistent_not_in_progress t Hlc) as [Hw Hl]; [congruence|].
  destruct (resolved_status m t) as [->|Hs]; [done|].
  apply lock_consistent_unlocked.
  - destruct Hs; congruence.
  - unfold SimpleLoop.resolved.
    destruct (dependencies t) as [[|? ?]|]; repeat case_match; done.
  - unfold SimpleLoop.resolved.
    destruct (dependencies t) as [[|? ?]|]; repeat case_match; done.
Qed.

Lemma lock_consistent_unblocked now m t :
  lock_consistent t → status t = BLOCKED →
  lock_consistent (Orchestrator.unblocked now m t).
Proof.
  intros Hlc Hb.
  destruct (lock_consistent_not_in_progress t Hlc) as [Hw Hl]; [congruence|].
  unfold Orchestrator.unblocked. repeat case_match; try done;
    by apply lock_consistent_unlocked.
Qed.

Lemma lock_consistent_recovered t : lock_consistent (SimpleLoop.recovered t).
Proof. unfold SimpleLoop.recovered. by case_match. Qed.

(** The documents that the insertion loop of the planner leaves are those
    it found and children of the plan. *)
Lemma insert_children_lookup wf now ps (m : TaskDocs) k x :
  (PlannerWorker.insert_children wf now ps m).1 !! k = Some x →
  m !! k = Some x ∨ ∃ p, p ∈ ps ∧ x = PlannerWorker.child_doc wf now p.
Proof.
  revert m. induction ps as [|p ps IH]; intros m; simpl; [by left|].
  destruct (m !! PlannerWorker.prefixed wf (PlannerWorker.p_id p)) eqn:Hp;
    simpl; [by left|].
  intros Hk. apply IH in Hk as [Hk|(q & Hq & ->)].
  - destruct (decide (k = PlannerWorker.prefixed wf (PlannerWorker.p_id p)))
      as [->|Hne].
    + rewrite lookup_insert_eq in Hk. injection Hk as <-.
      right. exists p. split; [by left|done].
    + rewrite lookup_insert_ne in Hk by done. by left.
  - right. exists q. split; [by right|done].
Qed.

Lemma createTasks_lookup now task plan (m : TaskDocs) k x :
  (PlannerWorker.createTasks now task plan m).1 !! k = Some x →
  m !! k = Some x ∨
  ∃ wf p, PlannerWorker.truthy_string (workflow_id task) = Some wf ∧
          x = PlannerWorker.child_doc wf now p.
Proof.
  unfold PlannerWorker.createTasks.
  destruct (PlannerWorker.truthy_string (workflow_id task)) as [wf|];
    [|by left].
  destruct (PlannerWorker.plan_tasks plan) as [ps|]; [|by left].
  destruct (PlannerWorker.insert_children wf now ps m) as [m' [e|]] eqn:Hins;
    simpl; intros Hk;
    (assert (Hk' : (PlannerWorker.insert_children wf now ps m).1 !! k = Some x)
       by by rewrite Hins);
    apply insert_children_lookup in Hk' as [?|(p & _ & ->)]; eauto.
Qed.

End locks.

(** X5.  The worker, the planner, the task route and simpleLoop.js keep the
    lock fields in step with the status: if [worker_lock] and [locked_at]
    are set on the tasks that are IN_PROGRESS and [null] on all others,
    they still are after a claim, after the write that ends [executeTask],
    after the dependency resolution, after the lock timeout recovery, after
    the unblocking pass of orchestrator.js, after the insertions of the
    planner and after [POST /tasks]. *)
Theorem lock_fields_follow_status (m : TaskDocs) :
  map_Forall (λ _, Shape.lock_consistent) m →
  (∀ w now, map_Forall (λ _, Shape.lock_consistent)
              (PhoenixBaseWorker.claimTask w now m).1) ∧
  (∀ id task outcome now,
      map_Forall (λ _, Shape.lock_consistent)
        (PhoenixBaseWorker.executeTask id task outcome now m)) ∧
  map_Forall (λ _, Shape.lock_consistent) (SimpleLoop.dependencyResolution m) ∧
  (∀ now, map_Forall (λ _, Shape.lock_consistent)
            (SimpleLoop.lockTimeoutRecovery now m)) ∧
  (∀ now, map_Forall (λ _, Shape.lock_consistent)
            (Orchestrator.unblockTraffic now m).1) ∧
  (∀ now task plan,
      map_Forall (λ _, Shape.lock_consistent)
        (PlannerWorker.createTasks now task plan m).1) ∧
  (∀ body now, map_Forall (λ _, Shape.lock_consistent)
                 (PhoenixWorkerManager.postTask body now m).1).
Proof.
  intros Hm. rewrite map_Forall_lookup in Hm.
  repeat split; intros; apply map_Forall_lookup; intros k x Hk.
  - destruct (PhoenixBaseWorker.claimTask w now m) as [m' [[id t']|]] eqn:Hc;
      simpl in Hk.
    + apply claimTask_hit in Hc as (t & _ & _ & -> & -> & _).
      destruct (decide (k = id)) as [->|Hne].
      * rewrite lookup_insert_eq in Hk. injection Hk as <-.
        unfold Shape.lock_consistent. simpl. eauto.
      * rewrite lookup_insert_ne in Hk by done. eauto.
    + apply claimTask_miss in Hc as [-> _]. eauto.
  - destruct (decide (k = id)) as [->|Hne].
    + rewrite executeTask_lookup in Hk.
      destruct (m !! id) as [t|]; simpl in Hk; [|done]. injection Hk as <-.
      destruct outcome; [case_match|]; done.
    + rewrite executeTask_lookup_ne in Hk by done. eauto.
  - destruct (dependencyResolution_lookup m k) as (Hn & Hnb & Hb).
    destruct (m !! k) as [t|] eqn:Hmk; [|rewrite Hn in Hk; done].
    destruct (decide (status t = BLOCKED)) as [Hst|Hst].
    + destruct (Hb t eq_refl Hst) as (mi & _ & _ & Hres).
      rewrite Hres in Hk. injection Hk as <-.
      apply lock_consistent_resolved; eauto.
    + rewrite (Hnb t eq_refl Hst) in Hk. injection Hk as <-. eauto.
  - rewrite lockTimeoutRecovery_lookup in Hk.
    destruct (m !! k) as [t|] eqn:Hmk; simpl in Hk; [|done].
    injection Hk as <-. case_match; [apply lock_consistent_recovered|eauto].
  - destruct (unblockTraffic_lookup now m k) as (Hn & Hnb & Hb).
    destruct (m !! k) as [t|] eqn:Hmk; [|rewrite Hn in Hk; done].
    destruct (decide (status t = BLOCKED)) as [Hst|Hst].
    + destruct (Hb t eq_refl Hst) as [[_ Hsame]|(mi & _ & _ & Hres)].
      * rewrite Hsame in Hk. injection Hk as <-. eauto.
      * rewrite Hres in Hk. injection Hk as <-.
        apply lock_consistent_unblocked; eauto.
    + rewrite (Hnb t eq_refl Hst) in Hk. injection Hk as <-. eauto.
  - apply createTasks_lookup in Hk as [Hk|(wf & p & _ & ->)]; [eauto|].
    unfold Shape.lock_consistent, PlannerWorker.child_doc. simpl.
    by case_bool_decide.
  - unfold PhoenixWorkerManager.postTask in Hk.
    destruct (m !! PhoenixWorkerManager.posted_id body now) eqn:Hid;
      simpl in Hk; [eauto|].
    destruct (decide (k = PhoenixWorkerManager.posted_id body now)) as [->|Hne].
    + rewrite lookup_insert_eq in Hk. by injection Hk as <-.
    + rewrite lookup_insert_ne in Hk by done. eauto.
Qed.

Lemma lock_fields_follow_status_witness :
  map_Forall (λ _, Shape.lock_consistent)
    (SimpleLoop.lockTimeoutRecovery Examples.six_minutes Examples.stuck_tasks).
Proof.
  destruct (lock_fields_follow_status Examples.stuck_tasks)
    as (_ & _ & _ & Hrec & _).
  - apply map_Forall_lookup. intros k x Hk.
    destruct (decide (k = "A")) as [->|Hne].
    + vm_compute in Hk. injection Hk as <-.
      split; eexists; reflexivity.
    + unfold Examples.stuck_tasks in Hk.
      rewrite lookup_insert_ne in Hk by done.
      destruct (decide (k = "Z")) as [->|Hne'].
      * vm_compute in Hk. injection Hk as <-. split; eexists; reflexivity.
      * rewrite lookup_insert_ne in Hk by done. done.
  - apply Hrec.
Defined.

(** X6.  The rescue pass of orchestrator.js does not keep them in step: a
    task that is IN_PROGRESS with [locked_at] before [now] minus five
    minutes, and whose [retry_count] is absent or not below
    [max_retries || 3], becomes FAILED with [worker_lock] and [locked_at]
    as they were. *)
Theorem rescueZombies_fails_with_the_lock now (m : TaskDocs) id t l :
  m !! id = Some t → status t = IN_PROGRESS →
  locked_at t = Some l → l < now - 5 * 60 * 1000 →
  (retry_count t = None ∨
   ∃ r, retry_count t = Some r ∧ js_or (max_retries t) 3 ≤ r) →
  ∃ t', Orchestrator.rescueZombies now m !! id = Some t' ∧
        status t' = FAILED ∧ worker_lock t' = worker_lock t ∧
        locked_at t' = Some l ∧ retry_count t' = retry_count t ∧
        last_error t' = last_error t ∧
        ¬ Shape.lock_consistent t'.
Proof.
  intros Hid Hst Hl Hlt Hr.
  assert (Hz : Orchestrator.is_zombie (now - 5 * 60 * 1000) t = true).
  { apply is_zombie_spec. eauto. }
  assert (Hno : Orchestrator.may_retry t = false).
  { unfold Orchestrator.may_retry. destruct Hr as [->|(r & -> & Hr)]; [done|].
    by apply Z.ltb_ge. }
  rewrite (rescueZombies_keeps_lock now m id t Hid Hz Hno).
  eexists. split; [done|]. repeat split; try done.
  unfold Shape.lock_consistent. simpl. rewrite Hl. by intros [_ ?].
Qed.

Lemma rescueZombies_fails_with_the_lock_witness :
  ∃ t', Orchestrator.rescueZombies Examples.six_minutes Examples.stuck_tasks
          !! "Z" = Some t' ∧
        status t' = FAILED ∧ worker_lock t' = Some "dead_worker_xyz".
Proof.
  destruct (rescueZombies_fails_with_the_lock Examples.six_minutes
              Examples.stuck_tasks "Z" (Examples.stuck 3) 0)
    as (t' & Ht' & Hs & Hw & _).
  - reflexivity.
  - reflexivity.
  - reflexivity.
  - vm_compute. reflexivity.
  - right. exists 3. split; [reflexivity|]. vm_compute. discriminate.
  - exists t'. split; [exact Ht'|]. split; [exact Hs|]. rewrite Hw. reflexivity.
Defined.

(** ** The passes of simpleLoop.js *)

Section simple_loop.
Import SimpleLoop.

Lemma is_stuck_not_in_progress thr t :
  status t ≠ IN_PROGRESS → is_stuck thr t = false.
Proof.
  intros Hs. unfold is_stuck. by rewrite bool_decide_eq_false_2.
Qed.

Lemma resolved_fields m t :
  type (resolved m t) = type t ∧
  workflow_id (resolved m t) = workflow_id t ∧
  dependencies (resolved m t) = dependencies t ∧
  created_at (resolved m t) = created_at t ∧
  output_artifact (resolved m t) = output_artifact t ∧
  retry_count (resolved m t) = retry_count t ∧
  max_retries (resolved m t) = max_retries t.
Proof.
  unfold resolved. destruct (dependencies t) as [[|? ?]|] eqn:Hd;
    repeat case_match; simpl; rewrite ?Hd; done.
Qed.

Lemma recovered_fields t :
  type (recovered t) = type t ∧
  workflow_id (recovered t) = workflow_id t ∧
  dependencies (recovered t) = dependencies t ∧
  created_at (recovered t) = created_at t ∧
  output_artifact (recovered t) = output_artifact t ∧
  max_retries (recovered t) = max_retries t ∧
  input_context (recovered t) = input_context t.
Proof. unfold recovered. by case_match. Qed.

Lemma recovered_not_in_progress t : status (recovered t) ≠ IN_PROGRESS.
Proof. unfold recovered. by case_match. Qed.

(** The tasks of a tick, document by document. *)
Lemma orchestratorLoop_lookup now (m : TaskDocs) ws k :
  (m !! k = None → (orchestratorLoop now (m, ws)).1 !! k = None) ∧
  (∀ t, m !! k = Some t → status t = BLOCKED →
        ∃ mi, midway m mi ∧ mi !! k = Some t ∧
              (orchestratorLoop now (m, ws)).1 !! k = Some (resolved mi t)) ∧
  (∀ t, m !! k = Some t → status t ≠ BLOCKED →
        (orchestratorLoop now (m, ws)).1 !! k
        = Some (if is_stuck (now - LOCK_TIMEOUT_MS) t then recovered t else t)).
Proof.
  unfold orchestratorLoop. simpl. rewrite lockTimeoutRecovery_lookup.
  destruct (dependencyResolution_lookup m k) as (Hn & Hnb & Hb).
  split; [|split].
  - intros Hk. by rewrite Hn.
  - intros t Hk Hst. destruct (Hb t Hk Hst) as (mi & Hmid & Hmi & Hres).
    exists mi. split; [done|]. split; [done|]. rewrite Hres. simpl.
    rewrite is_stuck_not_in_progress; [done|].
    destruct (resolved_status mi t) as [->|[Hs|Hs]]; congruence.
  - intros t Hk Hst. by rewrite (Hnb t Hk Hst).
Qed.

End simple_loop.

(** X7.  A tick of [orchestratorLoop] adds and removes no task, leaves as
    it is every task that is neither BLOCKED nor IN_PROGRESS with an
    expired lock, and changes on no task the type, the workflow, the
    dependencies, the time of creation, the artifact or [max_retries]. *)
Theorem orchestratorLoop_frame now (m : TaskDocs) (ws : WorkflowDocs) id :
  ((SimpleLoop.orchestratorLoop now (m, ws)).1 !! id = None ↔ m !! id = None) ∧
  (∀ t, m !! id = Some t → status t ≠ BLOCKED →
        SimpleLoop.is_stuck (now - SimpleLoop.LOCK_TIMEOUT_MS) t = false →
        (SimpleLoop.orchestratorLoop now (m, ws)).1 !! id = Some t) ∧
  (∀ t t', m !! id = Some t →
           (SimpleLoop.orchestratorLoop now (m, ws)).1 !! id = Some t' →
           type t' = type t ∧ workflow_id t' = workflow_id t ∧
           dependencies t' = dependencies t ∧ created_at t' = created_at t ∧
           output_artifact t' = output_artifact t ∧
           max_retries t' = max_retries t).
Proof.
  destruct (orchestratorLoop_lookup now m ws id) as (Hn & Hb & Hnb).
  split; [|split].
  - split; [|done]. intros Hnone.
    destruct (m !! id) as [t|] eqn:Hk; [|done].
    destruct (decide (status t = BLOCKED)) as [Hst|Hst].
    + destruct (Hb t eq_refl Hst) as (mi & _ & _ & Hres). congruence.
    + rewrite (Hnb t eq_refl Hst) in Hnone. done.
  - intros t Hk Hst Hstuck. by rewrite (Hnb t Hk Hst), Hstuck.
  - intros t t' Hk Hk'.
    destruct (decide (status t = BLOCKED)) as [Hst|Hst].
    + destruct (Hb t Hk Hst) as (mi & _ & _ & Hres).
      rewrite Hres in Hk'. injection Hk' as <-.
      destruct (resolved_fields mi t) as (? & ? & ? & ? & ? & ? & ?).
      repeat split; done.
    + rewrite (Hnb t Hk Hst) in Hk'. injection Hk' as <-.
      case_match; [|done].
      destruct (recovered_fields t) as (? & ? & ? & ? & ? & ? & ?).
      repeat split; done.
Qed.

Lemma orchestratorLoop_frame_witness :
  (SimpleLoop.orchestratorLoop Examples.six_minutes
     (Examples.failed_chain, ∅)).1 !! "A"
  = Some (Examples.task FAILED [] 1).
Proof.
  destruct (orchestratorLoop_frame Examples.six_minutes Examples.failed_chain
              ∅ "A") as (_ & Hsame & _).
  apply Hsame; [reflexivity|discriminate|reflexivity].
Defined.

(** X8.  A BLOCKED task whose [dependencies] are absent or empty is PENDING
    after a tick of [orchestratorLoop], with no other field changed. *)
Theorem orchestratorLoop_unblocks_without_dependencies now (m : TaskDocs)
    (ws : WorkflowDocs) T t :
  m !! T = Some t → status t = BLOCKED →
  dependencies t = None ∨ dependencies t = Some [] →
  (SimpleLoop.orchestratorLoop now (m, ws)).1 !! T
  = Some (set_status PENDING t).
Proof.
  intros HT Hb Hd.
  destruct (orchestratorLoop_lookup now m ws T) as (_ & Hlook & _).
  destruct (Hlook t HT Hb) as (mi & _ & _ & ->). f_equal.
  unfold SimpleLoop.resolved. by destruct Hd as [-> | ->].
Qed.

Lemma orchestratorLoop_unblocks_without_dependencies_witness :
  (SimpleLoop.orchestratorLoop 0
     ({["T" := Examples.task BLOCKED [] 1]}, ∅)).1 !! "T"
  = Some (Examples.task PENDING [] 1).
Proof.
  apply (orchestratorLoop_unblocks_without_dependencies 0
           {["T" := Examples.task BLOCKED [] 1]} ∅ "T"
           (Examples.task BLOCKED [] 1)).
  - reflexivity.
  - reflexivity.
  - right. reflexivity.
Defined.

(** X9.  A BLOCKED task stays exactly as it is through the dependency
    resolution when one of its dependencies is PENDING or IN_PROGRESS and
    none of them is FAILED or BLOCKED. *)
Theorem dependencyResolution_waits (m : TaskDocs) T t ds D d :
  m !! T = Some t → status t = BLOCKED → dependencies t = Some ds →
  D ∈ ds → m !! D = Some d → status d = PENDING ∨ status d = IN_PROGRESS →
  (∀ x tx, x ∈ ds → m !! x = Some tx →
           status tx ≠ FAILED ∧ status tx ≠ BLOCKED) →
  SimpleLoop.dependencyResolution m !! T = Some t.
Proof.
  intros HT Hb Hds HD HDm Hd Hnone.
  destruct (dependencyResolution_lookup m T) as (_ & _ & Hlook).
  destruct (Hlook t HT Hb) as (mi & Hmid & _ & ->). f_equal.
  assert (Hsame : ∀ x, x ∈ ds → mi !! x = m !! x).
  { intros x Hx. destruct (m !! x) as [tx|] eqn:Hmx.
    - apply (midway_not_blocked m mi x tx Hmid Hmx).
      by destruct (Hnone x tx Hx Hmx).
    - by apply (midway_None m mi x Hmid). }
  unfold SimpleLoop.resolved. rewrite Hds.
  destruct ds as [|d0 ds]; [by apply elem_of_nil in HD|].
  destruct (SimpleLoop.allDepsCompleted _) eqn:Hall.
  - rewrite allDepsCompleted_spec in Hall.
    assert (status d = COMPLETED).
    { apply (Hall D d HD). by rewrite Hsame. }
    destruct Hd; congruence.
  - destruct (SimpleLoop.anyDepFailed _) eqn:Hany; [|done].
    apply anyDepFailed_spec in Hany as (x & tx & Hx & Hmx & Hf).
    rewrite Hsame in Hmx by done.
    destruct (Hnone x tx Hx Hmx). done.
Qed.

Lemma dependencyResolution_waits_witness :
  SimpleLoop.dependencyResolution
    (<["A" := Examples.task PENDING [] 1]>
       {["B" := Examples.task BLOCKED ["A"] 2]}) !! "B"
  = Some (Examples.task BLOCKED ["A"] 2).
Proof.
  apply (dependencyResolution_waits _ "B" _ ["A"] "A"
           (Examples.task PENDING [] 1)).
  - reflexivity.
  - reflexivity.
  - reflexivity.
  - apply list_elem_of_singleton. reflexivity.
  - reflexivity.
  - left. reflexivity.
  - intros x tx Hx Hm. apply list_elem_of_singleton in Hx as ->.
    vm_compute in Hm. injection Hm as <-. done.
Defined.

(** X10.  The lock timeout recovery reclaims a task once: a second pass at
    the same or an earlier time changes nothing. *)
Theorem lockTimeoutRecovery_once now now' (m : TaskDocs) :
  now' ≤ now →
  SimpleLoop.lockTimeoutRecovery now' (SimpleLoop.lockTimeoutRecovery now m)
  = SimpleLoop.lockTimeoutRecovery now m.
Proof.
  intros Hle. apply map_eq. intros k. rewrite !lockTimeoutRecovery_lookup.
  destruct (m !! k) as [t|]; simpl; [|done]. f_equal.
  destruct (SimpleLoop.is_stuck (now - SimpleLoop.LOCK_TIMEOUT_MS) t) eqn:Hs.
  - rewrite is_stuck_not_in_progress; [done|]. apply recovered_not_in_progress.
  - destruct (SimpleLoop.is_stuck (now' - SimpleLoop.LOCK_TIMEOUT_MS) t) eqn:Hs';
      [|done].
    apply is_stuck_spec in Hs' as (Hst & l & Hl & Hlt).
    assert (SimpleLoop.is_stuck (now - SimpleLoop.LOCK_TIMEOUT_MS) t = true).
    { apply is_stuck_spec. split; [done|]. exists l. split; [done|lia]. }
    congruence.
Qed.

Lemma lockTimeoutRecovery_once_witness :
  SimpleLoop.lockTimeoutRecovery Examples.six_minutes
    (SimpleLoop.lockTimeoutRecovery Examples.six_minutes Examples.stuck_tasks)
  = SimpleLoop.lockTimeoutRecovery Examples.six_minutes Examples.stuck_tasks.
Proof. apply lockTimeoutRecovery_once. lia. Defined.

(** ** The passes of orchestrator.js *)

Section orchestrator_js.
Import Orchestrator.

Lemma rescued_recovered t r :
  retry_count t = Some r → r < js_or (max_retries t) 3 →
  rescued t = SimpleLoop.recovered t.
Proof.
  intros Hr Hlt. unfold rescued, may_retry, SimpleLoop.recovered.
  unfold SimpleLoop.newRetryCount, SimpleLoop.maxRetries.
  rewrite Hr, js_or_zero. simpl.
  destruct (Z.ltb_spec r (js_or (max_retries t) 3)); [|lia].
  destruct (Z.leb_spec (r + 1) (js_or (max_retries t) 3)); [|lia].
  unfold resurrect_update, SimpleLoop.recover_update.
  unfold SimpleLoop.newRetryCount. by rewrite Hr, js_or_zero.
Qed.

End orchestrator_js.

(** X11.  On a task whose lock has expired the two orchestrator scripts
    agree when [retry_count] is a number below [max_retries || 3]: both
    leave the same document, PENDING with the count incremented.  They
    differ when [retry_count] is absent: simpleLoop.js counts it as 0 and
    retries the task, orchestrator.js fails it at once. *)
Theorem orchestrators_on_retry_count now (m : TaskDocs) id t l :
  m !! id = Some t → status t = IN_PROGRESS →
  locked_at t = Some l → l < now - 5 * 60 * 1000 →
  (∀ r, retry_count t = Some r → r < js_or (max_retries t) 3 →
        Orchestrator.rescueZombies now m !! id
        = SimpleLoop.lockTimeoutRecovery now m !! id ∧
        ∃ t', Orchestrator.rescueZombies now m !! id = Some t' ∧
              status t' = PENDING ∧ retry_count t' = Some (r + 1)) ∧
  (retry_count t = None → 1 ≤ js_or (max_retries t) 3 →
   ∃ a b, SimpleLoop.lockTimeoutRecovery now m !! id = Some a ∧
          Orchestrator.rescueZombies now m !! id = Some b ∧
          status a = PENDING ∧ retry_count a = Some 1 ∧
          status b = FAILED ∧ retry_count b = None).
Proof.
  intros Hid Hst Hl Hlt.
  assert (Hz : Orchestrator.is_zombie (now - 5 * 60 * 1000) t = true)
    by (apply is_zombie_spec; eauto).
  assert (Hs : SimpleLoop.is_stuck (now - SimpleLoop.LOCK_TIMEOUT_MS) t = true)
    by exact Hz.
  rewrite rescueZombies_lookup, lockTimeoutRecovery_lookup, Hid. simpl.
  rewrite Hz, Hs. split.
  - intros r Hr Hlim. rewrite (rescued_recovered t r Hr Hlim).
    split; [done|]. eexists. split; [reflexivity|].
    unfold SimpleLoop.recovered, SimpleLoop.newRetryCount, SimpleLoop.maxRetries.
    rewrite Hr, js_or_zero. simpl.
    destruct (Z.leb_spec (r + 1) (js_or (max_retries t) 3)); [|lia].
    simpl. unfold SimpleLoop.newRetryCount. by rewrite Hr, js_or_zero.
  - intros Hr Hlim. eexists _, _. split; [reflexivity|]. split; [reflexivity|].
    unfold SimpleLoop.recovered, SimpleLoop.newRetryCount, SimpleLoop.maxRetries.
    unfold Orchestrator.rescued, Orchestrator.may_retry.
    rewrite Hr. simpl.
    destruct (Z.leb_spec (0 + 1) (js_or (max_retries t) 3)); [|lia].
    simpl. unfold SimpleLoop.newRetryCount. rewrite Hr. simpl.
    repeat split; done.
Qed.

Lemma orchestrators_on_retry_count_witness :
  Orchestrator.rescueZombies Examples.six_minutes Examples.stuck_tasks !! "A"
  = SimpleLoop.lockTimeoutRecovery Examples.six_minutes Examples.stuck_tasks
      !! "A".
Proof.
  destruct (orchestrators_on_retry_count Examples.six_minutes
              Examples.stuck_tasks "A" (Examples.stuck 0) 0) as [Hsame _].
  - reflexivity.
  - reflexivity.
  - reflexivity.
  - vm_compute. reflexivity.
  - destruct (Hsame 0) as [Heq _]; [reflexivity|vm_compute; reflexivity|].
    exact Heq.
Defined.

(** X12.  The unblocking pass of orchestrator.js runs to its end exactly
    when every BLOCKED task has a [dependencies] field; otherwise the query
    throws, the iteration of [startOrchestrator] ends the loop without the
    rescue pass, and every task that was not BLOCKED is as it was. *)
Theorem unblockTraffic_needs_dependencies now (m : TaskDocs) :
  ((Orchestrator.unblockTraffic now m).2 = true ↔
   ∀ k t, m !! k = Some t → status t = BLOCKED → dependencies t ≠ None) ∧
  ((∃ k t, m !! k = Some t ∧ status t = BLOCKED ∧ dependencies t = None) →
   (Orchestrator.startOrchestrator now m).2 = false ∧
   ∀ k t, m !! k = Some t → status t ≠ BLOCKED →
          (Orchestrator.startOrchestrator now m).1 !! k = Some t).
Proof.
  assert (Hflag : (Orchestrator.unblockTraffic now m).2 = true ↔
                  ∀ k t, m !! k = Some t → status t = BLOCKED →
                         dependencies t ≠ None).
  { unfold Orchestrator.unblockTraffic. rewrite unblock_flag, Forall_forall.
    split.
    - intros H k t Hk Hb. apply (H (k, t)). apply elem_of_find.
      split; [done|]. by apply bool_decide_eq_true.
    - intros H [k t] Hin. apply elem_of_find in Hin as [Hk Hb].
      apply bool_decide_eq_true in Hb. simpl. eauto. }
  split; [done|]. intros (k0 & t0 & Hk0 & Hb0 & Hd0).
  unfold Orchestrator.startOrchestrator.
  destruct (Orchestrator.unblockTraffic now m).2 eqn:Hok.
  - by destruct (proj1 Hflag eq_refl k0 t0 Hk0 Hb0).
  - simpl. split; [done|]. intros k t Hk Hst.
    destruct (unblockTraffic_lookup now m k) as (_ & Hnb & _). eauto.
Qed.

Lemma unblockTraffic_needs_dependencies_witness :
  (Orchestrator.startOrchestrator Examples.six_minutes
     (<["N" := Examples.no_dependencies]> Examples.stuck_tasks)).1 !! "A"
  = Some (Examples.stuck 0).
Proof.
  destruct (unblockTraffic_needs_dependencies Examples.six_minutes
              (<["N" := Examples.no_dependencies]> Examples.stuck_tasks))
    as [_ Hleft].
  destruct Hleft as [_ Hsame].
  - exists "N", Examples.no_dependencies. repeat split; reflexivity.
  - apply Hsame; [reflexivity|discriminate].
Defined.

(** ** Failure along a chain of dependencies *)

Section chains.
Import SimpleLoop Shape.

Lemma dependencyResolution_failed (m : TaskDocs) k :
  failed m k → failed (dependencyResolution m) k.
Proof.
  intros (t & Hk & Hf). exists t. split; [|done].
  destruct (dependencyResolution_lookup m k) as (_ & Hnb & _).
  apply Hnb; [done|congruence].
Qed.

Lemma dependencyResolution_fails_next (m : TaskDocs) a b :
  failed m a → waits_on m a b → failed (dependencyResolution m) b.
Proof.
  intros (ta & Ha & Hfa) (t & ds & Hb & Hst & Hds & Hin).
  destruct Hst as [Hst|Hst]; [|apply dependencyResolution_failed; by exists t].
  destruct (dependencyResolution_lookup m b) as (_ & _ & Hlook).
  destruct (Hlook t Hb Hst) as (mi & Hmid & _ & Hres).
  assert (Hami : mi !! a = Some ta).
  { apply (midway_not_blocked m mi a ta Hmid Ha). congruence. }
  rewrite (resolved_dep_failed mi t ds a ta Hds Hin Hami Hfa) in Hres.
  eexists. split; [exact Hres|reflexivity].
Qed.

Lemma dependencyResolution_waits_on (m : TaskDocs) a b ta :
  m !! a = Some ta → status ta = BLOCKED ∨ status ta = FAILED →
  waits_on m a b → waits_on (dependencyResolution m) a b.
Proof.
  intros Ha Hsa (t & ds & Hb & Hst & Hds & Hin).
  destruct (dependencyResolution_lookup m b) as (_ & Hnb & Hlook).
  destruct Hst as [Hst|Hst].
  - destruct (Hlook t Hb Hst) as (mi & Hmid & _ & Hres).
    exists (resolved mi t), ds. split; [done|].
    destruct (resolved_fields mi t) as (_ & _ & Hdeps & _).
    split; [|by rewrite Hdeps].
    assert (Hnot : ∃ ta', mi !! a = Some ta' ∧ status ta' ≠ COMPLETED).
    { destruct (Hmid a) as [Heq|(t0 & t1 & _ & _ & Hmi & Hs1)].
      - exists ta. rewrite Heq. split; [done|]. destruct Hsa; congruence.
      - exists t1. split; [done|]. destruct Hs1; congruence. }
    destruct Hnot as (ta' & Hami & Hnc).
    unfold resolved. rewrite Hds.
    destruct ds as [|d0 ds']; [by apply elem_of_nil in Hin|].
    destruct (allDepsCompleted _) eqn:Hall.
    + rewrite allDepsCompleted_spec in Hall. by specialize (Hall a ta' Hin Hami).
    + destruct (anyDepFailed _); simpl; auto.
  - exists t, ds. split; [apply Hnb; [done|congruence]|]. auto.
Qed.

Lemma dependencyResolution_failing_chain (m : TaskDocs) path :
  failing_chain m path → failing_chain (dependencyResolution m) path.
Proof.
  intros [Hhead Hlinks]. split.
  - intros a Ha. apply dependencyResolution_failed. eauto.
  - intros i a b Ha Hb. specialize (Hlinks i a b Ha Hb) as Hlink.
    destruct i as [|i].
    + destruct (Hhead a Ha) as (ta & Hma & Hfa).
      apply (dependencyResolution_waits_on m a b ta); auto.
    + destruct (lookup_lt_is_Some_2 path i) as [z Hz].
      { apply lookup_lt_Some in Ha. lia. }
      destruct (Hlinks i z a Hz Ha) as (ta & ds & Hma & Hsa & _).
      apply (dependencyResolution_waits_on m a b ta); auto.
Qed.

End chains.

(** X13.  Failure runs down a chain of dependencies one task per pass at
    the least: on a path of tasks in which the first has failed and every
    other is BLOCKED or FAILED and lists the one before among its
    dependencies, the task at position [i] is FAILED after [i] passes of
    the dependency resolution, and after any greater number of passes. *)
Theorem dependencyResolution_fails_chain (m : TaskDocs) path n i a :
  Shape.failing_chain m path →
  path !! i = Some a → (i ≤ n)%nat →
  Shape.failed (Nat.iter n SimpleLoop.dependencyResolution m) a.
Proof.
  intros Hchain. revert i a.
  assert (Hboth : Shape.failing_chain
                    (Nat.iter n SimpleLoop.dependencyResolution m) path ∧
                  ∀ i a, path !! i = Some a → (i ≤ n)%nat →
                         Shape.failed
                           (Nat.iter n SimpleLoop.dependencyResolution m) a).
  { induction n as [|n [IHc IHf]]; simpl.
    - split; [done|]. intros i a Ha Hi.
      assert (i = 0%nat) as -> by lia. by apply Hchain.
    - split; [by apply dependencyResolution_failing_chain|].
      intros i a Ha Hi. destruct (decide (i ≤ n)%nat) as [Hle|Hgt].
      + apply dependencyResolution_failed. eauto.
      + assert (i = S n) as -> by lia.
        destruct (lookup_lt_is_Some_2 path n) as [z Hz].
        { apply lookup_lt_Some in Ha. lia. }
        apply (dependencyResolution_fails_next _ z a); [eauto|].
        destruct IHc as [_ Hlinks]. eauto. }
  apply Hboth.
Qed.

Lemma dependencyResolution_fails_chain_witness :
  Shape.failed
    (Nat.iter 2 SimpleLoop.dependencyResolution Examples.failed_chain) "C".
Proof.
  apply (dependencyResolution_fails_chain Examples.failed_chain
           ["A"; "B"; "C"] 2 2 "C").
  - split.
    + intros a [= <-]. eexists. split; reflexivity.
    + intros i x y Hx Hy. destruct i as [|[|[|i]]]; simpl in Hx, Hy;
        try discriminate; injection Hx as <-; injection Hy as <-.
      * exists (Examples.task BLOCKED ["A"] 2), ["A"].
        repeat split; [by left|apply list_elem_of_singleton; reflexivity].
      * exists (Examples.task BLOCKED ["B"] 3), ["B"].
        repeat split; [by left|apply list_elem_of_singleton; reflexivity].
  - reflexivity.
  - lia.
Defined.

(** ** Tasks that wait for each other *)

Section deadlock.
Import Shape System.

(** The body of either unblocking pass does nothing on a task of a group
    that waits for itself, as long as the group is untouched. *)
Lemma waiting_group_body (ids : list string) (m mi : TaskDocs) k v :
  wait_for_each_other ids m →
  (∀ x, x ∈ ids → mi !! x = m !! x) →
  k ∈ ids → mi !! k = Some v →
  SimpleLoop.resolve_one mi (k, v) = mi ∧
  ∀ now, Orchestrator.unblock_one now mi (k, v) = mi.
Proof.
  intros Hgroup Hsame Hk Hv.
  destruct (Hgroup k Hk) as (t & d & ds & Hm & Hb & Hds & Hin).
  rewrite Hsame, Hm in Hv by done. injection Hv as <-.
  assert (Hd : d ∈ d :: ds) by by left.
  destruct (Hgroup d (Hin d Hd)) as (td & dd & dds & Hmd & Hbd & _).
  assert (Hnot : SimpleLoop.allDepsCompleted (SimpleLoop.find_deps (d :: ds) mi)
                 = false).
  { apply not_true_is_false. rewrite allDepsCompleted_spec. intros Hall.
    specialize (Hall d td Hd). rewrite Hsame in Hall by auto.
    specialize (Hall Hmd). congruence. }
  split.
  - unfold SimpleLoop.resolve_one. simpl. rewrite Hds, Hnot.
    destruct (SimpleLoop.anyDepFailed _) eqn:Hany; [|done].
    apply anyDepFailed_spec in Hany as (x & tx & Hx & Hmx & Hf).
    rewrite Hsame in Hmx by auto.
    destruct (Hgroup x (Hin x Hx)) as (tx' & dx & dsx & Hmx' & Hbx & _).
    congruence.
  - intros now. unfold Orchestrator.unblock_one. simpl. rewrite Hds.
    unfold Orchestrator.allParentsDone.
    unfold SimpleLoop.allDepsCompleted, SimpleLoop.find_deps in Hnot.
    by rewrite Hnot.
Qed.

Lemma waiting_group_fold (ids : list string) (m : TaskDocs)
    (step : TaskDocs → string * Task → TaskDocs) l :
  (∀ m kv k, k ≠ kv.1 → step m kv !! k = m !! k) →
  (∀ mi k v, (∀ x, x ∈ ids → mi !! x = m !! x) → k ∈ ids →
             mi !! k = Some v → step mi (k, v) = mi) →
  NoDup l.*1 → (∀ k v, (k, v) ∈ l → m !! k = Some v) →
  ∀ x, x ∈ ids → foldl step m l !! x = m !! x.
Proof.
  intros Hframe Hbody Hnd Hsnap.
  destruct (snapshot_fold step (λ mi, ∀ x, x ∈ ids → mi !! x = m !! x) l m)
    as [Hend _]; try done.
  intros mi k v Hsame Hin Hcur x Hx.
  destruct (decide (k ∈ ids)) as [Hk|Hk].
  - rewrite (Hbody mi k v Hsame Hk Hcur). auto.
  - rewrite Hframe by (simpl; intros ->; done). auto.
Qed.

Lemma dependencyResolution_waiting_group ids (m : TaskDocs) :
  wait_for_each_other ids m →
  ∀ x, x ∈ ids → SimpleLoop.dependencyResolution m !! x = m !! x.
Proof.
  intros Hgroup. unfold SimpleLoop.dependencyResolution.
  apply waiting_group_fold.
  - apply resolve_one_frame.
  - intros mi k v Hsame Hk Hv.
    by destruct (waiting_group_body ids m mi k v).
  - apply NoDup_find.
  - intros k v Hin. by apply elem_of_find in Hin as [? _].
Qed.

Lemma unblockTraffic_waiting_group ids now (m : TaskDocs) :
  wait_for_each_other ids m →
  ∀ x, x ∈ ids → (Orchestrator.unblockTraffic now m).1 !! x = m !! x.
Proof.
  intros Hgroup. unfold Orchestrator.unblockTraffic. rewrite unblock_fold.
  set (all := find (λ _ t, bool_decide (status t = BLOCKED)) m).
  apply waiting_group_fold.
  - apply unblock_one_frame.
  - intros mi k v Hsame Hk Hv.
    by destruct (waiting_group_body ids m mi k v) as [_ ?].
  - apply (sublist_NoDup _ all.*1); [apply NoDup_find|].
    apply fmap_sublist, reached_sublist.
  - intros k v Hin. eapply elem_of_sublist in Hin; [|apply reached_sublist].
    by apply elem_of_find in Hin as [? _].
Qed.

(** A step of the system leaves a group that waits for itself as it is,
    and is no claim of a task of the group. *)
Lemma step_waiting_group ids s l s' :
  step s l s' →
  wait_for_each_other ids (tasks s) →
  (∀ k, k ∈ ids → k ∉ (running s).*1) →
  (∀ k, k ∈ ids → tasks s' !! k = tasks s !! k) ∧
  (∀ k, k ∈ ids → k ∉ (running s').*1) ∧
  ∀ k w, k ∈ ids → l ≠ Claimed w k.
Proof.
  intros Hstep Hgroup Hrun.
  assert (Hblocked : ∀ k t, k ∈ ids → tasks s !! k = Some t → status t = BLOCKED).
  { intros k t Hk Ht. destruct (Hgroup k Hk) as (t0 & d0 & ds0 & Hm & Hb & _).
    congruence. }
  assert (Hin : ∀ k, k ∈ ids → is_Some (tasks s !! k)).
  { intros k Hk. destruct (Hgroup k Hk) as (t0 & d0 & ds0 & Hm & _). eauto. }
  destruct Hstep as [s w now m' id t Hc|s w now m' Hc|s l1 l2 id t outcome now Hr
                |s l1 l2 id t Hr|s id t Hfree Hst|s|s now|s now|s now]; simpl.
  - apply claimTask_hit in Hc as (t0 & Hm & Hflt & -> & -> & _).
    apply claim_filter_spec in Hflt as [Hp _].
    assert (Hid : id ∉ ids).
    { intros Hid. specialize (Hblocked id t0 Hid Hm). congruence. }
    split; [|split].
    + intros k Hk. apply lookup_insert_ne. by intros ->.
    + intros k Hk. rewrite ?fmap_cons. simpl. apply not_elem_of_cons.
      split; [by intros ->|auto].
    + intros k w' Hk [= _ ->]. done.
  - apply claimTask_miss in Hc as [-> _]. done.
  - assert (Hid : id ∉ ids).
    { intros Hid. apply (Hrun id Hid). rewrite Hr.
      apply list_elem_of_fmap. exists (id, t). split; [done|].
      apply elem_of_app. right. by left. }
    split; [|split; [|done]].
    + intros k Hk. apply executeTask_lookup_ne. by intros ->.
    + intros k Hk Hkin. apply (Hrun k Hk). rewrite Hr.
      rewrite ?fmap_app in Hkin. rewrite ?fmap_app, ?fmap_cons.
      apply elem_of_app in Hkin as [?|?]; apply elem_of_app;
        [by left|right; by right].
  - split; [done|]. split; [|done].
    intros k Hk Hkin. apply (Hrun k Hk). rewrite Hr.
    rewrite ?fmap_app in Hkin. rewrite ?fmap_app, ?fmap_cons.
    apply elem_of_app in Hkin as [?|?]; apply elem_of_app;
      [by left|right; by right].
  - split; [|done]. intros k Hk. apply lookup_insert_ne. intros ->.
    destruct (Hin k Hk) as [? ?]. congruence.
  - split; [|done]. by apply dependencyResolution_waiting_group.
  - split; [|done]. intros k Hk. rewrite lockTimeoutRecovery_lookup.
    destruct (tasks s !! k) as [t|] eqn:Ht; simpl; [|done].
    rewrite is_stuck_not_in_progress; [done|].
    rewrite (Hblocked k t Hk Ht). done.
  - split; [|done]. by apply unblockTraffic_waiting_group.
  - split; [|done]. intros k Hk. rewrite rescueZombies_lookup.
    destruct (tasks s !! k) as [t|] eqn:Ht; simpl; [|done].
    assert (Hz : Orchestrator.is_zombie (now - 5 * 60 * 1000) t = false).
    { apply (is_stuck_not_in_progress _ t). rewrite (Hblocked k t Hk Ht). done. }
    by rewrite Hz.
Qed.

End deadlock.

(** X14.  Tasks that wait for each other wait for ever.  When every task of
    a group is BLOCKED with at least one dependency and with all its
    dependencies inside the group, as the tasks of a cyclic plan are, and
    no worker is in the handler of one of them, then through every run of
    the system, with either orchestrator script, the documents of the
    group stay as they are and no handler of the group is invoked. *)
Theorem tasks_that_wait_for_each_other_never_run ids s tr s' :
  System.exec s tr s' →
  Shape.wait_for_each_other ids (System.tasks s) →
  (∀ k, k ∈ ids → k ∉ (System.running s).*1) →
  (∀ k, k ∈ ids → System.tasks s' !! k = System.tasks s !! k) ∧
  ∀ k, k ∈ ids → ¬ System.invoked k tr.
Proof.
  induction 1 as [s|s l s1 tr s2 Hstep Hex IH]; intros Hgroup Hrun.
  { split; [done|]. intros k Hk [w Hin]. by apply elem_of_nil in Hin. }
  destruct (step_waiting_group ids s l s1 Hstep Hgroup Hrun)
    as (Hsame & Hrun1 & Hnot).
  assert (Hgroup1 : Shape.wait_for_each_other ids (System.tasks s1)).
  { intros k Hk. destruct (Hgroup k Hk) as (t & d & ds & Hm & Hrest).
    exists t, d, ds. by rewrite Hsame. }
  destruct (IH Hgroup1 Hrun1) as [Hsame2 Hnot2].
  split.
  - intros k Hk. rewrite Hsame2 by done. auto.
  - intros k Hk [w Hin]. apply elem_of_cons in Hin as [Heq|Hin].
    + by apply (Hnot k w Hk).
    + apply (Hnot2 k Hk). by exists w.
Qed.

(** The two tasks of the cyclic plan, once the planner has inserted them. *)
Lemma tasks_that_wait_for_each_other_never_run_witness :
  ¬ System.invoked "wf_a" [System.Resolved; System.Recovered] ∧
  (SimpleLoop.lockTimeoutRecovery 9
     (SimpleLoop.dependencyResolution
        (PlannerWorker.createTasks 10 Examples.plan_task Examples.cyclic_plan
           Examples.only_plan_task).1)) !! "wf_a"
  = (PlannerWorker.createTasks 10 Examples.plan_task Examples.cyclic_plan
       Examples.only_plan_task).1 !! "wf_a".
Proof.
  set (m := (PlannerWorker.createTasks 10 Examples.plan_task
               Examples.cyclic_plan Examples.only_plan_task).1).
  destruct (tasks_that_wait_for_each_other_never_run ["wf_a"; "wf_b"]
              (System.mkSys m [])
              [System.Resolved; System.Recovered]
              (System.mkSys
                 (SimpleLoop.lockTimeoutRecovery 9
                    (SimpleLoop.dependencyResolution m)) []))
    as [Hsame Hnot].
  - eapply System.exec_cons; [apply System.step_resolve|].
    eapply System.exec_cons; [apply (System.step_recover _ 9)|].
    apply System.exec_nil.
  - intros k Hk. apply elem_of_cons in Hk as [->|Hk].
    + eexists _, "wf_b", []. split; [vm_compute; reflexivity|].
      split; [reflexivity|]. split; [reflexivity|].
      intros x Hx. apply list_elem_of_singleton in Hx as ->.
      right. by left.
    + apply list_elem_of_singleton in Hk as ->.
      eexists _, "wf_a", []. split; [vm_compute; reflexivity|].
      split; [reflexivity|]. split; [reflexivity|].
      intros x Hx. apply list_elem_of_singleton in Hx as ->. by left.
  - intros k _ Hin. by apply elem_of_nil in Hin.
  - split; [apply Hnot; by left|]. apply (Hsame "wf_a"). by left.
Defined.

(** ** The planner on ids that are taken *)

Section planner_ids.
Import PlannerWorker.

(** The insertion loop overwrites nothing. *)
Lemma insert_children_keeps wf now ps (m : TaskDocs) k x :
  m !! k = Some x → (insert_children wf now ps m).1 !! k = Some x.
Proof.
  revert m. induction ps as [|p ps IH]; intros m Hk; simpl; [done|].
  destruct (m !! prefixed wf (p_id p)) eqn:Hp; simpl; [done|].
  apply IH. rewrite lookup_insert_ne; [done|]. intros <-. congruence.
Qed.

(** After a loop that raised nothing, every task of the plan has a
    document. *)
Lemma insert_children_inserted wf now ps (m m' : TaskDocs) :
  insert_children wf now ps m = (m', None) →
  ∀ p, p ∈ ps → is_Some (m' !! prefixed wf (p_id p)).
Proof.
  revert m. induction ps as [|q ps IH]; intros m Hins p Hp.
  { by apply elem_of_nil in Hp. }
  simpl in Hins.
  destruct (m !! prefixed wf (p_id q)) eqn:Hq; [done|].
  apply elem_of_cons in Hp as [->|Hp]; [|by eapply IH].
  exists (child_doc wf now q).
  replace m' with (insert_children wf now ps
                     (<[prefixed wf (p_id q) := child_doc wf now q]> m)).1
    by by rewrite Hins.
  apply insert_children_keeps, lookup_insert_eq.
Qed.

Lemma insert_children_app wf now l1 l (m m1 : TaskDocs) :
  insert_children wf now l1 m = (m1, None) →
  insert_children wf now (l1 ++ l) m = insert_children wf now l m1.
Proof.
  revert m. induction l1 as [|p l1 IH]; intros m; simpl.
  { by intros [= ->]. }
  destruct (m !! prefixed wf (p_id p)); [done|]. apply IH.
Qed.

End planner_ids.

(** X15.  The planner cannot run twice on the same plan: after a run that
    inserted the tasks of a non-empty plan and returned, a second run with
    that plan on the collection it left raises the duplicate key error and
    writes nothing. *)
Theorem createTasks_cannot_run_twice now now' task plan p ps
    (m m' : TaskDocs) a :
  PlannerWorker.plan_tasks plan = Some (p :: ps) →
  is_Some (PlannerWorker.truthy_string (workflow_id task)) →
  PlannerWorker.createTasks now task plan m = (m', inr a) →
  PlannerWorker.createTasks now' task plan m'
  = (m', inl PlannerWorker.duplicate_key).
Proof.
  intros Hps [wf Hwf]. unfold PlannerWorker.createTasks. rewrite Hwf, Hps.
  destruct (PlannerWorker.insert_children wf now (p :: ps) m)
    as [m1 [e|]] eqn:Hins; [done|].
  intros [= -> _].
  destruct (insert_children_inserted wf now (p :: ps) m m' Hins p) as [x Hx];
    [by left|].
  simpl. by rewrite Hx.
Qed.

Lemma createTasks_cannot_run_twice_witness :
  PlannerWorker.createTasks 11 Examples.plan_task Examples.cyclic_plan
    (PlannerWorker.createTasks 10 Examples.plan_task Examples.cyclic_plan
       Examples.only_plan_task).1
  = ((PlannerWorker.createTasks 10 Examples.plan_task Examples.cyclic_plan
        Examples.only_plan_task).1,
     inl PlannerWorker.duplicate_key).
Proof.
  eapply (createTasks_cannot_run_twice 10 11 Examples.plan_task
            Examples.cyclic_plan _ _ Examples.only_plan_task).
  - reflexivity.
  - eexists. reflexivity.
  - vm_compute. reflexivity.
Defined.

(** X16.  The planner stops at the first task of the plan whose id is
    taken, by a document of the collection or by an earlier task of the
    plan: the tasks before it are inserted and stay, the handler raises the
    duplicate key error, and no task after it is looked at. *)
Theorem createTasks_stops_at_taken_id now task plan wf l1 q l2
    (m : TaskDocs) :
  PlannerWorker.truthy_string (workflow_id task) = Some wf →
  PlannerWorker.plan_tasks plan = Some (l1 ++ q :: l2) →
  NoDup (PlannerWorker.p_id <$> l1) →
  (∀ p, p ∈ l1 →
        m !! PlannerWorker.prefixed wf (PlannerWorker.p_id p) = None) →
  is_Some (m !! PlannerWorker.prefixed wf (PlannerWorker.p_id q)) ∨
  PlannerWorker.p_id q ∈ PlannerWorker.p_id <$> l1 →
  ∃ m', PlannerWorker.createTasks now task plan m
        = (m', inl PlannerWorker.duplicate_key) ∧
        (∀ p, p ∈ l1 →
              m' !! PlannerWorker.prefixed wf (PlannerWorker.p_id p)
              = Some (PlannerWorker.child_doc wf now p)) ∧
        (∀ k, (∀ p, p ∈ l1 →
                    k ≠ PlannerWorker.prefixed wf (PlannerWorker.p_id p)) →
              m' !! k = m !! k).
Proof.
  intros Hwf Hps Hnd Hfree Htaken.
  destruct (insert_children_fresh wf now l1 m Hnd Hfree)
    as (m1 & Hins & Hin & Hout).
  exists m1. unfold PlannerWorker.createTasks. rewrite Hwf, Hps.
  rewrite (insert_children_app wf now l1 (q :: l2) m m1 Hins). simpl.
  assert (Hq : is_Some (m1 !! PlannerWorker.prefixed wf (PlannerWorker.p_id q))).
  { destruct Htaken as [[x Hx]|Hdup].
    - exists x. rewrite Hout; [done|]. intros p Hp Heq.
      rewrite Heq, (Hfree p Hp) in Hx. done.
    - apply list_elem_of_fmap in Hdup as (p & Heq & Hp).
      rewrite Heq. rewrite (Hin p Hp). eauto. }
  destruct Hq as [x ->]. done.
Qed.

Lemma createTasks_stops_at_taken_id_witness :
  ∃ m', PlannerWorker.createTasks 10 Examples.plan_task
          (PlannerWorker.mkPlan (Some Examples.repeating_tasks) false)
          Examples.only_plan_task
        = (m', inl PlannerWorker.duplicate_key) ∧
        is_Some (m' !! "wf_a") ∧ m' !! "wf_c" = None.
Proof.
  destruct (createTasks_stops_at_taken_id 10 Examples.plan_task
              (PlannerWorker.mkPlan (Some Examples.repeating_tasks) false)
              "wf"
              [PlannerWorker.mkPlannedTask "a" "SEARCH" None None (Some [])]
              (PlannerWorker.mkPlannedTask "a" "SUMMARIZE" None None (Some []))
              [PlannerWorker.mkPlannedTask "c" "VALIDATE" None None (Some ["a"])]
              Examples.only_plan_task) as (m' & Hrun & Hin & Hout).
  - reflexivity.
  - reflexivity.
  - apply NoDup_singleton.
  - intros p Hp. apply list_elem_of_singleton in Hp as ->. reflexivity.
  - right. apply list_elem_of_singleton. reflexivity.
  - exists m'. split; [exact Hrun|]. split.
    + eexists.
      apply (Hin (PlannerWorker.mkPlannedTask "a" "SEARCH" None None (Some []))).
      apply list_elem_of_singleton. reflexivity.
    + transitivity (Examples.only_plan_task !! "wf_c"); [|reflexivity].
      apply Hout.
      intros p Hp. apply list_elem_of_singleton in Hp as ->. discriminate.
Defined.

(** ** The worker manager *)

Lemma created_before_total : Total PhoenixWorkerManager.created_before.
Proof. intros a b. unfold PhoenixWorkerManager.created_before. lia. Qed.

Lemma created_before_trans : Transitive PhoenixWorkerManager.created_before.
Proof. intros a b c. unfold PhoenixWorkerManager.created_before. lia. Qed.

Lemma getTasks_Permutation wf st (m : TaskDocs) :
  PhoenixWorkerManager.getTasks wf st m
  ≡ₚ find (λ _ t, PhoenixWorkerManager.matches wf st t) m.
Proof. apply merge_sort_Permutation. Qed.

(** X17.  A task posted through [POST /tasks] under a free id is stored
    [PENDING] whatever dependencies the request names: no tick of the
    orchestrator loop touches it, and a worker of its type that has nothing
    else to claim claims it at once. *)
Theorem postTask_skips_the_dependency_gate body now (m : TaskDocs) :
  m !! PhoenixWorkerManager.posted_id body now = None →
  ∃ t, PhoenixWorkerManager.postTask body now m
       = (<[PhoenixWorkerManager.posted_id body now := t]> m,
          inr (PhoenixWorkerManager.posted_id body now, t)) ∧
       dependencies t
       = Some (default [] (PhoenixWorkerManager.body_dependencies body)) ∧
       (∀ tick ws,
          (SimpleLoop.orchestratorLoop tick
             (<[PhoenixWorkerManager.posted_id body now := t]> m, ws)).1
          !! PhoenixWorkerManager.posted_id body now = Some t) ∧
       (∀ w now1,
          PhoenixWorkerManager.body_type body ∈ taskTypes w →
          (∀ k x, m !! k = Some x →
                  PhoenixBaseWorker.claim_filter w x = false) →
          ∃ t', (PhoenixBaseWorker.claimTask w now1
                   (<[PhoenixWorkerManager.posted_id body now := t]> m)).2
                = Some (PhoenixWorkerManager.posted_id body now, t') ∧
                status t' = IN_PROGRESS ∧
                worker_lock t' = Some (workerId w)).
Proof.
  intros Hfree. exists (PhoenixWorkerManager.posted_task body now).
  split; [|split; [|split]].
  - unfold PhoenixWorkerManager.postTask. by rewrite Hfree.
  - reflexivity.
  - intros tick ws.
    destruct (orchestratorLoop_lookup tick
                (<[PhoenixWorkerManager.posted_id body now :=
                     PhoenixWorkerManager.posted_task body now]> m) ws
                (PhoenixWorkerManager.posted_id body now)) as (_ & _ & Hnb).
    rewrite (Hnb (PhoenixWorkerManager.posted_task body now));
      [|apply lookup_insert_eq|discriminate].
    rewrite is_stuck_not_in_progress; [done|discriminate].
  - intros w now1 Hty Hnone.
    erewrite (claimTask_only_eligible w now1 _
                (PhoenixWorkerManager.posted_id body now)
                (PhoenixWorkerManager.posted_task body now)).
    + eexists. split; [reflexivity|]. split; reflexivity.
    + apply lookup_insert_eq.
    + apply claim_filter_spec. split; [reflexivity|exact Hty].
    + intros k x Hk Hne. rewrite lookup_insert_ne in Hk by done. eauto.
Qed.

Lemma postTask_skips_the_dependency_gate_witness :
  ∃ t, PhoenixWorkerManager.postTask Examples.posted_body 5 ∅
       = (<[PhoenixWorkerManager.posted_id Examples.posted_body 5 := t]> ∅,
          inr (PhoenixWorkerManager.posted_id Examples.posted_body 5, t)) ∧
       dependencies t = Some ["A"].
Proof.
  destruct (postTask_skips_the_dependency_gate Examples.posted_body 5 ∅)
    as (t & Hpost & Hdeps & _).
  - reflexivity.
  - exists t. split; [exact Hpost|exact Hdeps].
Defined.

(** X18.  [GET /tasks] lists exactly the documents that match the query,
    each once, in the order of their creation; an empty [workflow_id]
    parameter filters nothing. *)
Theorem getTasks_lists_matching_tasks_in_order wf st (m : TaskDocs) :
  StronglySorted PhoenixWorkerManager.created_before
    (PhoenixWorkerManager.getTasks wf st m) ∧
  NoDup (PhoenixWorkerManager.getTasks wf st m).*1 ∧
  (∀ k t, (k, t) ∈ PhoenixWorkerManager.getTasks wf st m ↔
          m !! k = Some t ∧
          match wf with
          | Some wid => wid = EmptyString ∨ workflow_id t = Some wid
          | None => True
          end ∧
          match st with Some s => status t = s | None => True end).
Proof.
  split; [|split].
  - apply StronglySorted_merge_sort;
      [apply created_before_trans|apply created_before_total].
  - rewrite getTasks_Permutation. apply NoDup_find.
  - intros k t. rewrite getTasks_Permutation, elem_of_find.
    unfold PhoenixWorkerManager.matches, PlannerWorker.truthy_string.
    rewrite andb_true_iff.
    assert (Hst : (match st with
                   | Some s => bool_decide (status t = s)
                   | None => true
                   end = true) ↔
                  match st with Some s => status t = s | None => True end).
    { destruct st; [apply bool_decide_eq_true|done]. }
    rewrite Hst.
    destruct wf as [wid|]; [|tauto].
    destruct (String.eqb_spec wid EmptyString) as [->|Hne].
    + tauto.
    + rewrite bool_decide_eq_true. tauto.
Qed.

(** ** The fleet *)

(** Membership in a list that is written out. *)
Ltac in_list :=
  repeat match goal with
         | H : _ ∈ [] |- _ => by apply elem_of_nil in H
         | H : _ ∈ _ :: _ |- _ => apply elem_of_cons in H as [->|H]
         end.

Ltac pick_worker i :=
  eexists; split;
  [apply (list_elem_of_lookup_2 _ i); reflexivity | simpl; set_solver].

(** [spawnWorker] throws exactly on the types that [start] does not use. *)
Lemma spawnWorker_known type now :
  is_Some (match PhoenixWorkerManager.spawnWorker type now with
           | inr w => Some w
           | inl _ => None
           end) ↔ type ∈ PhoenixWorkerManager.workerTypes.
Proof.
  unfold PhoenixWorkerManager.spawnWorker, PhoenixWorkerManager.workerTypes.
  split.
  - intros Hok.
    repeat match goal with
           | H : context [String.eqb type ?s] |- _ =>
               destruct (String.eqb_spec type s) as [->|?];
               [set_solver|]
           end.
    by destruct Hok.
  - intros Hin. in_list; simpl; eauto.
Qed.

(** X19.  The fleet that [start] spawns has one worker for each of the
    seven worker types, and between them the workers handle every value of
    [TaskType] and nothing else, each value by exactly one worker: so no two
    workers of the fleet compete for a task, and [GET /capabilities] reports
    the eight task types. *)
Theorem start_covers_every_task_type (clock : nat → Z) :
  length (PhoenixWorkerManager.start clock) = 7%nat ∧
  (∀ ty, (∃ w, w ∈ PhoenixWorkerManager.start clock ∧ ty ∈ taskTypes w) ↔
         ty ∈ PhoenixWorkers.TaskType) ∧
  (∀ w1 w2 t,
     w1 ∈ PhoenixWorkerManager.start clock →
     w2 ∈ PhoenixWorkerManager.start clock →
     PhoenixBaseWorker.claim_filter w1 t = true →
     PhoenixBaseWorker.claim_filter w2 t = true → w1 = w2) ∧
  PhoenixWorkerManager.allTypes (PhoenixWorkerManager.start clock)
  ≡ₚ PhoenixWorkers.TaskType.
Proof.
  split; [reflexivity|]. split; [|split].
  - intros ty. split.
    + intros (w & Hw & Hty).
      unfold PhoenixWorkerManager.start in Hw. simpl in Hw.
      unfold PhoenixWorkers.TaskType.
      in_list; simpl in Hty; in_list; set_solver.
    + intros Hty. unfold PhoenixWorkers.TaskType in Hty.
      unfold PhoenixWorkerManager.start. simpl.
      in_list;
        first [pick_worker 0%nat | pick_worker 1%nat | pick_worker 2%nat
              | pick_worker 3%nat | pick_worker 4%nat | pick_worker 5%nat
              | pick_worker 6%nat].
  - intros w1 w2 t H1 H2 Hf1 Hf2.
    apply claim_filter_spec in Hf1 as [_ Hf1].
    apply claim_filter_spec in Hf2 as [_ Hf2].
    unfold PhoenixWorkerManager.start in H1, H2. simpl in H1, H2.
    generalize dependent (type t). intros ty Hf1 Hf2.
    in_list; try reflexivity; exfalso; simpl in Hf1, Hf2;
      repeat match goal with
             | H : ty ∈ [] |- _ => by apply elem_of_nil in H
             | H : ty ∈ _ :: _ |- _ => apply elem_of_cons in H as [?|H]
             end; congruence.
  - unfold PhoenixWorkerManager.start, PhoenixWorkerManager.allTypes.
    simpl. unfold PhoenixWorkers.TaskType.
    apply NoDup_Permutation.
    + apply (bool_decide_unpack _). reflexivity.
    + apply (bool_decide_unpack _). reflexivity.
    + intros x. rewrite !elem_of_cons. tauto.
Qed.
